(** * iSCSI storage support of cloudpods: control-plane driver and host-side storage

    Shallow embedding of
      - pkg/compute/storagedrivers/iscsi.go   (validator and cache reconciler)
      - pkg/hostman/storageman/storage_iscsi.go (attach/detach lifecycle)
    Go strings are byte sequences and are modelled by [string]; Go [int]
    values by [Z]; the JSON configuration blob by a finite map. *)

From Stdlib Require Import ZArith Ascii String List Bool Lia.
From stdpp Require Import base tactics option list strings gmap pretty.

Open Scope string_scope.
Open Scope list_scope.
Open Scope Z_scope.

(** ** Byte-level helpers shared by both packages *)

Module GoString.

Definition bytes (s : string) : list ascii := list_ascii_of_string s.

(** len(s) *)
Definition len (s : string) : Z := Z.of_nat (String.length s).

Definition all_bytes (p : ascii → bool) (s : string) : bool := forallb p (bytes s).

Definition mem_byte (c : ascii) (set : list ascii) : bool := existsb (Ascii.eqb c) set.

(** strings.ContainsAny(s, chars) *)
Definition ContainsAny (s chars : string) : bool :=
  existsb (fun c => mem_byte c (bytes chars)) (bytes s).

Definition in_range (lo hi c : ascii) : bool :=
  (N.leb (N_of_ascii lo) (N_of_ascii c) && N.leb (N_of_ascii c) (N_of_ascii hi))%bool.

Definition is_digit (c : ascii) : bool := in_range "0" "9" c.
Definition is_lower (c : ascii) : bool := in_range "a" "z" c.
Definition is_upper (c : ascii) : bool := in_range "A" "Z" c.
Definition is_alnum (c : ascii) : bool := (is_lower c || is_upper c || is_digit c)%bool.

(** The ASCII white space of unicode.IsSpace: '\t' '\n' '\v' '\f' '\r'
    ' '. *)
Definition is_space (c : ascii) : bool :=
  mem_byte c ["009"; "010"; "011"; "012"; "013"; " "]%char.

(** The other white space of unicode.IsSpace, as UTF-8 encodes it:
    U+0085 and U+00A0 on two bytes; U+1680, U+2000 to U+200A, U+2028,
    U+2029, U+202F, U+205F and U+3000 on three. *)
Definition space2 (a b : ascii) : bool :=
  Ascii.eqb a "194" && (Ascii.eqb b "133" || Ascii.eqb b "160").

Definition space3 (a b c : ascii) : bool :=
  (Ascii.eqb a "225" && Ascii.eqb b "154" && Ascii.eqb c "128")
  || (Ascii.eqb a "226" && Ascii.eqb b "128"
      && (in_range "128" "138" c || Ascii.eqb c "168" || Ascii.eqb c "169"
          || Ascii.eqb c "175"))
  || (Ascii.eqb a "226" && Ascii.eqb b "129" && Ascii.eqb c "159")
  || (Ascii.eqb a "227" && Ascii.eqb b "128" && Ascii.eqb c "128").

(** Drop the white space a byte sequence begins with. [two] and [three]
    recognise the encodings on two and three bytes in the order in which
    the bytes are met. A byte that begins no such encoding is where
    decoding finds a character that is not white space, or an invalid
    byte, and trimming stops. *)
Fixpoint trim_with (two : ascii → ascii → bool) (three : ascii → ascii → ascii → bool)
    (l : list ascii) : list ascii :=
  match l with
  | [] => []
  | a :: l1 =>
      if is_space a then trim_with two three l1
      else
        match l1 with
        | [] => l
        | b :: l2 =>
            if two a b then trim_with two three l2
            else
              match l2 with
              | [] => l
              | c :: l3 => if three a b c then trim_with two three l3 else l
              end
        end
  end.

Definition trim_left (l : list ascii) : list ascii := trim_with space2 space3 l.

(** the same from the end, on the reversed sequence *)
Definition trim_right_rev (l : list ascii) : list ascii :=
  trim_with (fun a b => space2 b a) (fun a b c => space3 c b a) l.

(** strings.TrimSpace: the text without the white space, as
    unicode.IsSpace defines it, at its beginning and at its end *)
Definition TrimSpace (s : string) : string :=
  string_of_list_ascii (rev (trim_right_rev (rev (trim_left (bytes s))))).

(** strings.Split(s, sep)[0] for a one-byte separator: the text before the
    first occurrence of [sep], the whole string when there is none. *)
Fixpoint before_first (sep : ascii) (s : string) : string :=
  match s with
  | EmptyString => EmptyString
  | String c s' => if Ascii.eqb c sep then EmptyString else String c (before_first sep s')
  end.

Fixpoint has_prefix (p s : string) : bool :=
  match p, s with
  | EmptyString, _ => true
  | String a p', String b s' => (Ascii.eqb a b && has_prefix p' s')%bool
  | String _ _, EmptyString => false
  end.

(** strings.Contains(s, sub) *)
Fixpoint Contains (s sub : string) : bool :=
  (has_prefix sub s ||
   match s with
   | EmptyString => false
   | String _ s' => Contains s' sub
   end)%bool.

End GoString.

(** Package unicode/utf8, as far as telling valid text from invalid. *)
Module Utf8.

Import GoString.

(** a continuation byte, 10xxxxxx *)
Definition cont (c : ascii) : bool := in_range "128" "191" c.

(** the first bytes of the characters encoded on two and on three bytes *)
Definition lead2 (a : ascii) : bool := in_range "194" "223" a.
Definition lead3 (a : ascii) : bool := in_range "224" "239" a.

(** the well-formed sequences of three and of four bytes: no overlong
    form, no surrogate, nothing above U+10FFFF *)
Definition valid3 (a b c : ascii) : bool :=
  ((Ascii.eqb a "224" && in_range "160" "191" b)
   || (in_range "225" "236" a && cont b)
   || (Ascii.eqb a "237" && in_range "128" "159" b)
   || (in_range "238" "239" a && cont b))
  && cont c.

Definition valid4 (a b c d : ascii) : bool :=
  ((Ascii.eqb a "240" && in_range "144" "191" b)
   || (in_range "241" "243" a && cont b)
   || (Ascii.eqb a "244" && in_range "128" "143" b))
  && cont c && cont d.

(** Decode character after character, as utf8.DecodeRuneInString does;
    answer the text from the first byte at which it returns RuneError with
    width 1, [None] when the whole text is valid. *)
Fixpoint invalid_rest (l : list ascii) : option (list ascii) :=
  match l with
  | [] => None
  | a :: l1 =>
      if in_range "000" "127" a then invalid_rest l1
      else
        match l1 with
        | [] => Some l
        | b :: l2 =>
            if lead2 a then (if cont b then invalid_rest l2 else Some l)
            else
              match l2 with
              | [] => Some l
              | c :: l3 =>
                  if lead3 a then (if valid3 a b c then invalid_rest l3 else Some l)
                  else
                    match l3 with
                    | [] => Some l
                    | d :: l4 => if valid4 a b c d then invalid_rest l4 else Some l
                    end
              end
        end
  end.


End Utf8.

(** ** Regular expressions (the fragment of Go's regexp used by the code)

    Matching is by derivatives, so that it computes; [lang] is the
    denotation used in the proofs. Character classes are predicates on
    bytes; all classes that occur in the code's patterns are ASCII. *)

Module Regexp.

Inductive re : Type :=
| Void : re
| Eps : re
| Class (p : ascii → bool) : re
| Cat (r1 r2 : re) : re
| Alt (r1 r2 : re) : re
| Star (r : re) : re.

Fixpoint nullable (r : re) : bool :=
  match r with
  | Void => false
  | Eps => true
  | Class _ => false
  | Cat r1 r2 => nullable r1 && nullable r2
  | Alt r1 r2 => nullable r1 || nullable r2
  | Star _ => true
  end.

Fixpoint deriv (c : ascii) (r : re) : re :=
  match r with
  | Void => Void
  | Eps => Void
  | Class p => if p c then Eps else Void
  | Cat r1 r2 =>
      if nullable r1 then Alt (Cat (deriv c r1) r2) (deriv c r2)
      else Cat (deriv c r1) r2
  | Alt r1 r2 => Alt (deriv c r1) (deriv c r2)
  | Star r1 => Cat (deriv c r1) (Star r1)
  end.

Fixpoint accepts (r : re) (w : list ascii) : bool :=
  match w with
  | [] => nullable r
  | c :: w' => accepts (deriv c r) w'
  end.

(** a literal byte, a literal text (what a QuoteMeta-escaped text compiles to) *)
Definition Byte (c : ascii) : re := Class (Ascii.eqb c).

Fixpoint Lit (w : list ascii) : re :=
  match w with
  | [] => Eps
  | c :: w' => Cat (Byte c) (Lit w')
  end.

Definition Text (s : string) : re := Lit (GoString.bytes s).

(** r+ and r{n} *)
Definition Plus (r : re) : re := Cat r (Star r).

Fixpoint Repeat (n : nat) (r : re) : re :=
  match n with
  | O => Eps
  | S n' => Cat r (Repeat n' r)
  end.

(** [.] without the s flag: any character but newline *)
Definition Dot : re := Class (fun c => negb (Ascii.eqb c "010")).

Definition AnyByte : re := Class (fun _ => true).

(** regexp.MatchString for a pattern written ^r$ : the whole text matches *)
Definition MatchAnchored (r : re) (s : string) : bool :=
  accepts r (GoString.bytes s).

(** regexp.MatchString / Regexp.MatchString for a pattern without anchors:
    some substring matches *)
Definition MatchString (r : re) (s : string) : bool :=
  accepts (Cat (Star AnyByte) (Cat r (Star AnyByte))) (GoString.bytes s).

Inductive lang : re → list ascii → Prop :=
| lang_eps : lang Eps []
| lang_class p c : p c = true → lang (Class p) [c]
| lang_cat r1 r2 u v : lang r1 u → lang r2 v → lang (Cat r1 r2) (u ++ v)
| lang_alt_l r1 r2 w : lang r1 w → lang (Alt r1 r2) w
| lang_alt_r r1 r2 w : lang r2 w → lang (Alt r1 r2) w
| lang_star_nil r : lang (Star r) []
| lang_star_app r u v : lang r u → lang (Star r) v → lang (Star r) (u ++ v).

(** regexp.QuoteMeta: a backslash before each of \.+*?()|[]{}^$ *)
Definition special (c : ascii) : bool :=
  GoString.mem_byte c (GoString.bytes "\.+*?()|[]{}^$").

Fixpoint QuoteMeta (s : string) : string :=
  match s with
  | EmptyString => EmptyString
  | String c s' =>
      if special c then String "\" (String c (QuoteMeta s')) else String c (QuoteMeta s')
  end.

End Regexp.

(** ** strconv and net: the standard-library functions the driver calls *)

Inductive result (A : Type) : Type :=
| Ok (a : A)
| Err (msg : string).
Arguments Ok {A} a.
Arguments Err {A} msg.

Module Strconv.

Definition digit_value (c : ascii) : Z := Z.of_N (N_of_ascii c) - 48.

Fixpoint digits_value (acc : Z) (l : list ascii) : option Z :=
  match l with
  | [] => Some acc
  | c :: l' =>
      if GoString.is_digit c then digits_value (10 * acc + digit_value c) l' else None
  end.

Definition minInt : Z := - 2 ^ 63.
Definition maxInt : Z := 2 ^ 63 - 1.

(** strconv.Atoi on a 64-bit platform: optional sign, at least one decimal
    digit, value within the int range. The error value carries the reason
    only (the library's message also quotes the input). *)
Definition Atoi (s : string) : result Z :=
  let parse (neg : bool) (ds : list ascii) : result Z :=
    match ds with
    | [] => Err "invalid syntax"
    | _ =>
        match digits_value 0 ds with
        | None => Err "invalid syntax"
        | Some v =>
            let v' := if neg then - v else v in
            if (minInt <=? v') && (v' <=? maxInt) then Ok v' else Err "value out of range"
        end
    end in
  match GoString.bytes s with
  | [] => Err "invalid syntax"
  | c :: rest =>
      if Ascii.eqb c "-" then parse true rest
      else if Ascii.eqb c "+" then parse false rest
      else parse false (c :: rest)
  end.

(** strconv.Itoa, and the %d verb of fmt *)
Definition Itoa (z : Z) : string := pretty z.

End Strconv.

Module Net.

Fixpoint index_byte_from (i : nat) (c : ascii) (s : string) : option nat :=
  match s with
  | EmptyString => None
  | String a s' => if Ascii.eqb a c then Some i else index_byte_from (S i) c s'
  end.

Definition found (o : option nat) : bool :=
  match o with Some _ => true | None => false end.

(** strings.IndexByte *)
Definition IndexByte (s : string) (c : ascii) : option nat := index_byte_from 0 c s.

Fixpoint last_index_byte_from (i : nat) (c : ascii) (s : string) : option nat :=
  match s with
  | EmptyString => None
  | String a s' =>
      match last_index_byte_from (S i) c s' with
      | Some j => Some j
      | None => if Ascii.eqb a c then Some i else None
      end
  end.

(** strings.LastIndexByte *)
Definition LastIndexByte (s : string) (c : ascii) : option nat :=
  last_index_byte_from 0 c s.

(** s[i:j] and s[i:] *)
Definition slice (s : string) (i j : nat) : string := String.substring i (j - i) s.
Definition slice_from (s : string) (i : nat) : string :=
  String.substring i (String.length s - i) s.

Definition addrErr (addr why : string) : string := "address " +:+ addr +:+ ": " +:+ why.

(** net.SplitHostPort *)
Definition SplitHostPort (hostport : string) : result (string * string) :=
  let missingPort := "missing port in address" in
  let tooManyColons := "too many colons in address" in
  match LastIndexByte hostport ":" with
  | None => Err (addrErr hostport missingPort)
  | Some i =>
      let finish (host : string) (j k : nat) : result (string * string) :=
        if found (IndexByte (slice_from hostport j) "[")
        then Err (addrErr hostport "unexpected '[' in address")
        else if found (IndexByte (slice_from hostport k) "]")
        then Err (addrErr hostport "unexpected ']' in address")
        else Ok (host, slice_from hostport (S i)) in
      if GoString.has_prefix "[" hostport then
        match IndexByte hostport "]" with
        | None => Err (addrErr hostport "missing ']' in address")
        | Some e =>
            if Nat.eqb (S e) (String.length hostport) then Err (addrErr hostport missingPort)
            else if Nat.eqb (S e) i then finish (slice hostport 1 e) 1%nat (S e)
            else if GoString.has_prefix ":" (slice_from hostport (S e))
                 then Err (addrErr hostport tooManyColons)
                 else Err (addrErr hostport missingPort)
        end
      else
        let host := slice hostport 0 i in
        if found (IndexByte host ":") then Err (addrErr hostport tooManyColons)
        else finish host 0%nat 0%nat
  end.

(** net.JoinHostPort: a host holding a colon is put in brackets *)
Definition JoinHostPort (host port : string) : string :=
  if found (IndexByte host ":")
  then "[" +:+ host +:+ "]:" +:+ port
  else host +:+ ":" +:+ port.

(** The part of package net whose answers depend on the library version or
    on the network: whether net.ParseIP returns a non-nil address, and the
    outcome of net.DialTimeout("tcp", addr, 10s) ([None] for an established
    connection, otherwise the error text). *)
Record Network : Type := {
  ParseIP : string → bool;
  DialTimeout : string → option string;
}.

End Net.

(** ** yunion.io/x/jsonutils: the configuration blob

    A storage configuration is a flat JSON dictionary. The code reads it
    with [GetString] and [Int] and always discards the error they return,
    so only the value component is modelled: the zero value for a missing
    key, the stored value otherwise (converted when the JSON type differs). *)

Module Jsonutils.

Inductive JSONValue : Type :=
| JSONString (s : string)
| JSONInt (z : Z).

#[global] Instance JSONValue_eq_dec : EqDecision JSONValue.
Proof. solve_decision. Defined.

Abbreviation JSONDict := (gmap string JSONValue).

(** jsonutils.NewDict() *)
Definition NewDict : JSONDict := ∅.

(** v, _ := dict.GetString(key) *)
Definition GetString (d : JSONDict) (key : string) : string :=
  match d !! key with
  | Some (JSONString s) => s
  | Some (JSONInt z) => Strconv.Itoa z
  | None => ""
  end.

(** v, _ := dict.Int(key) *)
Definition Int (d : JSONDict) (key : string) : Z :=
  match d !! key with
  | Some (JSONInt z) => z
  | Some (JSONString s) => match Strconv.Atoi s with Ok z => z | Err _ => 0 end
  | None => 0
  end.

(** dict.Set(key, value) *)
Definition Set_ (d : JSONDict) (key : string) (v : JSONValue) : JSONDict := <[key := v]> d.

(** dict.Update(other): every key of [other] is written into [d] *)
Definition Update (d other : JSONDict) : JSONDict := other ∪ d.

End Jsonutils.

(** ** pkg/apis/compute and pkg/httperrors: the types the driver exchanges *)

Module Api.

(** Modelled from the spec: the constants STORAGE_ISCSI and STORAGE_ONLINE
    are declared in pkg/apis/compute, outside the sources at hand; the spec
    calls the status [online], the front-end documents the type tag
    [iscsi]. *)
Definition STORAGE_ISCSI : string := "iscsi".
Definition STORAGE_ONLINE : string := "online".

Module StorageCreateInput.
Record t : Type := mk {
  IscsiTarget : string;
  IscsiIqn : string;
  IscsiPortal : string;
  IscsiUsername : string;
  IscsiPassword : string;
  IscsiLunId : Z;
  StorageConf : Jsonutils.JSONDict;
}.
Definition set_StorageConf (i : t) (d : Jsonutils.JSONDict) : t :=
  mk (IscsiTarget i) (IscsiIqn i) (IscsiPortal i) (IscsiUsername i) (IscsiPassword i)
     (IscsiLunId i) d.
Definition set_IscsiLunId (i : t) (z : Z) : t :=
  mk (IscsiTarget i) (IscsiIqn i) (IscsiPortal i) (IscsiUsername i) (IscsiPassword i)
     z (StorageConf i).
End StorageCreateInput.

(** The update input is passed by value but its StorageConf is a pointer:
    the dictionary lives in a store shared with the caller. *)
Module StorageUpdateInput.
Record t : Type := mk {
  IscsiUsername : string;
  IscsiPassword : string;
  StorageConf : nat;
  UpdateStorageConf : bool;
}.
Definition set_UpdateStorageConf (i : t) (b : bool) : t :=
  mk (IscsiUsername i) (IscsiPassword i) (StorageConf i) b.
End StorageUpdateInput.

(** Modelled from the spec: api.IscsiStorageConf is declared outside the
    sources at hand; its JSON keys are the ones the driver reads back
    ([target], [iqn], [portal], [lun_id]) and the host-side copy of the
    structure declares ([username], [password]). *)
Module IscsiStorageConf.
Record t : Type := mk {
  Target : string;
  Iqn : string;
  Portal : string;
  Username : string;
  Password : string;
  LunId : Z;
}.
(** jsonutils.Marshal(iscsiConf) *)
Definition Marshal (c : t) : Jsonutils.JSONDict :=
  <["target" := Jsonutils.JSONString (Target c)]>
  (<["iqn" := Jsonutils.JSONString (Iqn c)]>
  (<["portal" := Jsonutils.JSONString (Portal c)]>
  (<["username" := Jsonutils.JSONString (Username c)]>
  (<["password" := Jsonutils.JSONString (Password c)]>
  (<["lun_id" := Jsonutils.JSONInt (LunId c)]> ∅))))).
End IscsiStorageConf.

End Api.

Module Httperrors.

Inductive t : Type :=
| MissingParameterError (param : string)
| InputParameterError (msg : string)
| DuplicateResourceError (msg : string)
| BadRequestError (msg : string)
| GeneralError (msg : string).

Definition is_duplicate (e : option t) : bool :=
  match e with Some (DuplicateResourceError _) => true | _ => false end.

End Httperrors.

(** ** pkg/compute/models and pkg/cloudcommon/db: the persistence collaborator *)

Module Models.

Module SStorage.
Record t : Type := mk {
  Id : string;
  Name : string;
  StorageType : string;
  Status : string;
  StoragecacheId : string;
  StorageConf : Jsonutils.JSONDict;
}.
Definition set_Status (s : t) (status : string) : t :=
  mk (Id s) (Name s) (StorageType s) status (StoragecacheId s) (StorageConf s).
Definition set_StoragecacheId (s : t) (c : string) : t :=
  mk (Id s) (Name s) (StorageType s) (Status s) c (StorageConf s).
End SStorage.

Module SStoragecache.
Record t : Type := mk {
  Id : string;
  Name : string;
  Path : string;
  ExternalId : string;
}.
Definition set_Id (c : t) (id : string) : t := mk id (Name c) (Path c) (ExternalId c).
End SStoragecache.

(** The two tables the driver touches, rows in query order. *)
Record Database : Type := {
  storages : list SStorage.t;
  storagecaches : list SStoragecache.t;
}.

(** What the persistence layer answers during one call of the driver:
    the error of each kind of operation ([None] when it succeeds) and the
    identifier given to a cache record when it is inserted. *)
Record Persistence : Type := {
  fetch_error : option string;
  insert_error : option string;
  update_error : option string;
  new_id : list SStoragecache.t → string;
}.

Definition is_iscsi (s : SStorage.t) : bool :=
  String.eqb (SStorage.StorageType s) Api.STORAGE_ISCSI.

(** q := StorageManager.Query().Equals("storage_type", api.STORAGE_ISCSI);
    db.FetchModelObjects(StorageManager, q, &storages) *)
Definition FetchModelObjects (p : Persistence) (db : Database) : result (list SStorage.t) :=
  match fetch_error p with
  | Some e => Err e
  | None => Ok (filter (fun s => is_iscsi s = true) (storages db))
  end.

Definition write_row (s : SStorage.t) (rows : list SStorage.t) : list SStorage.t :=
  map (fun r => if String.eqb (SStorage.Id r) (SStorage.Id s) then s else r) rows.

(** Modelled from the spec: db.Update lives in pkg/cloudcommon/db, outside
    the sources at hand. On success the closure's changes are applied to
    the record and written to its row; the spec says of a persistence
    failure that the storage record is left in its prior state. *)
Definition Update (p : Persistence) (db : Database) (s : SStorage.t)
    (change : SStorage.t → SStorage.t) : Database * SStorage.t * option string :=
  match update_error p with
  | Some e => (db, s, Some e)
  | None =>
      let s' := change s in
      ({| storages := write_row s' (storages db); storagecaches := storagecaches db |},
       s', None)
  end.

(** StoragecacheManager.TableSpec().Insert(ctx, sc): the record receives
    its identifier and is appended to the table. *)
Definition Insert (p : Persistence) (db : Database) (sc : SStoragecache.t)
    : result (Database * SStoragecache.t) :=
  match insert_error p with
  | Some e => Err e
  | None =>
      let sc' := SStoragecache.set_Id sc (new_id p (storagecaches db)) in
      Ok ({| storages := storages db; storagecaches := storagecaches db ++ [sc'] |}, sc')
  end.

(** Modelled from the spec: record creation belongs to the persistence
    collaborator; a created storage record becomes a new row. *)
Definition create_storage (db : Database) (s : SStorage.t) : Database :=
  {| storages := storages db ++ [s]; storagecaches := storagecaches db |}.

End Models.

(** ** pkg/compute/storagedrivers/iscsi.go *)

Module SIscsiStorageDriver.

Import Api Models.

(** A Go [error] built by fmt.Errorf is represented by its message;
    [None] is the nil error. *)
Notation "'check' e 'fails_with' x '=>' r ';' k" :=
  (match e with Some x => r | None => k end)
  (at level 10, e at level 9, x name, r at level 9, k at level 200,
   format "'[v' 'check'  e  'fails_with'  x  '=>'  r ';' '/' k ']'").

(** `^iqn\.\d{4}-\d{2}\.([a-zA-Z0-9\-\.]+):([a-zA-Z0-9\-\._:]+)$` *)
Definition authority_char (c : ascii) : bool :=
  GoString.is_alnum c || Ascii.eqb c "-" || Ascii.eqb c ".".

Definition name_char (c : ascii) : bool :=
  GoString.is_alnum c || Ascii.eqb c "-" || Ascii.eqb c "." || Ascii.eqb c "_"
  || Ascii.eqb c ":".

Definition iqnPattern : Regexp.re :=
  Regexp.Cat (Regexp.Text "iqn")
 (Regexp.Cat (Regexp.Byte ".")
 (Regexp.Cat (Regexp.Repeat 4 (Regexp.Class GoString.is_digit))
 (Regexp.Cat (Regexp.Byte "-")
 (Regexp.Cat (Regexp.Repeat 2 (Regexp.Class GoString.is_digit))
 (Regexp.Cat (Regexp.Byte ".")
 (Regexp.Cat (Regexp.Plus (Regexp.Class authority_char))
 (Regexp.Cat (Regexp.Byte ":")
             (Regexp.Plus (Regexp.Class name_char))))))))).

(** validateIQN validates iSCSI Qualified Name according to RFC 3720.
    The pattern is a constant that compiles, so regexp.MatchString never
    takes its error branch. *)
Definition validateIQN (iqn : string) : option string :=
  if GoString.len iqn =? 0 then Some "IQN cannot be empty"
  else if negb (Regexp.MatchAnchored iqnPattern iqn)
  then Some "IQN format must be 'iqn.yyyy-mm.naming-authority:unique-name'"
  else if GoString.len iqn >? 223 then Some "IQN length cannot exceed 223 characters"
  else None.

Definition validateTargetAddress (net : Net.Network) (target : string) : option string :=
  if GoString.len target =? 0 then Some "target address cannot be empty"
  else if negb (Net.ParseIP net target) then Some "invalid IP address format"
  else None.

Definition validatePortalAddress (net : Net.Network) (portal : string) : option string :=
  if GoString.len portal =? 0 then Some "portal address cannot be empty"
  else
    match Net.SplitHostPort portal with
    | Err err => Some ("invalid portal format, expected 'IP:port': " +:+ err)
    | Ok (host, portStr) =>
        if negb (Net.ParseIP net host) then Some "invalid IP address in portal"
        else
          match Strconv.Atoi portStr with
          | Err err => Some ("invalid port number: " +:+ err)
          | Ok port =>
              if (port <? 1) || (port >? 65535)
              then Some "port number must be between 1 and 65535"
              else None
          end
    end.

Definition validateAuthParams (username password : string) : option string :=
  if (GoString.len username >? 0) && (GoString.len password =? 0)
  then Some "password is required when username is provided"
  else if (GoString.len password >? 0) && (GoString.len username =? 0)
  then Some "username is required when password is provided"
  else
  check (if GoString.len username >? 0 then
           if GoString.len username >? 255
           then Some "username length cannot exceed 255 characters"
           else if GoString.ContainsAny username
                     (String " " (String "009" (String "010" (String "013" ""))))
           then Some "username cannot contain whitespace characters"
           else None
         else None) fails_with err => (Some err);
  check (if GoString.len password >? 0 then
           if GoString.len password >? 255
           then Some "password length cannot exceed 255 characters"
           else None
         else None) fails_with err => (Some err);
  None.

(** The four fields compared by the duplicate check, as read back from a
    stored configuration. *)
Definition stored_identity (s : SStorage.t) : string * string * string * Z :=
  (Jsonutils.GetString (SStorage.StorageConf s) "target",
   Jsonutils.GetString (SStorage.StorageConf s) "iqn",
   Jsonutils.GetString (SStorage.StorageConf s) "portal",
   Jsonutils.Int (SStorage.StorageConf s) "lun_id").

Definition duplicate_message (target iqn portal : string) (lunId : Z) : string :=
  "iSCSI storage with target=" +:+ target +:+ ", iqn=" +:+ iqn +:+ ", portal=" +:+ portal
  +:+ ", lun_id=" +:+ Strconv.Itoa lunId +:+ " already exists".

(** the for loop of checkDuplicateStorage *)
Fixpoint checkDuplicateStorage_scan (input : StorageCreateInput.t)
    (storages : list SStorage.t) : option Httperrors.t :=
  match storages with
  | [] => None
  | s :: rest =>
      let target := Jsonutils.GetString (SStorage.StorageConf s) "target" in
      let iqn := Jsonutils.GetString (SStorage.StorageConf s) "iqn" in
      let portal := Jsonutils.GetString (SStorage.StorageConf s) "portal" in
      let lunId := Jsonutils.Int (SStorage.StorageConf s) "lun_id" in
      if String.eqb (StorageCreateInput.IscsiTarget input) target
         && String.eqb (StorageCreateInput.IscsiIqn input) iqn
         && String.eqb (StorageCreateInput.IscsiPortal input) portal
         && (StorageCreateInput.IscsiLunId input =? lunId)
      then Some (Httperrors.DuplicateResourceError (duplicate_message target iqn portal lunId))
      else checkDuplicateStorage_scan input rest
  end.

Definition checkDuplicateStorage (p : Persistence) (db : Database)
    (input : StorageCreateInput.t) : option Httperrors.t :=
  match FetchModelObjects p db with
  | Err err => Some (Httperrors.GeneralError err)
  | Ok storages => checkDuplicateStorage_scan input storages
  end.

(** the reachability probe shared by creation and update: split the portal,
    parse the port, dial host:port *)
Definition dial_portal (net : Net.Network) (portal : string) : option string :=
  match Net.SplitHostPort portal with
  | Err err => Some ("failed to parse portal address: " +:+ err)
  | Ok (host, portStr) =>
      match Strconv.Atoi portStr with
      | Err err => Some ("invalid port in portal: " +:+ err)
      | Ok port =>
          match Net.DialTimeout net (Net.JoinHostPort host (Strconv.Itoa port)) with
          | Some err => Some ("failed to connect to iSCSI portal " +:+ portal +:+ ": " +:+ err)
          | None => None
          end
      end
  end.

Definition testIscsiConnection (net : Net.Network) (input : StorageCreateInput.t)
    : option string :=
  dial_portal net (StorageCreateInput.IscsiPortal input).

(** The input is a pointer in the source: the function returns the input as
    the caller sees it afterwards, together with the error. *)
Definition ValidateCreateData (net : Net.Network) (p : Persistence) (db : Database)
    (input : StorageCreateInput.t) : StorageCreateInput.t * option Httperrors.t :=
  let input := StorageCreateInput.set_StorageConf input Jsonutils.NewDict in
  if GoString.len (StorageCreateInput.IscsiTarget input) =? 0
  then (input, Some (Httperrors.MissingParameterError "iscsi_target")) else
  check (validateTargetAddress net (StorageCreateInput.IscsiTarget input)) fails_with err =>
    (input, Some (Httperrors.InputParameterError ("invalid iscsi_target: " +:+ err)));
  if GoString.len (StorageCreateInput.IscsiIqn input) =? 0
  then (input, Some (Httperrors.MissingParameterError "iscsi_iqn")) else
  check (validateIQN (StorageCreateInput.IscsiIqn input)) fails_with err =>
    (input, Some (Httperrors.InputParameterError ("invalid iscsi_iqn: " +:+ err)));
  if GoString.len (StorageCreateInput.IscsiPortal input) =? 0
  then (input, Some (Httperrors.MissingParameterError "iscsi_portal")) else
  check (validatePortalAddress net (StorageCreateInput.IscsiPortal input)) fails_with err =>
    (input, Some (Httperrors.InputParameterError ("invalid iscsi_portal: " +:+ err)));
  check (validateAuthParams (StorageCreateInput.IscsiUsername input)
                            (StorageCreateInput.IscsiPassword input)) fails_with err =>
    (input, Some (Httperrors.InputParameterError
                    ("invalid authentication parameters: " +:+ err)));
  let input :=
    if StorageCreateInput.IscsiLunId input <? 0
    then StorageCreateInput.set_IscsiLunId input 0 else input in
  check (checkDuplicateStorage p db input) fails_with err => (input, Some err);
  check (testIscsiConnection net input) fails_with err =>
    (input, Some (Httperrors.BadRequestError ("iSCSI connection test failed: " +:+ err)));
  let iscsiConf :=
    {| IscsiStorageConf.Target := GoString.TrimSpace (StorageCreateInput.IscsiTarget input);
       IscsiStorageConf.Iqn := GoString.TrimSpace (StorageCreateInput.IscsiIqn input);
       IscsiStorageConf.Portal := GoString.TrimSpace (StorageCreateInput.IscsiPortal input);
       IscsiStorageConf.Username := GoString.TrimSpace (StorageCreateInput.IscsiUsername input);
       IscsiStorageConf.Password := GoString.TrimSpace (StorageCreateInput.IscsiPassword input);
       IscsiStorageConf.LunId := StorageCreateInput.IscsiLunId input |} in
  (StorageCreateInput.set_StorageConf input
     (Jsonutils.Update (StorageCreateInput.StorageConf input)
                       (IscsiStorageConf.Marshal iscsiConf)),
   None).

(** the sibling loop of PostCreate: the first fetched storage, other than
    [storage] itself, with the same (target, iqn, portal) and a cache *)
Fixpoint PostCreate_sibling (storage : SStorage.t) (storages : list SStorage.t)
    : option SStorage.t :=
  match storages with
  | [] => None
  | s :: rest =>
      if String.eqb (SStorage.Id s) (SStorage.Id storage)
      then PostCreate_sibling storage rest
      else
        let currentTarget := Jsonutils.GetString (SStorage.StorageConf storage) "target" in
        let currentIqn := Jsonutils.GetString (SStorage.StorageConf storage) "iqn" in
        let currentPortal := Jsonutils.GetString (SStorage.StorageConf storage) "portal" in
        let existingTarget := Jsonutils.GetString (SStorage.StorageConf s) "target" in
        let existingIqn := Jsonutils.GetString (SStorage.StorageConf s) "iqn" in
        let existingPortal := Jsonutils.GetString (SStorage.StorageConf s) "portal" in
        if String.eqb currentTarget existingTarget
           && String.eqb currentIqn existingIqn
           && String.eqb currentPortal existingPortal
           && (GoString.len (SStorage.StoragecacheId s) >? 0)
        then Some s
        else PostCreate_sibling storage rest
  end.

(** PostCreate returns nothing and only logs its failures: the result is
    the database and the storage record as they are afterwards.
    [DefaultImageCacheDir] is options.Options.DefaultImageCacheDir. *)
Definition PostCreate (p : Persistence) (DefaultImageCacheDir : string)
    (db : Database) (storage : SStorage.t) : Database * SStorage.t :=
  if GoString.len (SStorage.StoragecacheId storage) >? 0 then
    let '(db', storage', _) :=
      Update p db storage (fun s => SStorage.set_Status s STORAGE_ONLINE) in
    (db', storage')
  else
    match FetchModelObjects p db with
    | Err _ => (db, storage)
    | Ok storages =>
        match PostCreate_sibling storage storages with
        | Some sibling =>
            let '(db', storage', _) :=
              Update p db storage (fun s =>
                SStorage.set_Status
                  (SStorage.set_StoragecacheId s (SStorage.StoragecacheId sibling))
                  STORAGE_ONLINE) in
            (db', storage')
        | None =>
            let sc :=
              {| SStoragecache.Id := "";
                 SStoragecache.Name := "iscsi-cache-" +:+ SStorage.Id storage;
                 SStoragecache.Path := DefaultImageCacheDir;
                 SStoragecache.ExternalId := SStorage.Id storage |} in
            match Insert p db sc with
            | Err _ => (db, storage)
            | Ok (db1, sc') =>
                let '(db', storage', _) :=
                  Update p db1 storage (fun s =>
                    SStorage.set_Status
                      (SStorage.set_StoragecacheId s (SStoragecache.Id sc'))
                      STORAGE_ONLINE) in
                (db', storage')
            end
        end
    end.

(** The store of configuration dictionaries that update inputs point into.
    A pointer without an entry is nil: using it panics, which the functions
    below report as [None]. *)
Abbreviation Store := (gmap nat Jsonutils.JSONDict).

Definition testIscsiConnectionUpdate (net : Net.Network) (h : Store)
    (input : StorageUpdateInput.t) : option (option string) :=
  conf ← h !! StorageUpdateInput.StorageConf input;
  let target := Jsonutils.GetString conf "target" in
  let iqn := Jsonutils.GetString conf "iqn" in
  let portal := Jsonutils.GetString conf "portal" in
  if (GoString.len target =? 0) || (GoString.len iqn =? 0) || (GoString.len portal =? 0)
  then Some (Some "missing required iSCSI configuration parameters")
  else Some (dial_portal net portal).

(** input.StorageConf.Set(key, jsonutils.NewString(v)) through the pointer *)
Definition store_set (h : Store) (ptr : nat) (key v : string) : option Store :=
  conf ← h !! ptr;
  Some (<[ptr := Jsonutils.Set_ conf key (Jsonutils.JSONString v)]> h).

(** [base] is SBaseStorageDriver.ValidateUpdateData, which the driver
    inherits from pkg/compute/storagedrivers/base.go. *)
Definition ValidateUpdateData
    (base : Store → StorageUpdateInput.t → Store * StorageUpdateInput.t * option Httperrors.t)
    (net : Net.Network) (h : Store) (input : StorageUpdateInput.t)
    : option (Store * StorageUpdateInput.t * option Httperrors.t) :=
  if (GoString.len (StorageUpdateInput.IscsiUsername input) >? 0)
     || (GoString.len (StorageUpdateInput.IscsiPassword input) >? 0)
  then
    check (validateAuthParams (StorageUpdateInput.IscsiUsername input)
                              (StorageUpdateInput.IscsiPassword input)) fails_with err =>
      (Some (h, input, Some (Httperrors.InputParameterError
                               ("invalid authentication parameters: " +:+ err))));
    '(h, input) ←
      (if GoString.len (StorageUpdateInput.IscsiUsername input) >? 0 then
         h' ← store_set h (StorageUpdateInput.StorageConf input) "username"
                (GoString.TrimSpace (StorageUpdateInput.IscsiUsername input));
         Some (h', StorageUpdateInput.set_UpdateStorageConf input true)
       else Some (h, input));
    '(h, input) ←
      (if GoString.len (StorageUpdateInput.IscsiPassword input) >? 0 then
         h' ← store_set h (StorageUpdateInput.StorageConf input) "password"
                (GoString.TrimSpace (StorageUpdateInput.IscsiPassword input));
         Some (h', StorageUpdateInput.set_UpdateStorageConf input true)
       else Some (h, input));
    probe ← testIscsiConnectionUpdate net h input;
    check probe fails_with err =>
      (Some (h, input, Some (Httperrors.BadRequestError
               ("iSCSI connection test failed with updated configuration: " +:+ err))));
    Some (base h input)
  else Some (base h input).

End SIscsiStorageDriver.

(** ** pkg/hostman/storageman/storage_iscsi.go *)

(** yunion.io/x/pkg/errors: an error is a message or wraps a cause *)
Module Errors.

Inductive t : Type :=
| Errorf (msg : string)
| Wrapf (cause : t) (msg : string).


End Errors.

Module Storageman.

(** The conf argument of SetStorageInfo is a jsonutils.JSONObject: nil, a
    dictionary, or some other JSON value. *)
Inductive JSONObject : Type :=
| JDict (d : Jsonutils.JSONDict)
| JValue (v : Jsonutils.JSONValue).

Module SIscsiStorageConf.
Record t : Type := mk {
  Target : string;
  Iqn : string;
  Portal : string;
  Username : string;
  Password : string;
  LunId : Z;
}.
Definition zero : t := mk "" "" "" "" "" 0.
End SIscsiStorageConf.

(** SIscsiStorage, with the fields of the embedded SBaseStorage that
    SetStorageInfo assigns; the mutex is not part of the sequential model. *)
Module SIscsiStorage.
Record t : Type := mk {
  StorageId : string;
  StorageName : string;
  StorageConf : option Jsonutils.JSONDict;
  conf : SIscsiStorageConf.t;
  devicePath : string;
  isConnected : bool;
}.
Definition set_info (s : t) (id name : string) : t :=
  mk id name (StorageConf s) (conf s) (devicePath s) (isConnected s).
Definition set_StorageConf (s : t) (d : Jsonutils.JSONDict) : t :=
  mk (StorageId s) (StorageName s) (Some d) (conf s) (devicePath s) (isConnected s).
Definition set_conf (s : t) (c : SIscsiStorageConf.t) : t :=
  mk (StorageId s) (StorageName s) (StorageConf s) c (devicePath s) (isConnected s).
Definition set_connection (s : t) (path : string) (connected : bool) : t :=
  mk (StorageId s) (StorageName s) (StorageConf s) (conf s) path connected.
Definition Target (s : t) := SIscsiStorageConf.Target (conf s).
Definition Iqn (s : t) := SIscsiStorageConf.Iqn (conf s).
Definition Portal (s : t) := SIscsiStorageConf.Portal (conf s).
Definition Username (s : t) := SIscsiStorageConf.Username (conf s).
Definition Password (s : t) := SIscsiStorageConf.Password (conf s).
Definition LunId (s : t) := SIscsiStorageConf.LunId (conf s).
End SIscsiStorage.

Import SIscsiStorage.

(** NewIscsiStorage: every field at its zero value *)
Definition NewIscsiStorage : SIscsiStorage.t :=
  SIscsiStorage.mk "" "" None SIscsiStorageConf.zero "" false.

(** [Unmarshal] is jsonutils' conf.Unmarshal(&s.SIscsiStorageConf): it
    fills the structure in place, possibly in part, and may fail. *)
Definition SetStorageInfo
    (Unmarshal : JSONObject → SIscsiStorageConf.t → SIscsiStorageConf.t * option Errors.t)
    (s : SIscsiStorage.t) (storageId storageName : string) (conf : option JSONObject)
    : SIscsiStorage.t * option Errors.t :=
  let s := set_info s storageId storageName in
  match conf with
  | Some c =>
      let s := match c with
               | JDict dconf => set_StorageConf s dconf
               | JValue _ => s
               end in
      let '(filled, err) := Unmarshal c (SIscsiStorage.conf s) in
      let s := set_conf s filled in
      match err with
      | Some err => (s, Some (Errors.Wrapf err "unmarshal iSCSI storage config"))
      | None => (s, None)
      end
  | None => (s, None)
  end.

(** What the host offers to the storage: running a command and collecting
    its output (procutils), listing a directory and resolving a symlink
    (os, filepath), reading the clock and sleeping (time, in nanoseconds).
    [W] is the state of the world outside the process. *)
Record HostOps (W : Type) : Type := {
  Output : W → string → list string → W * (string * option Errors.t);
  ReadDir : W → string → W * (list string + Errors.t);
  EvalSymlinks : W → string → W * (string + Errors.t);
  Now : W → Z;
  Sleep : W → Z → W;
}.
Arguments Output {W}.
Arguments ReadDir {W}.
Arguments EvalSymlinks {W}.
Arguments Now {W}.
Arguments Sleep {W}.

(** A run threads the outside world and the list of commands issued so
    far, oldest first. *)
Record Run (W : Type) : Type := mkRun {
  world : W;
  issued : list (string * list string);
}.
Arguments mkRun {W}.
Arguments world {W}.
Arguments issued {W}.

Definition M (W A : Type) : Type := Run W → A * Run W.

Definition ret {W A} (a : A) : M W A := fun r => (a, r).

Definition bind {W A B} (m : M W A) (k : A → M W B) : M W B :=
  fun r => let '(a, r') := m r in k a r'.

Notation "x <~ m ;; k" := (bind m (fun x => k))
  (at level 100, m at level 60, right associativity).

Definition Second : Z := 1000000000.

Section Host.

Context {W : Type} (ops : HostOps W).

(** procutils.NewCommand(name, args...).Output() *)
Definition run_command (name : string) (args : list string)
    : M W (string * option Errors.t) :=
  fun r =>
    let '(w', out) := Output ops (world r) name args in
    (out, mkRun w' (issued r ++ [(name, args)])).

Definition read_dir (dir : string) : M W (list string + Errors.t) :=
  fun r => let '(w', res) := ReadDir ops (world r) dir in (res, mkRun w' (issued r)).

Definition eval_symlinks (path : string) : M W (string + Errors.t) :=
  fun r => let '(w', res) := EvalSymlinks ops (world r) path in (res, mkRun w' (issued r)).

Definition time_now : M W Z := fun r => (Now ops (world r), r).

Definition time_sleep (d : Z) : M W unit :=
  fun r => (tt, mkRun (Sleep ops (world r) d) (issued r)).

Definition has_credentials (s : SIscsiStorage.t) : bool :=
  negb (String.eqb (Username s) "") && negb (String.eqb (Password s) "").

Definition discovery_args (s : SIscsiStorage.t) : list string :=
  ["-m"; "discovery"; "-t"; "sendtargets"; "-p"; Portal s]
  ++ (if has_credentials s
      then ["--username"; Username s; "--password"; Password s] else []).

Definition discoverTarget (s : SIscsiStorage.t) : M W (option Errors.t) :=
  out <~ run_command "iscsiadm" (discovery_args s) ;;
  match out with
  | (output, Some err) =>
      ret (Some (Errors.Wrapf err ("iscsiadm discovery failed: " +:+ output)))
  | (output, None) =>
      if negb (GoString.Contains output (Iqn s))
      then ret (Some (Errors.Errorf
                        ("target IQN " +:+ Iqn s +:+ " not found in discovery results")))
      else ret None
  end.

Definition setNodeParam (s : SIscsiStorage.t) (param value : string)
    : M W (option Errors.t) :=
  out <~ run_command "iscsiadm"
           ["-m"; "node"; "-T"; Iqn s; "-p"; Portal s; "-o"; "update";
            "-n"; param; "-v"; value] ;;
  match out with
  | (output, Some err) =>
      ret (Some (Errors.Wrapf err
                   ("failed to set node parameter " +:+ param +:+ ": " +:+ output)))
  | (_, None) => ret None
  end.

Definition setAuthParams (s : SIscsiStorage.t) : M W (option Errors.t) :=
  e <~ setNodeParam s "node.session.auth.authmethod" "CHAP" ;;
  match e with
  | Some err => ret (Some err)
  | None =>
      e <~ setNodeParam s "node.session.auth.username" (Username s) ;;
      match e with
      | Some err => ret (Some err)
      | None =>
          e <~ setNodeParam s "node.session.auth.password" (Password s) ;;
          match e with
          | Some err => ret (Some err)
          | None => ret None
          end
      end
  end.

Definition login_args (s : SIscsiStorage.t) : list string :=
  ["-m"; "node"; "-T"; Iqn s; "-p"; Portal s; "--login"].

Definition logout_args (s : SIscsiStorage.t) : list string :=
  ["-m"; "node"; "-T"; Iqn s; "-p"; Portal s; "--logout"].

Definition login_command (s : SIscsiStorage.t) : M W (option Errors.t) :=
  out <~ run_command "iscsiadm" (login_args s) ;;
  match out with
  | (output, Some err) =>
      if GoString.Contains output "already exists" then ret None
      else ret (Some (Errors.Wrapf err ("iscsiadm login failed: " +:+ output)))
  | (_, None) => ret None
  end.

Definition loginTarget (s : SIscsiStorage.t) : M W (option Errors.t) :=
  if has_credentials s then
    e <~ setAuthParams s ;;
    match e with
    | Some err => ret (Some (Errors.Wrapf err "set authentication parameters"))
    | None => login_command s
    end
  else login_command s.

Definition logoutTarget (s : SIscsiStorage.t) : M W (option Errors.t) :=
  out <~ run_command "iscsiadm" (logout_args s) ;;
  match out with
  | (output, Some err) =>
      if GoString.Contains output "not found" then ret None
      else ret (Some (Errors.Wrapf err ("iscsiadm logout failed: " +:+ output)))
  | (_, None) => ret None
  end.

Definition cleanupDiscovery (s : SIscsiStorage.t) : M W (option Errors.t) :=
  out <~ run_command "iscsiadm"
           ["-m"; "node"; "-T"; Iqn s; "-p"; Portal s; "-o"; "delete"] ;;
  match out with
  | (output, Some err) =>
      if GoString.Contains output "not found" then ret None
      else ret (Some (Errors.Wrapf err ("cleanup discovery failed: " +:+ output)))
  | (_, None) => ret None
  end.

Definition byPathDir : string := "/dev/disk/by-path".

(** fmt.Sprintf("ip-%s.*-iscsi-%s-lun-%d", regexp.QuoteMeta(targetIP),
    regexp.QuoteMeta(s.Iqn), s.LunId) *)
Definition device_pattern_text (targetIP iqn : string) (lunId : Z) : string :=
  "ip-" +:+ Regexp.QuoteMeta targetIP +:+ ".*-iscsi-" +:+ Regexp.QuoteMeta iqn
  +:+ "-lun-" +:+ Strconv.Itoa lunId.

(** What that text compiles to: the quoted texts match literally, [.*]
    any text without line feed. *)
Definition device_pattern (targetIP iqn : string) (lunId : Z) : Regexp.re :=
  Regexp.Cat (Regexp.Text ("ip-" +:+ targetIP))
 (Regexp.Cat (Regexp.Star Regexp.Dot)
             (Regexp.Text ("-iscsi-" +:+ iqn +:+ "-lun-" +:+ Strconv.Itoa lunId))).

(** regexp.Compile on the pattern text. Quoting leaves nothing the parser
    could refuse but bytes that are not valid UTF-8: it stops at the first
    such byte, and the error quotes the text from there. The parser also
    gives up on expressions of some million characters, which the model
    leaves out. A name is matched on its bytes, which on a name that is
    valid UTF-8 is what matching its characters gives. *)
Definition compile_device_pattern (targetIP iqn : string) (lunId : Z)
    : Regexp.re + Errors.t :=
  match Utf8.invalid_rest (GoString.bytes (device_pattern_text targetIP iqn lunId)) with
  | Some rest =>
      inr (Errors.Errorf ("error parsing regexp: invalid UTF-8: `"
                          +:+ string_of_list_ascii rest +:+ "`"))
  | None => inl (device_pattern targetIP iqn lunId)
  end.

(** the loop over the directory entries in findDevicePath *)
Fixpoint findDevicePath_scan (regex : Regexp.re) (entries : list string)
    : M W (option string) :=
  match entries with
  | [] => ret None
  | name :: rest =>
      if Regexp.MatchString regex name then
        res <~ eval_symlinks (byPathDir +:+ "/" +:+ name) ;;
        match res with
        | inr _ => findDevicePath_scan regex rest
        | inl realPath => ret (Some realPath)
        end
      else findDevicePath_scan regex rest
  end.

Definition device_not_found (s : SIscsiStorage.t) : Errors.t :=
  Errors.Errorf ("device not found for target " +:+ Iqn s +:+ " lun "
                 +:+ Strconv.Itoa (LunId s)).

Definition findDevicePath (s : SIscsiStorage.t) : M W (string + Errors.t) :=
  listing <~ read_dir byPathDir ;;
  match listing with
  | inr err => ret (inr (Errors.Wrapf err ("read " +:+ byPathDir)))
  | inl entries =>
      let targetIP := GoString.before_first ":" (Portal s) in
      match compile_device_pattern targetIP (Iqn s) (LunId s) with
      | inr err => ret (inr (Errors.Wrapf err "compile device path pattern"))
      | inl regex =>
          found <~ findDevicePath_scan regex entries ;;
          match found with
          | Some realPath => ret (inl realPath)
          | None => ret (inr (device_not_found s))
          end
      end
  end.

Definition wait_timeout : Errors.t :=
  Errors.Errorf "timeout waiting for iSCSI device to appear".

(** the polling loop of waitForDevice; [fuel] bounds the number of times
    the loop condition is evaluated, [None] reports that it ran out *)
Fixpoint waitForDevice_loop (fuel : nat) (s : SIscsiStorage.t) (deadline : Z)
    : M W (option (string + Errors.t)) :=
  match fuel with
  | O => ret None
  | S fuel' =>
      now <~ time_now ;;
      if now <? deadline then
        res <~ findDevicePath s ;;
        match res with
        | inl devicePath =>
            if negb (String.eqb devicePath "") then ret (Some (inl devicePath))
            else (_ <~ time_sleep (1 * Second) ;; waitForDevice_loop fuel' s deadline)
        | inr _ => _ <~ time_sleep (1 * Second) ;; waitForDevice_loop fuel' s deadline
        end
      else ret (Some (inr wait_timeout))
  end.

Definition waitForDevice (fuel : nat) (s : SIscsiStorage.t)
    : M W (option (string + Errors.t)) :=
  start <~ time_now ;;
  waitForDevice_loop fuel s (start + 30 * Second).

(** MountStorage and UnmountStorage return the storage as it is afterwards
    and the error. *)
Definition MountStorage (fuel : nat) (s : SIscsiStorage.t)
    : M W (option (SIscsiStorage.t * option Errors.t)) :=
  if isConnected s then ret (Some (s, None))
  else
    e <~ discoverTarget s ;;
    match e with
    | Some err => ret (Some (s, Some (Errors.Wrapf err "discover iSCSI target")))
    | None =>
        e <~ loginTarget s ;;
        match e with
        | Some err => ret (Some (s, Some (Errors.Wrapf err "login to iSCSI target")))
        | None =>
            waited <~ waitForDevice fuel s ;;
            match waited with
            | None => ret None
            | Some (inr err) =>
                _ <~ logoutTarget s ;;
                ret (Some (s, Some (Errors.Wrapf err "wait for iSCSI device")))
            | Some (inl devicePath) =>
                ret (Some (set_connection s devicePath true, None))
            end
        end
    end.

Definition UnmountStorage (s : SIscsiStorage.t)
    : M W (SIscsiStorage.t * option Errors.t) :=
  if negb (isConnected s) then ret (s, None)
  else
    _ <~ logoutTarget s ;;
    _ <~ cleanupDiscovery s ;;
    ret (set_connection s "" false, None).

End Host.

End Storageman.

(** ** Predicates used to state the properties *)

Module IqnFormat.

Import GoString SIscsiStorageDriver.

(** iqn.<4-digit year>-<2-digit month>.<authority>:<name>, the authority
    over letters, digits, [-] and [.], the name over these and [_] and [:] *)
Definition well_formed (iqn : string) : Prop :=
  ∃ year month authority name : string,
    iqn = "iqn." +:+ year +:+ "-" +:+ month +:+ "." +:+ authority +:+ ":" +:+ name
    ∧ String.length year = 4%nat ∧ all_bytes is_digit year = true
    ∧ String.length month = 2%nat ∧ all_bytes is_digit month = true
    ∧ authority ≠ "" ∧ all_bytes authority_char authority = true
    ∧ name ≠ "" ∧ all_bytes name_char name = true.

End IqnFormat.

Module CreateChecks.

Import GoString Api SIscsiStorageDriver.

(** the checks of ValidateCreateData that precede the duplicate check *)
Definition passes_field_validation (net : Net.Network) (input : StorageCreateInput.t)
    : Prop :=
  StorageCreateInput.IscsiTarget input ≠ ""
  ∧ validateTargetAddress net (StorageCreateInput.IscsiTarget input) = None
  ∧ StorageCreateInput.IscsiIqn input ≠ ""
  ∧ validateIQN (StorageCreateInput.IscsiIqn input) = None
  ∧ StorageCreateInput.IscsiPortal input ≠ ""
  ∧ validatePortalAddress net (StorageCreateInput.IscsiPortal input) = None
  ∧ validateAuthParams (StorageCreateInput.IscsiUsername input)
                       (StorageCreateInput.IscsiPassword input) = None.

(** the connection identity of a creation input *)
Definition input_identity (input : StorageCreateInput.t) : string * string * string * Z :=
  (StorageCreateInput.IscsiTarget input, StorageCreateInput.IscsiIqn input,
   StorageCreateInput.IscsiPortal input, StorageCreateInput.IscsiLunId input).

(** the input handed to the duplicate check: lunId after defaulting *)
Definition defaulted (input : StorageCreateInput.t) : StorageCreateInput.t :=
  StorageCreateInput.set_IscsiLunId
    (StorageCreateInput.set_StorageConf input Jsonutils.NewDict)
    (Z.max 0 (StorageCreateInput.IscsiLunId input)).

Definition stored (input : StorageCreateInput.t) : Jsonutils.JSONDict :=
  IscsiStorageConf.Marshal
    {| IscsiStorageConf.Target := TrimSpace (StorageCreateInput.IscsiTarget input);
       IscsiStorageConf.Iqn := TrimSpace (StorageCreateInput.IscsiIqn input);
       IscsiStorageConf.Portal := TrimSpace (StorageCreateInput.IscsiPortal input);
       IscsiStorageConf.Username := TrimSpace (StorageCreateInput.IscsiUsername input);
       IscsiStorageConf.Password := TrimSpace (StorageCreateInput.IscsiPassword input);
       IscsiStorageConf.LunId := Z.max 0 (StorageCreateInput.IscsiLunId input) |}.

End CreateChecks.

(** ** A small installation used to run the model on concrete inputs *)

Module Lab.

Import GoString Api Models.

(** fields of a dotted text *)
Fixpoint fields (sep : ascii) (cur : string) (s : string) : list string :=
  match s with
  | EmptyString => [cur]
  | String c s' =>
      if Ascii.eqb c sep then cur :: fields sep "" s'
      else fields sep (cur +:+ String c "") s'
  end.

Definition octet (f : string) : bool :=
  match Strconv.digits_value 0 (bytes f) with
  | Some v =>
      (1 <=? len f) && (len f <=? 3) && (v <=? 255)
      && negb (has_prefix "0" f && (1 <? len f))
  | None => false
  end.

(** The network of the installation: ParseIP recognises dotted-decimal
    IPv4 literals, and only the portal 192.168.1.100:3260 answers. *)
Definition net : Net.Network :=
  {| Net.ParseIP := fun s =>
       match fields "." "" s with
       | [a; b; c; d] => octet a && octet b && octet c && octet d
       | _ => false
       end;
     Net.DialTimeout := fun addr =>
       if String.eqb addr "192.168.1.100:3260" then None
       else Some "connect: connection refused" |}.

Fixpoint zeros (n : nat) : string :=
  match n with
  | O => ""
  | S n' => String "0" (zeros n')
  end.

Definition longest (l : list SStoragecache.t) : nat :=
  foldr (fun c n => Nat.max (String.length (SStoragecache.Id c)) n) 0%nat l.

(** persistence without failures; a new cache identifier is longer than
    every identifier in the table *)
Definition persistence : Persistence :=
  {| fetch_error := None;
     insert_error := None;
     update_error := None;
     new_id := fun l => "sc-" +:+ zeros (longest l) |}.

Definition empty_db : Database := {| storages := []; storagecaches := [] |}.

Definition create_input (portal : string) (lunId : Z) : StorageCreateInput.t :=
  {| StorageCreateInput.IscsiTarget := "192.168.1.100";
     StorageCreateInput.IscsiIqn := "iqn.2023-01.com.example:storage.target01";
     StorageCreateInput.IscsiPortal := portal;
     StorageCreateInput.IscsiUsername := "";
     StorageCreateInput.IscsiPassword := "";
     StorageCreateInput.IscsiLunId := lunId;
     StorageCreateInput.StorageConf := ∅ |}.

Definition iscsi_conf (portal : string) (lunId : Z) : Jsonutils.JSONDict :=
  IscsiStorageConf.Marshal
    {| IscsiStorageConf.Target := "192.168.1.100";
       IscsiStorageConf.Iqn := "iqn.2023-01.com.example:storage.target01";
       IscsiStorageConf.Portal := portal;
       IscsiStorageConf.Username := "";
       IscsiStorageConf.Password := "";
       IscsiStorageConf.LunId := lunId |}.

(** a stored iSCSI storage record that has not been reconciled yet *)
Definition storage (id portal : string) (lunId : Z) : SStorage.t :=
  {| SStorage.Id := id;
     SStorage.Name := "storage-" +:+ id;
     SStorage.StorageType := STORAGE_ISCSI;
     SStorage.Status := "offline";
     SStorage.StoragecacheId := "";
     SStorage.StorageConf := iscsi_conf portal lunId |}.

Definition one_storage_db : Database :=
  {| storages := [storage "s1" "192.168.1.100:3260" 0]; storagecaches := [] |}.

End Lab.

Module UpdateFixture.

Import Api.

(** SBaseStorageDriver.ValidateUpdateData of the installation: it hands the
    input back unchanged, without error *)
Definition base (h : gmap nat Jsonutils.JSONDict) (input : StorageUpdateInput.t)
    : gmap nat Jsonutils.JSONDict * StorageUpdateInput.t * option Httperrors.t :=
  (h, input, None).

(** the stored configuration of a storage whose portal does not answer *)
Definition unreachable_conf : Jsonutils.JSONDict :=
  <["target" := Jsonutils.JSONString "192.168.1.100"]>
  (<["iqn" := Jsonutils.JSONString "iqn.2023-01.com.example:storage.target01"]>
  (<["portal" := Jsonutils.JSONString "192.168.1.100:3261"]> ∅)).

Definition reachable_conf : Jsonutils.JSONDict :=
  <["target" := Jsonutils.JSONString "192.168.1.100"]>
  (<["iqn" := Jsonutils.JSONString "iqn.2023-01.com.example:storage.target01"]>
  (<["portal" := Jsonutils.JSONString "192.168.1.100:3260"]> ∅)).

(** pointer 1 names the unreachable storage's dictionary, pointer 2 the
    reachable one's *)
Definition store : gmap nat Jsonutils.JSONDict :=
  <[1%nat := unreachable_conf]> (<[2%nat := reachable_conf]> ∅).

Definition new_credentials (ptr : nat) : StorageUpdateInput.t :=
  {| StorageUpdateInput.IscsiUsername := "newuser";
     StorageUpdateInput.IscsiPassword := "newpass";
     StorageUpdateInput.StorageConf := ptr;
     StorageUpdateInput.UpdateStorageConf := false |}.

(** credentials the checks refuse: a space in the username *)
Definition refused_credentials (ptr : nat) : StorageUpdateInput.t :=
  {| StorageUpdateInput.IscsiUsername := "new user";
     StorageUpdateInput.IscsiPassword := "newpass";
     StorageUpdateInput.StorageConf := ptr;
     StorageUpdateInput.UpdateStorageConf := false |}.

End UpdateFixture.

Module UpdateChecks.

Import GoString SIscsiStorageDriver.

(** the probe as it reads a configuration dictionary *)
Definition probe (net : Net.Network) (conf : Jsonutils.JSONDict) : option string :=
  if (len (Jsonutils.GetString conf "target") =? 0)
     || (len (Jsonutils.GetString conf "iqn") =? 0)
     || (len (Jsonutils.GetString conf "portal") =? 0)
  then Some "missing required iSCSI configuration parameters"
  else dial_portal net (Jsonutils.GetString conf "portal").

(** The credential path as the specification words it: the credentials are
    written, and the flag set, only once the probe has succeeded. *)
Definition ValidateUpdateData_as_specified
    (base : gmap nat Jsonutils.JSONDict → Api.StorageUpdateInput.t →
            gmap nat Jsonutils.JSONDict * Api.StorageUpdateInput.t * option Httperrors.t)
    (net : Net.Network) (h : gmap nat Jsonutils.JSONDict)
    (input : Api.StorageUpdateInput.t)
    : option (gmap nat Jsonutils.JSONDict * Api.StorageUpdateInput.t
              * option Httperrors.t) :=
  let username := Api.StorageUpdateInput.IscsiUsername input in
  let password := Api.StorageUpdateInput.IscsiPassword input in
  let ptr := Api.StorageUpdateInput.StorageConf input in
  if (len username >? 0) || (len password >? 0) then
    match validateAuthParams username password with
    | Some err =>
        Some (h, input, Some (Httperrors.InputParameterError
                                ("invalid authentication parameters: " +:+ err)))
    | None =>
        conf ← h !! ptr;
        match probe net conf with
        | Some err =>
            Some (h, input,
                  Some (Httperrors.BadRequestError
                          ("iSCSI connection test failed with updated configuration: "
                           +:+ err)))
        | None =>
            let conf' :=
              <["password" := Jsonutils.JSONString (TrimSpace password)]>
              (<["username" := Jsonutils.JSONString (TrimSpace username)]> conf) in
            Some (base (<[ptr := conf']> h)
                       (Api.StorageUpdateInput.set_UpdateStorageConf input true))
        end
    end
  else Some (base h input).

End UpdateChecks.

Module Resolver.

Import Storageman.

(** the portal text before its first colon *)
Definition host (s : SIscsiStorage.t) : string :=
  GoString.before_first ":" (SIscsiStorage.Portal s).










End Resolver.

Module HostLab.

Import Storageman.

Definition iqn : string := "iqn.2023-01.com.example:target01".

(** the rendering of conf.Unmarshal used on this host: a dictionary fills
    the text fields it holds and then lun_id, which must be an integer or
    the text of one; any other JSON value is refused *)
Definition text_or (d : Jsonutils.JSONDict) (key old : string) : string :=
  match d !! key with
  | Some _ => Jsonutils.GetString d key
  | None => old
  end.

Definition Unmarshal (c : JSONObject) (cf : SIscsiStorageConf.t)
    : SIscsiStorageConf.t * option Errors.t :=
  match c with
  | JValue _ => (cf, Some (Errors.Errorf "cannot unmarshal a JSON value into a struct"))
  | JDict d =>
      let fill (lunId : Z) :=
        {| SIscsiStorageConf.Target := text_or d "target" (SIscsiStorageConf.Target cf);
           SIscsiStorageConf.Iqn := text_or d "iqn" (SIscsiStorageConf.Iqn cf);
           SIscsiStorageConf.Portal := text_or d "portal" (SIscsiStorageConf.Portal cf);
           SIscsiStorageConf.Username := text_or d "username" (SIscsiStorageConf.Username cf);
           SIscsiStorageConf.Password := text_or d "password" (SIscsiStorageConf.Password cf);
           SIscsiStorageConf.LunId := lunId |} in
      match d !! "lun_id" with
      | Some (Jsonutils.JSONInt z) => (fill z, None)
      | Some (Jsonutils.JSONString t) =>
          match Strconv.Atoi t with
          | Ok z => (fill z, None)
          | Err e => (fill (SIscsiStorageConf.LunId cf), Some (Errors.Errorf e))
          end
      | None => (fill (SIscsiStorageConf.LunId cf), None)
      end
  end.

(** the configuration of LUN [lunId] of the target behind 192.168.1.100:3260 *)
Definition conf (lunId : Z) : Jsonutils.JSONDict :=
  <["target" := Jsonutils.JSONString "192.168.1.100"]>
  (<["iqn" := Jsonutils.JSONString iqn]>
  (<["portal" := Jsonutils.JSONString "192.168.1.100:3260"]>
  (<["lun_id" := Jsonutils.JSONInt lunId]> ∅))).

(** a storage created and configured for that LUN *)
Definition iscsi_storage (lunId : Z) : SIscsiStorage.t :=
  fst (SetStorageInfo Unmarshal NewIscsiStorage "test-storage-id" "test-storage"
         (Some (JDict (conf lunId)))).

(** the by-path name of LUN [n] of the target as seen through [port] *)
Definition lun_at (port n : string) : string :=
  "ip-192.168.1.100:" +:+ port +:+ "-iscsi-iqn.2023-01.com.example:target01-lun-" +:+ n.

Definition lun (n : string) : string := lun_at "3260" n.

(** A host whose state is its clock. Every command succeeds and prints the
    discovery record of the target; the by-path directory holds [listing]
    and symlinks resolve as [links] says; sleeping advances the clock. *)
Definition host (listing : list string + Errors.t) (links : string → string + Errors.t)
    : HostOps Z :=
  {| Output := fun w _ _ => (w, ("192.168.1.100:3260,1 " +:+ iqn, None));
     ReadDir := fun w _ => (w, listing);
     EvalSymlinks := fun w path => (w, links path);
     Now := fun w => w;
     Sleep := fun w d => w + d |}.

Definition start : Run Z := mkRun 0 [].



Definition links_lun0 (path : string) : string + Errors.t :=
  if String.eqb path (byPathDir +:+ "/" +:+ lun "0") then inl "/dev/sdb"
  else inr (Errors.Errorf "lstat: no such file or directory").



(** a configuration whose lun_id is not a number *)
Definition bad_conf : Jsonutils.JSONDict :=
  <["target" := Jsonutils.JSONString "192.168.1.100"]>
  (<["lun_id" := Jsonutils.JSONString "abc"]> ∅).

End HostLab.

Module Lifecycle.

Import Storageman.

(** runtime-state invariant: connected implies a resolved device path *)
Definition connected_has_path (s : SIscsiStorage.t) : Prop :=
  SIscsiStorage.isConnected s = true → SIscsiStorage.devicePath s ≠ "".

(** the clock never runs backwards and a sleep lasts at least as long as
    asked *)
Definition sane_clock {W : Type} (ops : HostOps W) : Prop :=
  (∀ w d, Now ops w + d ≤ Now ops (Sleep ops w d))
  ∧ (∀ w name args, Now ops w ≤ Now ops (fst (Output ops w name args)))
  ∧ (∀ w dir, Now ops w ≤ Now ops (fst (ReadDir ops w dir)))
  ∧ (∀ w path, Now ops w ≤ Now ops (fst (EvalSymlinks ops w path))).


End Lifecycle.

Module Reconcile.

Import Api Models.

(** the fields PostCreate compares between storage records *)
Definition cache_identity (s : SStorage.t) : string * string * string :=
  (Jsonutils.GetString (SStorage.StorageConf s) "target",
   Jsonutils.GetString (SStorage.StorageConf s) "iqn",
   Jsonutils.GetString (SStorage.StorageConf s) "portal").

(** whether the sibling loop takes a fetched record *)
Definition candidate (storage x : SStorage.t) : Prop :=
  SStorage.Id x ≠ SStorage.Id storage
  ∧ cache_identity x = cache_identity storage
  ∧ SStorage.StoragecacheId x ≠ "".

Definition no_faults (p : Persistence) : Prop :=
  fetch_error p = None ∧ insert_error p = None ∧ update_error p = None.

(** identifiers handed out at insertion are non-empty and new *)
Definition fresh_ids (p : Persistence) : Prop :=
  ∀ l, new_id p l ≠ "" ∧ ∀ c, c ∈ l → SStoragecache.Id c ≠ new_id p l.

(** a record as it is right after creation: an iSCSI storage without a
    cache, whose identifier no row of the database carries *)
Definition just_created (db : Database) (s : SStorage.t) : Prop :=
  is_iscsi s = true
  ∧ SStorage.StoragecacheId s = ""
  ∧ ∀ x, x ∈ storages db → SStorage.Id x ≠ SStorage.Id s.

(** no stored iSCSI record with a cache has the identity of [s] *)
Definition no_cached_sibling (db : Database) (s : SStorage.t) : Prop :=
  ∀ x, x ∈ storages db → is_iscsi x = true →
       cache_identity x = cache_identity s → SStorage.StoragecacheId x = "".

(** the record with a cache attached and its status online *)
Definition reconciled (s : SStorage.t) (cache : string) : SStorage.t :=
  SStorage.set_Status (SStorage.set_StoragecacheId s cache) STORAGE_ONLINE.

(** the cache record PostCreate provisions for a storage *)
Definition cache_for (s : SStorage.t) (id dir : string) : SStoragecache.t :=
  {| SStoragecache.Id := id;
     SStoragecache.Name := "iscsi-cache-" +:+ SStorage.Id s;
     SStoragecache.Path := dir;
     SStoragecache.ExternalId := SStorage.Id s |}.

(** create the record, then reconcile it *)
Definition create_and_reconcile (p : Persistence) (dir : string)
    (db : Database) (s : SStorage.t) : Database * SStorage.t :=
  SIscsiStorageDriver.PostCreate p dir (create_storage db s) s.

End Reconcile.

(** ** The rest of storage_iscsi.go: accessors, accessibility, device size, disks *)

Module StorageAccess.

Import Storageman SIscsiStorage.

(** GetDevicePath and IsConnected read the runtime state under the shared
    lock, which the sequential model leaves out. *)
Definition GetDevicePath (s : SIscsiStorage.t) : string := devicePath s.
Definition IsConnected (s : SIscsiStorage.t) : bool := isConnected s.

Section Host.

Context {W : Type} (ops : HostOps W).

(** What other goroutines do to the instance while a call does not hold
    connectionMu: their calls change the instance and the world. *)
Definition Others : Type := SIscsiStorage.t → M W SIscsiStorage.t.

(** no other goroutine touches the instance *)
Definition quiet : Others := fun s => ret s.

(** another goroutine runs UnmountStorage (or Detach) *)
Definition unmounts : Others :=
  fun s => res <~ UnmountStorage ops s ;; ret (fst res).

(** Accessible takes connectionMu three times, in IsConnected, in
    MountStorage and in GetDevicePath, and releases it in between:
    [others1] is what happens to the instance between the first and the
    second, [others2] between the second and the third. [Stat] is os.Stat
    on the host: its error, [None] when the file can be examined. *)
Definition Accessible (Stat : W → string → W * option Errors.t) (fuel : nat)
    (others1 others2 : Others) (s : SIscsiStorage.t)
    : M W (option (SIscsiStorage.t * option Errors.t)) :=
  let connected := IsConnected s in
  s <~ others1 s ;;
  mounted <~ (if negb connected then MountStorage ops fuel s
              else ret (Some (s, None))) ;;
  match mounted with
  | None => ret None
  | Some (s, Some err) => ret (Some (s, Some (Errors.Wrapf err "mount iSCSI storage")))
  | Some (s, None) =>
      s <~ others2 s ;;
      let devicePath := GetDevicePath s in
      if String.eqb devicePath "" then
        ret (Some (s, Some (Errors.Errorf "no device path available")))
      else
        fun r =>
          let '(w', e) := Stat (world r) devicePath in
          match e with
          | Some err =>
              (Some (s, Some (Errors.Wrapf err
                                ("device " +:+ devicePath +:+ " not accessible"))),
               mkRun w' (issued r))
          | None => (Some (s, None), mkRun w' (issued r))
          end
  end.


(** getDeviceSize gets the size of a block device in MB. On a 64-bit
    platform strconv.ParseInt(text, 10, 64) reads a text as strconv.Atoi
    does; Go's [/] on integers truncates towards zero. *)
Definition getDeviceSize (devicePath : string) : M W (Z * option Errors.t) :=
  out <~ run_command ops "blockdev" ["--getsize64"; devicePath] ;;
  match out with
  | (_, Some err) =>
      ret (0, Some (Errors.Wrapf err ("get device size for " +:+ devicePath)))
  | (output, None) =>
      match Strconv.Atoi (GoString.TrimSpace output) with
      | Err e => ret (0, Some (Errors.Wrapf (Errors.Errorf e) "parse device size"))
      | Ok sizeBytes => ret (Z.quot (Z.quot sizeBytes 1024) 1024, None)
      end
  end.

End Host.

End StorageAccess.

(** The disk list of the storage. Disks and DiskLock are fields of the
    embedded SBaseStorage; a disk is an IDisk, of which the code uses GetId
    and Probe; the lock is used through Lock and Unlock only. *)
Module DiskList.

Class IDisk (D : Type) : Type := {
  GetId : D → string;
  Probe : D → option Errors.t;
}.

(** A lock as seen by the goroutine that runs a call: [Lock] answers the
    state in which the goroutine holds the lock, or [None] when the call
    cannot return because the lock is not available to it. *)
Class Locker (L : Type) : Type := {
  Lock : L → option L;
  Unlock : L → L;
}.

(** sync.Mutex: free or held; locking a held mutex blocks *)
#[global] Instance Mutex : Locker bool := {
  Lock held := if held then None else Some true;
  Unlock _ := false;
}.

Record t (D L : Type) : Type := mk {
  Disks : list D;
  DiskLock : L;
}.
Arguments mk {D L}.
Arguments Disks {D L}.
Arguments DiskLock {D L}.

Definition ErrNotFound : Errors.t := Errors.Errorf "NotFoundError".

Section Disks.

Context {D L : Type} `{IDisk D} `{Locker L}.

(** [NewLocalDisk] builds the disk object for an id (NewLocalDisk(s, diskId)) *)
Variable NewLocalDisk : string → D.

Definition CreateDisk (s : t D L) (diskId : string) : option (t D L * D) :=
  held ← Lock (DiskLock s);
  let disk := NewLocalDisk diskId in
  Some (mk (Disks s ++ [disk]) (Unlock held), disk).

(** the loop of RemoveDisk: drop the first disk with the given id *)
Fixpoint remove_first (id : string) (disks : list D) : list D :=
  match disks with
  | [] => []
  | d :: rest => if String.eqb (GetId d) id then rest else d :: remove_first id rest
  end.

Definition RemoveDisk (s : t D L) (disk : D) : option (t D L) :=
  held ← Lock (DiskLock s);
  Some (mk (remove_first (GetId disk) (Disks s)) (Unlock held)).

(** GetDiskById holds the lock while it runs, also across its call of
    CreateDisk *)
Definition GetDiskById (s : t D L) (diskId : string)
    : option (t D L * (D + Errors.t)) :=
  held ← Lock (DiskLock s);
  match List.find (fun d => String.eqb (GetId d) diskId) (Disks s) with
  | Some d =>
      match Probe d with
      | Some err =>
          Some (mk (Disks s) (Unlock held),
                inr (Errors.Wrapf err ("probe disk " +:+ diskId)))
      | None => Some (mk (Disks s) (Unlock held), inl d)
      end
  | None =>
      '(s', disk) ← CreateDisk (mk (Disks s) held) diskId;
      match Probe disk with
      | None => Some (mk (Disks s') (Unlock (DiskLock s')), inl disk)
      | Some _ => Some (mk (Disks s') (Unlock (DiskLock s')), inr ErrNotFound)
      end
  end.

(** GetDisksPath: iSCSI has no disk files *)
Definition GetDisksPath (s : t D L) : list string * option Errors.t := ([], None).

End Disks.

End DiskList.

(** ** docs/frontend-interfaces.ts: the validators of the creation form

    Texts are taken to be ASCII, one byte per UTF-16 code unit; [.] of a
    JavaScript pattern matches any character but a line terminator. *)

Module IscsiValidator.

Record ValidationResult : Type := {
  isValid : bool;
  errors : list string;
}.

Definition valid : ValidationResult := {| isValid := true; errors := [] |}.
Definition invalid (msg : string) : ValidationResult :=
  {| isValid := false; errors := [msg] |}.

Definition js_dot : Regexp.re :=
  Regexp.Class (fun c => negb (Ascii.eqb c "010") && negb (Ascii.eqb c "013")).

Definition digit : Regexp.re := Regexp.Class GoString.is_digit.

(** r? and \d{1,n} *)
Definition Opt (r : Regexp.re) : Regexp.re := Regexp.Alt Regexp.Eps r.

Fixpoint up_to (n : nat) (r : Regexp.re) : Regexp.re :=
  match n with
  | O => Regexp.Eps
  | S n' => Opt (Regexp.Cat r (up_to n' r))
  end.

Definition digits_1_to (n : nat) : Regexp.re := Regexp.Cat digit (up_to (n - 1) digit).

(** /^iqn\.\d{4}-\d{2}\.([a-zA-Z0-9\-\.]+):(.+)$/ *)
Definition iqnPattern : Regexp.re :=
  Regexp.Cat (Regexp.Text "iqn.")
 (Regexp.Cat (Regexp.Repeat 4 digit)
 (Regexp.Cat (Regexp.Byte "-")
 (Regexp.Cat (Regexp.Repeat 2 digit)
 (Regexp.Cat (Regexp.Byte ".")
 (Regexp.Cat (Regexp.Plus (Regexp.Class SIscsiStorageDriver.authority_char))
 (Regexp.Cat (Regexp.Byte ":")
             (Regexp.Plus js_dot))))))).

Definition validateIQN (iqn : string) : ValidationResult :=
  if String.eqb iqn "" then invalid "IQN is required"
  else if negb (Regexp.MatchAnchored iqnPattern iqn)
  then invalid "Invalid IQN format. Expected: iqn.yyyy-mm.naming-authority:unique-name"
  else valid.

(** /^(\d{1,3}\.){3}\d{1,3}$/ *)
Definition ipPattern : Regexp.re :=
  Regexp.Cat (Regexp.Repeat 3 (Regexp.Cat (digits_1_to 3) (Regexp.Byte ".")))
             (digits_1_to 3).

(** /^(\d{1,3}\.){3}\d{1,3}:\d{1,5}$/ *)
Definition portalPattern : Regexp.re :=
  Regexp.Cat ipPattern (Regexp.Cat (Regexp.Byte ":") (digits_1_to 5)).

(** s.split(sep) for a one-character separator *)
Fixpoint split (sep : ascii) (cur : string) (s : string) : list string :=
  match s with
  | EmptyString => [cur]
  | String c s' =>
      if Ascii.eqb c sep then cur :: split sep "" s'
      else split sep (cur +:+ String c "") s'
  end.

(** parseInt on a text of decimal digits, which is what the patterns let
    through; [None] is NaN, for which every comparison is false *)
Definition parseInt (s : string) : option Z :=
  match GoString.bytes s with
  | [] => None
  | l => Strconv.digits_value 0 l
  end.

Definition below (n : option Z) (bound : Z) : bool :=
  match n with Some v => v <? bound | None => false end.

Definition above (n : option Z) (bound : Z) : bool :=
  match n with Some v => v >? bound | None => false end.

Definition octets_in_range (ip : string) : bool :=
  forallb (fun octet => negb (below (parseInt octet) 0 || above (parseInt octet) 255))
          (split "." "" ip).

Definition validatePortal (portal : string) : ValidationResult :=
  if String.eqb portal "" then invalid "Portal address is required"
  else if negb (Regexp.MatchAnchored portalPattern portal)
  then invalid "Invalid portal format. Expected: IP:Port (e.g., 192.168.1.100:3260)"
  else
    let parts := split ":" "" portal in
    let ip := hd "" parts in
    let port := match tl parts with
                | portStr :: _ => parseInt portStr
                | [] => None
                end in
    if negb (octets_in_range ip) then invalid "Invalid IP address in portal"
    else if below port 1 || above port 65535
    then invalid "Port number must be between 1 and 65535"
    else valid.

Definition validateTarget (target : string) : ValidationResult :=
  if String.eqb target "" then invalid "Target address is required"
  else if negb (Regexp.MatchAnchored ipPattern target)
  then invalid "Invalid IP address format"
  else if negb (octets_in_range target) then invalid "Invalid IP address"
  else valid.

(** lunId is a number; the model covers the integers *)
Definition validateLunId (lunId : Z) : ValidationResult :=
  if (lunId <? 0) || (lunId >? 255) then invalid "LUN ID must be between 0 and 255"
  else valid.

Record IscsiStorageConfig : Type := {
  iscsi_target : string;
  iscsi_iqn : string;
  iscsi_portal : string;
  iscsi_lun_id : option Z;
}.

(** errors.push(...result.errors) under if (!result.isValid) *)
Definition push_errors (acc : list string) (result : ValidationResult) : list string :=
  if negb (isValid result) then acc ++ errors result else acc.

Definition validateIscsiConfig (config : IscsiStorageConfig) : ValidationResult :=
  let errors := [] in
  let errors := push_errors errors (validateTarget (iscsi_target config)) in
  let errors := push_errors errors (validateIQN (iscsi_iqn config)) in
  let errors := push_errors errors (validatePortal (iscsi_portal config)) in
  let errors :=
    match iscsi_lun_id config with
    | Some lunId => push_errors errors (validateLunId lunId)
    | None => errors
    end in
  {| isValid := Nat.eqb (length errors) 0; errors := errors |}.

End IscsiValidator.

(** ** Predicates used to state the further properties *)

Module Texts.

(** the characters validateAuthParams refuses in a username: space, tab,
    line feed, carriage return *)
Definition whitespace : string :=
  String " " (String "009" (String "010" (String "013" ""))).

(** an ASCII character other than white space *)
Definition plain (c : ascii) : bool :=
  GoString.in_range "000" "127" c && negb (GoString.is_space c).

Definition plain_text (s : string) : Prop :=
  ∀ c, c ∈ GoString.bytes s → plain c = true.

(** the UTF-8 encodings of the white space of unicode.IsSpace *)
Definition space_encoding (e : list ascii) : bool :=
  match e with
  | [a] => GoString.is_space a
  | [a; b] => GoString.space2 a b
  | [a; b; c] => GoString.space3 a b c
  | _ => false
  end.

(** the text holds no white space: none of those encodings occurs in it *)
Definition no_space (s : string) : Prop :=
  ∀ pre e post, GoString.bytes s = pre ++ e ++ post → space_encoding e = false.

End Texts.

(** ** The iscsiadm command lines, as they appear in a trace *)

Module Iscsiadm.

Import Storageman SIscsiStorage.







End Iscsiadm.

(** ** Fixtures for the disk list and for os.Stat *)

Module DiskLab.

(** a disk known by its identifier, whose probe succeeds *)
#[global] Instance named_disk : DiskList.IDisk string := {
  GetId d := d;
  Probe _ := None;
}.

Definition NewLocalDisk (diskId : string) : string := diskId.

Definition storage (disks : list string) : DiskList.t string bool :=
  DiskList.mk disks false.

(** os.Stat where every file can be examined *)
Definition Stat (w : Z) (path : string) : Z * option Errors.t := (w, None).

End DiskLab.

(** * Properties *)

(** ** Derivative matching agrees with the denotation *)

Module RegexpFacts.

Import Regexp.

Lemma lang_cat_inv r1 r2 w :
  lang (Cat r1 r2) w → ∃ u v, w = u ++ v ∧ lang r1 u ∧ lang r2 v.
Proof. inversion 1; subst; eauto. Qed.

Lemma lang_alt_inv r1 r2 w : lang (Alt r1 r2) w → lang r1 w ∨ lang r2 w.
Proof. inversion 1; subst; auto. Qed.

Lemma lang_class_inv p w : lang (Class p) w → ∃ c, w = [c] ∧ p c = true.
Proof. inversion 1; subst; eauto. Qed.

Lemma lang_eps_inv w : lang Eps w → w = [].
Proof. inversion 1; reflexivity. Qed.

Lemma nullable_lang r : nullable r = true ↔ lang r [].
Proof.
  induction r as [| |p|r1 IH1 r2 IH2|r1 IH1 r2 IH2|r IH]; simpl.
  - split; [discriminate | intros H; inversion H].
  - split; [constructor | reflexivity].
  - split; [discriminate | intros H; inversion H].
  - rewrite andb_true_iff, IH1, IH2. split.
    + intros [H1 H2]. exact (lang_cat _ _ [] [] H1 H2).
    + intros H. apply lang_cat_inv in H as (u & v & E & Hu & Hv).
      symmetry in E. apply app_eq_nil in E as [-> ->]. auto.
  - rewrite orb_true_iff, IH1, IH2. split.
    + intros [H|H]; [apply lang_alt_l | apply lang_alt_r]; exact H.
    + apply lang_alt_inv.
  - split; [constructor | reflexivity].
Qed.

(** a non-empty word of a star starts with a non-empty word of the body *)
Lemma lang_star_cons_inv r c w :
  lang (Star r) (c :: w) → ∃ u v, w = u ++ v ∧ lang r (c :: u) ∧ lang (Star r) v.
Proof.
  intros H. remember (Star r) as sr eqn:Esr. remember (c :: w) as cw eqn:Ecw.
  revert c w Ecw.
  induction H as [| | | | | |r' u v Hu _ Hv IHv]; try discriminate.
  injection Esr as ->. intros c w Ecw.
  destruct u as [|a u].
  - simpl in Ecw. apply IHv; auto.
  - simpl in Ecw. injection Ecw as -> <-. eauto.
Qed.

Lemma deriv_lang c r w : lang (deriv c r) w ↔ lang r (c :: w).
Proof.
  revert w.
  induction r as [| |p|r1 IH1 r2 IH2|r1 IH1 r2 IH2|r IH]; intros w; simpl.
  - split; inversion 1.
  - split; inversion 1.
  - destruct (p c) eqn:Hp; split; intros H.
    + apply lang_eps_inv in H as ->. constructor. exact Hp.
    + apply lang_class_inv in H as (c' & E & Hc). injection E as -> ->. constructor.
    + inversion H.
    + apply lang_class_inv in H as (c' & E & Hc). injection E as -> ->. congruence.
  - assert (Hcat : lang (Cat (deriv c r1) r2) w →  lang (Cat r1 r2) (c :: w)).
    { intros H. apply lang_cat_inv in H as (u & v & -> & Hu & Hv).
      apply IH1 in Hu. exact (lang_cat _ _ (c :: u) v Hu Hv). }
    assert (Hinv : lang (Cat r1 r2) (c :: w) →
                   lang (Cat (deriv c r1) r2) w ∨ (lang r1 [] ∧ lang (deriv c r2) w)).
    { intros H. apply lang_cat_inv in H as (u & v & E & Hu & Hv).
      destruct u as [|a u]; simpl in E.
      - right. subst v. split; [exact Hu | apply IH2; exact Hv].
      - left. injection E as <- ->. apply lang_cat; [apply IH1; exact Hu | exact Hv]. }
    destruct (nullable r1) eqn:Hn; split; intros H.
    + apply lang_alt_inv in H as [H|H]; [auto|].
      apply IH2 in H. apply nullable_lang in Hn. exact (lang_cat _ _ [] _ Hn H).
    + apply Hinv in H as [H|[_ H]]; [apply lang_alt_l | apply lang_alt_r]; exact H.
    + auto.
    + apply Hinv in H as [H|[H _]]; [exact H|].
      apply nullable_lang in H. congruence.
  - split; intros H.
    + apply lang_alt_inv in H as [H|H]; [apply lang_alt_l, IH1 | apply lang_alt_r, IH2]; exact H.
    + apply lang_alt_inv in H as [H|H]; [apply lang_alt_l, IH1 | apply lang_alt_r, IH2]; exact H.
  - split; intros H.
    + apply lang_cat_inv in H as (u & v & -> & Hu & Hv).
      apply IH in Hu. exact (lang_star_app _ (c :: u) v Hu Hv).
    + apply lang_star_cons_inv in H as (u & v & -> & Hu & Hv).
      apply lang_cat; [apply IH; exact Hu | exact Hv].
Qed.

Lemma accepts_lang r w : accepts r w = true ↔ lang r w.
Proof.
  revert r. induction w as [|c w IH]; intros r; simpl.
  - apply nullable_lang.
  - rewrite IH. apply deriv_lang.
Qed.

Lemma lang_byte c w : lang (Byte c) w ↔ w = [c].
Proof.
  unfold Byte. split.
  - intros H. apply lang_class_inv in H as (c' & -> & Hc).
    apply Ascii.eqb_eq in Hc. congruence.
  - intros ->. constructor. apply Ascii.eqb_refl.
Qed.

Lemma lang_lit l w : lang (Lit l) w ↔ w = l.
Proof.
  revert w. induction l as [|c l IH]; intros w; simpl.
  - split; [apply lang_eps_inv | intros ->; constructor].
  - split.
    + intros H. apply lang_cat_inv in H as (u & v & -> & Hu & Hv).
      apply lang_byte in Hu as ->. apply IH in Hv as ->. reflexivity.
    + intros ->. apply (lang_cat _ _ [c] l); [apply lang_byte | apply IH]; reflexivity.
Qed.

Lemma lang_star_class p w : lang (Star (Class p)) w ↔ forallb p w = true.
Proof.
  split.
  - intros H. remember (Star (Class p)) as sr eqn:E.
    induction H as [| | | | | |r u v Hu _ Hv IHv]; try discriminate; [reflexivity|].
    injection E as ->. apply lang_class_inv in Hu as (c & -> & Hc).
    simpl. rewrite Hc. auto.
  - induction w as [|c w IH]; simpl; intros H.
    + constructor.
    + apply andb_true_iff in H as [Hc Hw].
      apply (lang_star_app _ [c] w); [constructor; exact Hc | auto].
Qed.

Lemma lang_plus_class p w : lang (Plus (Class p)) w ↔ w ≠ [] ∧ forallb p w = true.
Proof.
  unfold Plus. split.
  - intros H. apply lang_cat_inv in H as (u & v & -> & Hu & Hv).
    apply lang_class_inv in Hu as (c & -> & Hc). apply lang_star_class in Hv.
    simpl. rewrite Hc. split; [discriminate | exact Hv].
  - intros [Hne H]. destruct w as [|c w]; [congruence|].
    simpl in H. apply andb_true_iff in H as [Hc Hw].
    apply (lang_cat _ _ [c] w); [constructor; exact Hc | apply lang_star_class; exact Hw].
Qed.

Lemma lang_repeat_class p n w :
  lang (Repeat n (Class p)) w ↔ length w = n ∧ forallb p w = true.
Proof.
  revert w. induction n as [|n IH]; intros w; simpl.
  - split.
    + intros H. apply lang_eps_inv in H as ->. auto.
    + intros [H _]. destruct w; [constructor | discriminate].
  - split.
    + intros H. apply lang_cat_inv in H as (u & v & -> & Hu & Hv).
      apply lang_class_inv in Hu as (c & -> & Hc). apply IH in Hv as [Hl Hv].
      simpl. rewrite Hc, Hl. auto.
    + intros [Hl H]. destruct w as [|c w]; [discriminate|].
      simpl in *. apply andb_true_iff in H as [Hc Hw].
      apply (lang_cat _ _ [c] w); [constructor; exact Hc | apply IH; split; [lia | exact Hw]].
Qed.



End RegexpFacts.

(** ** validateIQN *)

Module GoStringFacts.

Import GoString.

Lemma bytes_app a b : bytes (a +:+ b) = bytes a ++ bytes b.
Proof. induction a as [|c a IH]; simpl; [reflexivity | unfold bytes in *; simpl; congruence]. Qed.

Lemma bytes_of_list l : bytes (string_of_list_ascii l) = l.
Proof. apply list_ascii_of_string_of_list_ascii. Qed.

Lemma of_list_bytes s : string_of_list_ascii (bytes s) = s.
Proof. apply string_of_list_ascii_of_string. Qed.

Lemma bytes_inj a b : bytes a = bytes b → a = b.
Proof. intros H. rewrite <- (of_list_bytes a), <- (of_list_bytes b), H. reflexivity. Qed.

Lemma length_bytes s : length (bytes s) = String.length s.
Proof. induction s as [|c s IH]; simpl; [reflexivity | unfold bytes in *; simpl; congruence]. Qed.

Lemma bytes_nil s : bytes s = [] ↔ s = "".
Proof. destruct s; simpl; split; intros H; try reflexivity; discriminate. Qed.

Lemma len_zero s : (len s =? 0) = true ↔ s = "".
Proof.
  unfold len. rewrite Z.eqb_eq. destruct s; simpl; split; intros H;
    try reflexivity; try discriminate; lia.
Qed.

Lemma has_prefix_app p s : has_prefix p (p +:+ s) = true.
Proof. induction p as [|c p IH]; simpl; [reflexivity | rewrite Ascii.eqb_refl; exact IH]. Qed.

Lemma index_byte_from_app c a b :
  (∀ i, Net.index_byte_from i c b ≠ None) → ∀ i, Net.index_byte_from i c (a +:+ b) ≠ None.
Proof.
  intros Hb. induction a as [|x a IH]; intros i; simpl.
  - apply Hb.
  - destruct (Ascii.eqb x c); [discriminate | apply IH].
Qed.

Lemma index_byte_from_head c b i : Net.index_byte_from i c (String c b) ≠ None.
Proof. simpl. rewrite Ascii.eqb_refl. discriminate. Qed.

End GoStringFacts.

Module IqnFacts.

Import GoString GoStringFacts Regexp RegexpFacts SIscsiStorageDriver IqnFormat.

Lemma lang_iqnPattern w :
  lang iqnPattern w ↔
  ∃ y m a n : list ascii,
    w = bytes "iqn." ++ y ++ bytes "-" ++ m ++ bytes "." ++ a ++ bytes ":" ++ n
    ∧ (length y = 4%nat ∧ forallb is_digit y = true)
    ∧ (length m = 2%nat ∧ forallb is_digit m = true)
    ∧ (a ≠ [] ∧ forallb authority_char a = true)
    ∧ (n ≠ [] ∧ forallb name_char n = true).
Proof.
  unfold iqnPattern, Text. split.
  - intros H.
    apply lang_cat_inv in H as (w1 & ? & -> & H1 & H). apply lang_lit in H1 as ->.
    apply lang_cat_inv in H as (w2 & ? & -> & H2 & H). apply lang_byte in H2 as ->.
    apply lang_cat_inv in H as (y & ? & -> & Hy & H). apply lang_repeat_class in Hy.
    apply lang_cat_inv in H as (w3 & ? & -> & H3 & H). apply lang_byte in H3 as ->.
    apply lang_cat_inv in H as (m & ? & -> & Hm & H). apply lang_repeat_class in Hm.
    apply lang_cat_inv in H as (w4 & ? & -> & H4 & H). apply lang_byte in H4 as ->.
    apply lang_cat_inv in H as (a & ? & -> & Ha & H). apply lang_plus_class in Ha.
    apply lang_cat_inv in H as (w5 & n & -> & H5 & Hn). apply lang_byte in H5 as ->.
    apply lang_plus_class in Hn.
    exists y, m, a, n. repeat split; try tauto.
  - intros (y & m & a & n & -> & Hy & Hm & Ha & Hn).
    change (bytes "iqn." ++ y ++ bytes "-" ++ m ++ bytes "." ++ a ++ bytes ":" ++ n)
      with (bytes "iqn" ++ ["."%char] ++ y ++ ["-"%char] ++ m ++ ["."%char] ++ a
            ++ [":"%char] ++ n).
    apply lang_cat; [apply lang_lit; reflexivity|].
    apply lang_cat; [apply lang_byte; reflexivity|].
    apply lang_cat; [apply lang_repeat_class; exact Hy|].
    apply lang_cat; [apply lang_byte; reflexivity|].
    apply lang_cat; [apply lang_repeat_class; exact Hm|].
    apply lang_cat; [apply lang_byte; reflexivity|].
    apply lang_cat; [apply lang_plus_class; exact Ha|].
    apply lang_cat; [apply lang_byte; reflexivity|].
    apply lang_plus_class; exact Hn.
Qed.

Lemma MatchAnchored_iqnPattern iqn :
  MatchAnchored iqnPattern iqn = true ↔ well_formed iqn.
Proof.
  unfold MatchAnchored. rewrite accepts_lang, lang_iqnPattern. split.
  - intros (y & m & a & n & E & [Ly Dy] & [Lm Dm] & [Na Ca] & [Nn Cn]).
    exists (string_of_list_ascii y), (string_of_list_ascii m),
           (string_of_list_ascii a), (string_of_list_ascii n).
    unfold all_bytes. rewrite !bytes_of_list, <- !length_bytes, !bytes_of_list.
    repeat split; try assumption.
    + apply bytes_inj. rewrite E, !bytes_app, !bytes_of_list. reflexivity.
    + intros H. apply bytes_nil in H. rewrite bytes_of_list in H. contradiction.
    + intros H. apply bytes_nil in H. rewrite bytes_of_list in H. contradiction.
  - intros (y & m & a & n & -> & Ly & Dy & Lm & Dm & Na & Ca & Nn & Cn).
    exists (bytes y), (bytes m), (bytes a), (bytes n).
    rewrite !bytes_app, !length_bytes, !bytes_nil. unfold all_bytes in *. tauto.
Qed.

(** validateIQN returns nil exactly on the well-formed names of at most
    223 bytes *)
Lemma validateIQN_nil iqn :
  validateIQN iqn = None ↔ well_formed iqn ∧ len iqn ≤ 223.
Proof.
  unfold validateIQN.
  destruct (len iqn =? 0) eqn:E0.
  - apply len_zero in E0 as ->. split; [discriminate|].
    intros [(y & m & a & n & E & _) _]. discriminate.
  - destruct (MatchAnchored iqnPattern iqn) eqn:Em; simpl.
    + apply MatchAnchored_iqnPattern in Em.
      destruct (len iqn >? 223) eqn:El.
      * split; [discriminate | intros [_ H]; lia].
      * split; [intros _; split; [exact Em | lia] | reflexivity].
    + split; [discriminate|]. intros [H _].
      apply MatchAnchored_iqnPattern in H. congruence.
Qed.

End IqnFacts.

Module IqnValidation.

Import GoString GoStringFacts SIscsiStorageDriver IqnFormat IqnFacts.

(** C9. validateIQN accepts every qualified name of the form
    iqn.<4-digit year>-<2-digit month>.<authority>:<name> whose length is
    at most 223, and rejects every deviation from it, in particular the
    empty string, a name without the [iqn.] prefix, a 2-digit year, a name
    without colon, and a name longer than 223. *)
Theorem validateIQN_accepts_exactly_well_formed (iqn : string) :
  (well_formed iqn → len iqn ≤ 223 → validateIQN iqn = None)
  ∧ (¬ (well_formed iqn ∧ len iqn ≤ 223) → validateIQN iqn ≠ None)
  ∧ (iqn = "" → validateIQN iqn ≠ None)
  ∧ (has_prefix "iqn." iqn = false → validateIQN iqn ≠ None)
  ∧ ((∃ d1 d2 rest, iqn = "iqn." +:+ String d1 (String d2 ("-" +:+ rest))) →
     validateIQN iqn ≠ None)
  ∧ (Net.IndexByte iqn ":" = None → validateIQN iqn ≠ None)
  ∧ (len iqn > 223 → validateIQN iqn ≠ None).
Proof.
  pose proof (validateIQN_nil iqn) as Hnil.
  assert (Hrej : ¬ well_formed iqn → validateIQN iqn ≠ None).
  { intros Hn Hv. apply Hnil in Hv as [Hw _]. exact (Hn Hw). }
  repeat split.
  - intros Hw Hl. apply Hnil. split; assumption.
  - intros Hn Hv. apply Hn, Hnil, Hv.
  - intros ->. discriminate.
  - intros Hp. apply Hrej. intros (y & m & a & n & -> & _).
    change ("iqn." +:+ y +:+ "-" +:+ m +:+ "." +:+ a +:+ ":" +:+ n)
      with ("iqn." +:+ (y +:+ "-" +:+ m +:+ "." +:+ a +:+ ":" +:+ n)) in Hp.
    rewrite has_prefix_app in Hp. discriminate.
  - intros (d1 & d2 & rest & ->). apply Hrej.
    intros (y & m & a & n & E & Ly & Dy & _).
    destruct y as [|y1 [|y2 [|y3 [|y4 [|? ?]]]]]; try discriminate Ly.
    simpl in E. injection E as _ _ E3 _.
    unfold all_bytes in Dy. simpl in Dy. rewrite <- E3 in Dy.
    rewrite !andb_true_iff in Dy. destruct Dy as (_ & _ & Dy & _). discriminate Dy.
  - intros Hc. apply Hrej. intros (y & m & a & n & -> & _).
    unfold Net.IndexByte in Hc. revert Hc.
    do 6 apply index_byte_from_app. intros i. apply index_byte_from_head.
  - intros Hl Hv. apply Hnil in Hv as [_ Hv]. lia.
Qed.

Lemma validateIQN_accepts_exactly_well_formed_witness :
  validateIQN "iqn.2023-01.com.example:storage.target01" = None
  ∧ validateIQN "2023-01.com.example:storage.target01" ≠ None
  ∧ validateIQN "iqn.23-01.com.example:storage.target01" ≠ None
  ∧ validateIQN "iqn.2023-01.com.example.storage.target01" ≠ None.
Proof.
  split; [|split; [|split]].
  - destruct (validateIQN_accepts_exactly_well_formed
                "iqn.2023-01.com.example:storage.target01") as [Haccept _].
    apply Haccept.
    + exists "2023", "01", "com.example", "storage.target01".
      repeat split; try reflexivity; discriminate.
    + vm_compute. discriminate.
  - destruct (validateIQN_accepts_exactly_well_formed
                "2023-01.com.example:storage.target01") as (_ & _ & _ & Hprefix & _).
    apply Hprefix. reflexivity.
  - destruct (validateIQN_accepts_exactly_well_formed
                "iqn.23-01.com.example:storage.target01") as (_ & _ & _ & _ & Hyear & _).
    apply Hyear.
    exists "2"%char, "3"%char, "01.com.example:storage.target01". reflexivity.
  - destruct (validateIQN_accepts_exactly_well_formed
                "iqn.2023-01.com.example.storage.target01")
      as (_ & _ & _ & _ & _ & Hcolon & _).
    apply Hcolon. reflexivity.
Defined.

End IqnValidation.

(** ** ValidateCreateData: LUN id and duplicate detection *)

Module CreateFacts.

Import GoString GoStringFacts Api Models SIscsiStorageDriver CreateChecks.

Lemma len_nonzero s : (len s =? 0) = false ↔ s ≠ "".
Proof.
  split.
  - intros H ->. discriminate.
  - intros H. destruct (len s =? 0) eqn:E; [|reflexivity].
    apply len_zero in E. contradiction.
Qed.

(** once the field checks pass, the outcome is decided by the duplicate
    check and the probe, both run on the defaulted input *)
Lemma ValidateCreateData_after_fields net p db input :
  passes_field_validation net input →
  ValidateCreateData net p db input =
    match checkDuplicateStorage p db (defaulted input) with
    | Some err => (defaulted input, Some err)
    | None =>
        match testIscsiConnection net (defaulted input) with
        | Some err =>
            (defaulted input,
             Some (Httperrors.BadRequestError ("iSCSI connection test failed: " +:+ err)))
        | None =>
            (StorageCreateInput.set_StorageConf (defaulted input)
               (Jsonutils.Update Jsonutils.NewDict (stored input)), None)
        end
    end.
Proof.
  intros (Ht & Hvt & Hi & Hvi & Hp & Hvp & Hva).
  unfold ValidateCreateData. simpl.
  apply len_nonzero in Ht, Hi, Hp. rewrite Ht, Hvt, Hi, Hvi, Hp, Hvp, Hva.
  assert (E : (if StorageCreateInput.IscsiLunId input <? 0
               then StorageCreateInput.set_IscsiLunId
                      (StorageCreateInput.set_StorageConf input Jsonutils.NewDict) 0
               else StorageCreateInput.set_StorageConf input Jsonutils.NewDict)
              = defaulted input).
  { unfold defaulted. destruct input as [t i po u pw l c]; simpl.
    destruct (l <? 0) eqn:El; unfold StorageCreateInput.set_IscsiLunId,
      StorageCreateInput.set_StorageConf; simpl; f_equal; lia. }
  rewrite E. reflexivity.
Qed.

(** an accepted input passed every field check *)
Lemma ValidateCreateData_accepted_fields net p db input input' :
  ValidateCreateData net p db input = (input', None) → passes_field_validation net input.
Proof.
  unfold ValidateCreateData, passes_field_validation. simpl. intros H.
  destruct (len (StorageCreateInput.IscsiTarget input) =? 0) eqn:Ht; [discriminate|].
  destruct (validateTargetAddress net _) eqn:Hvt; [discriminate|].
  destruct (len (StorageCreateInput.IscsiIqn input) =? 0) eqn:Hi; [discriminate|].
  destruct (validateIQN _) eqn:Hvi; [discriminate|].
  destruct (len (StorageCreateInput.IscsiPortal input) =? 0) eqn:Hp; [discriminate|].
  destruct (validatePortalAddress net _) eqn:Hvp; [discriminate|].
  destruct (validateAuthParams _ _) eqn:Hva; [discriminate|].
  apply len_nonzero in Ht, Hi, Hp. tauto.
Qed.

Lemma stored_lun_id input :
  Jsonutils.Int (Jsonutils.Update Jsonutils.NewDict (stored input)) "lun_id"
  = Z.max 0 (StorageCreateInput.IscsiLunId input).
Proof.
  unfold Jsonutils.Int, Jsonutils.Update, Jsonutils.NewDict, stored, IscsiStorageConf.Marshal.
  simpl. rewrite lookup_union_l'; [|by simplify_map_eq]. by simplify_map_eq.
Qed.

Lemma ValidateCreateData_accepted_lun_id net p db input input' :
  ValidateCreateData net p db input = (input', None) →
  StorageCreateInput.IscsiLunId input' = Z.max 0 (StorageCreateInput.IscsiLunId input)
  ∧ Jsonutils.Int (StorageCreateInput.StorageConf input') "lun_id"
    = Z.max 0 (StorageCreateInput.IscsiLunId input).
Proof.
  intros H. pose proof (ValidateCreateData_accepted_fields _ _ _ _ _ H) as Hf.
  rewrite (ValidateCreateData_after_fields _ _ _ _ Hf) in H.
  destruct (checkDuplicateStorage p db (defaulted input)); [discriminate|].
  destruct (testIscsiConnection net (defaulted input)); [discriminate|].
  injection H as <-. simpl. split; [reflexivity | apply stored_lun_id].
Qed.

End CreateFacts.

Module LunIdRange.

Import GoString Api Models SIscsiStorageDriver CreateChecks CreateFacts.

(** C1. For every creation input accepted by ValidateCreateData the stored
    lun_id is the input's lunId with negative values replaced by 0; there is
    no upper bound: in the installation of [Lab] the input with lunId 256 is
    accepted and 256 is stored, where the specification (and the front-end
    validator, LUN ID between 0 and 255) requires a rejection. *)
Theorem ValidateCreateData_lun_id_has_no_upper_bound :
  (∀ net p db input input',
     ValidateCreateData net p db input = (input', None) →
     Jsonutils.Int (StorageCreateInput.StorageConf input') "lun_id"
     = Z.max 0 (StorageCreateInput.IscsiLunId input))
  ∧ ∃ input',
      ValidateCreateData Lab.net Lab.persistence Lab.empty_db
        (Lab.create_input "192.168.1.100:3260" 256) = (input', None)
      ∧ Jsonutils.Int (StorageCreateInput.StorageConf input') "lun_id" = 256.
Proof.
  split.
  - intros net p db input input' H.
    apply (ValidateCreateData_accepted_lun_id _ _ _ _ _ H).
  - eexists. split; [vm_compute; reflexivity | vm_compute; reflexivity].
Qed.

Lemma ValidateCreateData_lun_id_has_no_upper_bound_witness :
  ∃ input',
    ValidateCreateData Lab.net Lab.persistence Lab.empty_db
      (Lab.create_input "192.168.1.100:3260" (-1)) = (input', None)
    ∧ Jsonutils.Int (StorageCreateInput.StorageConf input') "lun_id" = Z.max 0 (-1).
Proof.
  eexists. split; [vm_compute; reflexivity|].
  apply (proj1 ValidateCreateData_lun_id_has_no_upper_bound
           Lab.net Lab.persistence Lab.empty_db (Lab.create_input "192.168.1.100:3260" (-1))).
  vm_compute. reflexivity.
Defined.

End LunIdRange.

Module DuplicateDetection.

Import GoString Api Models SIscsiStorageDriver CreateChecks CreateFacts.

Lemma eqb_identity input s :
  (String.eqb (StorageCreateInput.IscsiTarget input)
     (Jsonutils.GetString (SStorage.StorageConf s) "target")
   && String.eqb (StorageCreateInput.IscsiIqn input)
        (Jsonutils.GetString (SStorage.StorageConf s) "iqn")
   && String.eqb (StorageCreateInput.IscsiPortal input)
        (Jsonutils.GetString (SStorage.StorageConf s) "portal")
   && (StorageCreateInput.IscsiLunId input =? Jsonutils.Int (SStorage.StorageConf s) "lun_id"))
  = true ↔ stored_identity s = input_identity input.
Proof.
  unfold stored_identity, input_identity.
  rewrite !andb_true_iff, !String.eqb_eq, Z.eqb_eq. split.
  - intros [[[-> ->] ->] ->]. reflexivity.
  - intros H. injection H as <- <- <- <-. auto.
Qed.

Lemma scan_duplicate input l :
  Httperrors.is_duplicate (checkDuplicateStorage_scan input l) = true
  ↔ ∃ s, s ∈ l ∧ stored_identity s = input_identity input.
Proof.
  induction l as [|s l IH]; simpl.
  - split; [discriminate | intros (s & Hs & _); by apply elem_of_nil in Hs].
  - destruct (_ && _) eqn:E in |- *.
    + simpl. split; [|reflexivity]. intros _. exists s. split; [apply elem_of_cons; auto|].
      apply eqb_identity, E.
    + rewrite IH. split.
      * intros (s' & Hs' & H). exists s'. split; [apply elem_of_cons; auto | exact H].
      * intros (s' & Hs' & H). apply elem_of_cons in Hs' as [->|Hs']; [|eauto].
        apply eqb_identity in H. congruence.
Qed.

Lemma scan_nil_or_duplicate input l :
  checkDuplicateStorage_scan input l = None
  ∨ Httperrors.is_duplicate (checkDuplicateStorage_scan input l) = true.
Proof.
  induction l as [|s l IH]; simpl; [auto|]. destruct (_ && _); [right; reflexivity | exact IH].
Qed.

Lemma FetchModelObjects_ok p db :
  fetch_error p = None →
  FetchModelObjects p db = Ok (filter (fun s => is_iscsi s = true) (storages db)).
Proof. unfold FetchModelObjects. intros ->. reflexivity. Qed.

(** C5. When the existing iSCSI storage records can be read, the duplicate
    check rejects an input with a duplicate-resource error if and only if
    some existing record's stored configuration has the input's
    (target, iqn, portal, lunId); an input that differs from every record
    in at least one of the four fields passes the check; and for an input
    that passes the field checks ValidateCreateData answers with the
    duplicate-resource error in exactly that case (lunId as defaulted). *)
Theorem duplicate_check_iff_identical_identity p db :
  fetch_error p = None →
  (∀ input,
     Httperrors.is_duplicate (checkDuplicateStorage p db input) = true
     ↔ ∃ s, s ∈ storages db ∧ is_iscsi s = true
            ∧ stored_identity s = input_identity input)
  ∧ (∀ input,
       (∀ s, s ∈ storages db → is_iscsi s = true →
          Jsonutils.GetString (SStorage.StorageConf s) "target"
            ≠ StorageCreateInput.IscsiTarget input
          ∨ Jsonutils.GetString (SStorage.StorageConf s) "iqn"
            ≠ StorageCreateInput.IscsiIqn input
          ∨ Jsonutils.GetString (SStorage.StorageConf s) "portal"
            ≠ StorageCreateInput.IscsiPortal input
          ∨ Jsonutils.Int (SStorage.StorageConf s) "lun_id"
            ≠ StorageCreateInput.IscsiLunId input) →
       checkDuplicateStorage p db input = None)
  ∧ (∀ net input,
       passes_field_validation net input →
       Httperrors.is_duplicate (snd (ValidateCreateData net p db input)) = true
       ↔ ∃ s, s ∈ storages db ∧ is_iscsi s = true
              ∧ stored_identity s = input_identity (defaulted input)).
Proof.
  intros Hf.
  assert (Hiff : ∀ input,
     Httperrors.is_duplicate (checkDuplicateStorage p db input) = true
     ↔ ∃ s, s ∈ storages db ∧ is_iscsi s = true
            ∧ stored_identity s = input_identity input).
  { intros input. unfold checkDuplicateStorage. rewrite (FetchModelObjects_ok _ _ Hf).
    rewrite scan_duplicate. split.
    - intros (s & Hs & H). apply list_elem_of_filter in Hs as [Hi Hs]. eauto.
    - intros (s & Hs & Hi & H). exists s. split; [apply list_elem_of_filter; auto | exact H]. }
  split; [exact Hiff|]. split.
  - intros input Hdiff.
    destruct (checkDuplicateStorage p db input) as [e|] eqn:E; [|reflexivity].
    exfalso.
    assert (Hd : Httperrors.is_duplicate (checkDuplicateStorage p db input) = true).
    { unfold checkDuplicateStorage in *. rewrite (FetchModelObjects_ok _ _ Hf) in *.
      destruct (scan_nil_or_duplicate input
                  (filter (fun s => is_iscsi s = true) (storages db))) as [H|H];
        [congruence | exact H]. }
    apply Hiff in Hd as (s & Hs & Hi & H).
    unfold stored_identity, input_identity in H. injection H as H1 H2 H3 H4.
    destruct (Hdiff s Hs Hi) as [?|[?|[?|?]]]; contradiction.
  - intros net input Hpass.
    rewrite (ValidateCreateData_after_fields _ _ _ _ Hpass), <- Hiff.
    destruct (checkDuplicateStorage p db (defaulted input)) as [e|]; [reflexivity|].
    destruct (testIscsiConnection net (defaulted input)); simpl; reflexivity.
Qed.

End DuplicateDetection.

Module DuplicateDetectionExample.

Import GoString Api Models SIscsiStorageDriver CreateChecks CreateFacts.

Lemma duplicate_check_iff_identical_identity_witness :
  Httperrors.is_duplicate
    (checkDuplicateStorage Lab.persistence Lab.one_storage_db
       (Lab.create_input "192.168.1.100:3260" 0)) = true
  ∧ checkDuplicateStorage Lab.persistence Lab.one_storage_db
      (Lab.create_input "192.168.1.100:3260" 1) = None
  ∧ Httperrors.is_duplicate
      (snd (ValidateCreateData Lab.net Lab.persistence Lab.one_storage_db
              (Lab.create_input "192.168.1.100:3260" (-1)))) = true.
Proof.
  destruct (DuplicateDetection.duplicate_check_iff_identical_identity
              Lab.persistence Lab.one_storage_db eq_refl) as (Hiff & Hpass & Hvalidate).
  split; [|split].
  - apply Hiff. exists (Lab.storage "s1" "192.168.1.100:3260" 0).
    split; [apply list_elem_of_singleton; reflexivity|].
    split; vm_compute; reflexivity.
  - apply Hpass. intros s Hs _. apply list_elem_of_singleton in Hs as ->.
    right; right; right. vm_compute. discriminate.
  - apply Hvalidate.
    + repeat split; try discriminate; vm_compute; reflexivity.
    + exists (Lab.storage "s1" "192.168.1.100:3260" 0).
      split; [apply list_elem_of_singleton; reflexivity|].
      split; vm_compute; reflexivity.
Defined.

End DuplicateDetectionExample.

(** ** ValidateUpdateData: credentials and the connectivity probe *)

Module UpdateFacts.

Import GoString GoStringFacts Api SIscsiStorageDriver.

Lemma validateAuthParams_pairing u p :
  validateAuthParams u p = None → (len u >? 0) = (len p >? 0).
Proof.
  unfold validateAuthParams.
  destruct (len u >? 0) eqn:Eu, (len p >? 0) eqn:Ep, (len p =? 0) eqn:Ep0,
    (len u =? 0) eqn:Eu0; simpl; try discriminate; try reflexivity;
    intros _; try reflexivity; exfalso; unfold len in *;
    try apply Z.eqb_neq in Ep0; try apply Z.eqb_neq in Eu0; lia.
Qed.

Lemma GetString_set_other conf key k v :
  key ≠ k → Jsonutils.GetString (Jsonutils.Set_ conf k v) key = Jsonutils.GetString conf key.
Proof.
  intros Hne. unfold Jsonutils.GetString, Jsonutils.Set_.
  rewrite lookup_insert_ne; [reflexivity | congruence].
Qed.

End UpdateFacts.

Module CredentialUpdate.

Import GoString GoStringFacts Api SIscsiStorageDriver UpdateFacts UpdateChecks.

(** C2 as amended. Without credentials the input goes to the base
    validator as it is. Credentials that the both-or-neither, length or
    white-space checks refuse are answered with the input-parameter error:
    nothing is written and the flag stays as it was. Once the checks pass,
    the trimmed username and password are written into the shared
    configuration dictionary and the configuration-changed flag is set
    before the probe runs. When the probe fails the bad-request error is
    returned together with that updated dictionary and flag; when it
    succeeds the same updated store and input go to the base validator. *)
Theorem ValidateUpdateData_writes_credentials_before_probe
    base net (h : gmap nat Jsonutils.JSONDict) input :
  (StorageUpdateInput.IscsiUsername input = ""
   ∧ StorageUpdateInput.IscsiPassword input = "" →
   ValidateUpdateData base net h input = Some (base h input))
  ∧ (∀ err,
       validateAuthParams (StorageUpdateInput.IscsiUsername input)
                          (StorageUpdateInput.IscsiPassword input) = Some err →
       ValidateUpdateData base net h input =
         Some (h, input,
               Some (Httperrors.InputParameterError
                       ("invalid authentication parameters: " +:+ err))))
  ∧ (∀ conf,
       len (StorageUpdateInput.IscsiUsername input) > 0
       ∨ len (StorageUpdateInput.IscsiPassword input) > 0 →
       validateAuthParams (StorageUpdateInput.IscsiUsername input)
                          (StorageUpdateInput.IscsiPassword input) = None →
       h !! StorageUpdateInput.StorageConf input = Some conf →
       let conf' :=
         <["password" := Jsonutils.JSONString
                           (TrimSpace (StorageUpdateInput.IscsiPassword input))]>
         (<["username" := Jsonutils.JSONString
                            (TrimSpace (StorageUpdateInput.IscsiUsername input))]> conf) in
       let h' := <[StorageUpdateInput.StorageConf input := conf']> h in
       let input' := StorageUpdateInput.set_UpdateStorageConf input true in
       ValidateUpdateData base net h input =
         match probe net conf with
         | Some err =>
             Some (h', input',
                   Some (Httperrors.BadRequestError
                           ("iSCSI connection test failed with updated configuration: "
                            +:+ err)))
         | None => Some (base h' input')
         end).
Proof.
  split; [|split].
  - intros [Hu Hp]. unfold ValidateUpdateData. rewrite Hu, Hp. reflexivity.
  - intros err Hauth.
    assert (Hany : (len (StorageUpdateInput.IscsiUsername input) >? 0)
                   || (len (StorageUpdateInput.IscsiPassword input) >? 0) = true).
    { destruct (len (StorageUpdateInput.IscsiUsername input) >? 0) eqn:Eu;
        [reflexivity|].
      destruct (len (StorageUpdateInput.IscsiPassword input) >? 0) eqn:Ep;
        [reflexivity|].
      exfalso. unfold validateAuthParams in Hauth. rewrite Eu, Ep in Hauth.
      simpl in Hauth. discriminate Hauth. }
    unfold ValidateUpdateData. rewrite Hany, Hauth. reflexivity.
  - intros conf Hany Hauth Hconf conf' h' input'.
    pose proof (validateAuthParams_pairing _ _ Hauth) as Hpair.
    assert (Hu : (len (StorageUpdateInput.IscsiUsername input) >? 0) = true)
      by (destruct Hany; lia).
    assert (Hp : (len (StorageUpdateInput.IscsiPassword input) >? 0) = true)
      by (destruct Hany; lia).
    unfold ValidateUpdateData, store_set. rewrite Hu, Hauth. simpl.
    rewrite Hconf. simpl. rewrite Hp, lookup_insert_eq. simpl.
    rewrite insert_insert_eq.
    unfold testIscsiConnectionUpdate. simpl. rewrite lookup_insert_eq. simpl.
    unfold probe. rewrite !GetString_set_other by discriminate.
    destruct (_ || _); [reflexivity|].
    destruct (dial_portal net _); reflexivity.
Qed.

End CredentialUpdate.

Module CredentialUpdateExamples.

Import GoString Api SIscsiStorageDriver UpdateFixture.

Lemma ValidateUpdateData_writes_credentials_before_probe_witness :
  ValidateUpdateData base Lab.net store (new_credentials 2) =
    Some (base
            (<[2%nat := <["password" := Jsonutils.JSONString "newpass"]>
                        (<["username" := Jsonutils.JSONString "newuser"]> reachable_conf)]>
               store)
            (StorageUpdateInput.set_UpdateStorageConf (new_credentials 2) true))
  ∧ ValidateUpdateData base Lab.net store (refused_credentials 2) =
      Some (store, refused_credentials 2,
            Some (Httperrors.InputParameterError
                    "invalid authentication parameters: username cannot contain whitespace characters")).
Proof.
  split.
  - destruct (CredentialUpdate.ValidateUpdateData_writes_credentials_before_probe
                base Lab.net store (new_credentials 2)) as (_ & _ & Hwrite).
    rewrite (Hwrite reachable_conf).
    + reflexivity.
    + left. vm_compute. reflexivity.
    + reflexivity.
    + reflexivity.
  - destruct (CredentialUpdate.ValidateUpdateData_writes_credentials_before_probe
                base Lab.net store (refused_credentials 2)) as (_ & Hrefused & _).
    apply (Hrefused "username cannot contain whitespace characters"). reflexivity.
Defined.

(** C2 as stated fails: with the portal of storage 1 unreachable the probe
    fails, and the result carries the new username and password in the
    configuration dictionary and the configuration-changed flag set, where
    the specification's wording leaves configuration and flag untouched. *)
Lemma ValidateUpdateData_failed_probe_keeps_new_credentials :
  ∃ h' input' msg,
    ValidateUpdateData base Lab.net store (new_credentials 1)
      = Some (h', input', Some (Httperrors.BadRequestError msg))
    ∧ UpdateChecks.ValidateUpdateData_as_specified base Lab.net store (new_credentials 1)
      = Some (store, new_credentials 1, Some (Httperrors.BadRequestError msg))
    ∧ UpdateChecks.probe Lab.net unreachable_conf
      = Some "failed to connect to iSCSI portal 192.168.1.100:3261: connect: connection refused"
    ∧ Jsonutils.GetString unreachable_conf "username" = ""
    ∧ (conf ← h' !! StorageUpdateInput.StorageConf input';
       Some (Jsonutils.GetString conf "username", Jsonutils.GetString conf "password"))
      = Some ("newuser", "newpass")
    ∧ StorageUpdateInput.UpdateStorageConf (new_credentials 1) = false
    ∧ StorageUpdateInput.UpdateStorageConf input' = true.
Proof.
  do 3 eexists. split; [vm_compute; reflexivity|].
  repeat split; vm_compute; reflexivity.
Qed.

End CredentialUpdateExamples.
(** ** findDevicePath *)

Module ResolverFacts.

Import GoString GoStringFacts Regexp RegexpFacts Storageman Resolver.




(** ** strings.HasPrefix and strings.Contains on the bytes *)





Section Scan.

Context {W : Type} (ops : HostOps W) (links : string → string + Errors.t).
Hypothesis links_stable : ∀ w path, snd (EvalSymlinks ops w path) = links path.




End Scan.


End ResolverFacts.

Module DevicePathResolver.

Import GoString GoStringFacts Storageman Resolver ResolverFacts.




End DevicePathResolver.

(** ** MountStorage, UnmountStorage, SetStorageInfo *)

Module LifecycleFacts.

Import GoString Storageman SIscsiStorage Lifecycle.

Section Mount.

Context {W : Type} (ops : HostOps W).

Lemma waitForDevice_loop_path fuel s deadline r devicePath r' :
  waitForDevice_loop ops fuel s deadline r = (Some (inl devicePath), r') →
  devicePath ≠ "".
Proof.
  revert r. induction fuel as [|fuel IH]; intros r; simpl.
  - discriminate.
  - unfold bind, time_now, time_sleep, ret.
    destruct (Now ops (world r) <? deadline); [|discriminate].
    destruct (findDevicePath ops s r) as [[p|e] r1]; [|apply IH].
    destruct (String.eqb p "") eqn:Ep; simpl; [apply IH|].
    intros H. injection H as -> _. intros ->. discriminate.
Qed.

Lemma waitForDevice_loop_error fuel s deadline r err r' :
  waitForDevice_loop ops fuel s deadline r = (Some (inr err), r') →
  err = wait_timeout ∧ deadline ≤ Now ops (world r').
Proof.
  revert r. induction fuel as [|fuel IH]; intros r; simpl.
  - discriminate.
  - unfold bind, time_now, time_sleep, ret.
    destruct (Now ops (world r) <? deadline) eqn:En.
    + destruct (findDevicePath ops s r) as [[p|e] r1]; [|apply IH].
      destruct (String.eqb p "") eqn:Ep; simpl; [apply IH | discriminate].
    + intros H. injection H as <- <-. split; [reflexivity | lia].
Qed.

(** the wait step either resolves a non-empty path or times out *)
Lemma waitForDevice_outcome fuel s r res r' :
  waitForDevice ops fuel s r = (Some res, r') →
  match res with
  | inl devicePath => devicePath ≠ ""
  | inr err => err = wait_timeout ∧ Now ops (world r) + 30 * Second ≤ Now ops (world r')
  end.
Proof.
  unfold waitForDevice, bind, time_now. intros H. destruct res as [p|err].
  - eapply waitForDevice_loop_path, H.
  - eapply waitForDevice_loop_error, H.
Qed.

(** MountStorage in terms of its three steps *)
Lemma MountStorage_unfold fuel s r :
  MountStorage ops fuel s r =
    if isConnected s then (Some (s, None), r)
    else
      match discoverTarget ops s r with
      | (Some err, r1) => (Some (s, Some (Errors.Wrapf err "discover iSCSI target")), r1)
      | (None, r1) =>
          match loginTarget ops s r1 with
          | (Some err, r2) =>
              (Some (s, Some (Errors.Wrapf err "login to iSCSI target")), r2)
          | (None, r2) =>
              match waitForDevice ops fuel s r2 with
              | (None, r3) => (None, r3)
              | (Some (inr err), r3) =>
                  (Some (s, Some (Errors.Wrapf err "wait for iSCSI device")),
                   snd (logoutTarget ops s r3))
              | (Some (inl devicePath), r3) =>
                  (Some (set_connection s devicePath true, None), r3)
              end
          end
      end.
Proof.
  unfold MountStorage. destruct (isConnected s); [reflexivity|].
  unfold bind, ret.
  destruct (discoverTarget ops s r) as [[e|] r1]; [reflexivity|].
  destruct (loginTarget ops s r1) as [[e|] r2]; [reflexivity|].
  destruct (waitForDevice ops fuel s r2) as [[[p|e]|] r3]; try reflexivity.
  destruct (logoutTarget ops s r3); reflexivity.
Qed.

Lemma MountStorage_preserves fuel s r s' e r' :
  connected_has_path s →
  MountStorage ops fuel s r = (Some (s', e), r') → connected_has_path s'.
Proof.
  intros Hinv. rewrite MountStorage_unfold.
  destruct (isConnected s) eqn:Ec.
  - intros H. injection H as <- _ _. exact Hinv.
  - assert (Hs : connected_has_path s) by exact Hinv.
    destruct (discoverTarget ops s r) as [[e1|] r1].
    { intros H. injection H as <- _ _. exact Hs. }
    destruct (loginTarget ops s r1) as [[e2|] r2].
    { intros H. injection H as <- _ _. exact Hs. }
    destruct (waitForDevice ops fuel s r2) as [[[p|e3]|] r3] eqn:Ew.
    + intros H. injection H as <- _ _. intros _. simpl.
      exact (waitForDevice_outcome _ _ _ _ _ Ew).
    + intros H. injection H as <- _ _. exact Hs.
    + discriminate.
Qed.

Lemma UnmountStorage_unfold s r :
  UnmountStorage ops s r =
    if isConnected s then
      ((set_connection s "" false, None),
       snd (cleanupDiscovery ops s (snd (logoutTarget ops s r))))
    else ((s, None), r).
Proof.
  unfold UnmountStorage. destruct (isConnected s); simpl; [|reflexivity].
  unfold bind, ret. destruct (logoutTarget ops s r) as [e1 r1]. simpl.
  destruct (cleanupDiscovery ops s r1); reflexivity.
Qed.

Lemma UnmountStorage_preserves s r :
  connected_has_path s → connected_has_path (fst (fst (UnmountStorage ops s r))).
Proof.
  intros Hinv. rewrite UnmountStorage_unfold.
  destruct (isConnected s) eqn:Ec; simpl; [|exact Hinv].
  intros H. discriminate H.
Qed.


End Mount.



End LifecycleFacts.

Module Termination.

Import GoString Storageman SIscsiStorage Lifecycle LifecycleFacts.

Section Clock.

Context {W : Type} (ops : HostOps W).
Hypothesis clock : sane_clock ops.

Lemma findDevicePath_scan_clock regex entries r :
  Now ops (world r) ≤ Now ops (world (snd (findDevicePath_scan ops regex entries r))).
Proof using clock.
  destruct clock as (_ & _ & _ & Hlink).
  revert r. induction entries as [|name rest IH]; intros r; simpl; [lia|].
  destruct (Regexp.MatchString regex name); [|apply IH].
  unfold bind, eval_symlinks.
  pose proof (Hlink (world r) (byPathDir +:+ "/" +:+ name)) as Hl.
  destruct (EvalSymlinks ops (world r) (byPathDir +:+ "/" +:+ name)) as [w' [p|e]];
    simpl in *; [exact Hl|].
  etransitivity; [exact Hl | apply (IH (mkRun w' (issued r)))].
Qed.

Lemma findDevicePath_clock s r :
  Now ops (world r) ≤ Now ops (world (snd (findDevicePath ops s r))).
Proof using clock.
  pose proof clock as (_ & _ & Hdir & _).
  unfold findDevicePath, bind, read_dir.
  pose proof (Hdir (world r) byPathDir) as Hd.
  destruct (ReadDir ops (world r) byPathDir) as [w1 [entries|err]]; simpl in Hd;
    [|exact Hd].
  destruct (compile_device_pattern (before_first ":" (Portal s)) (Iqn s) (LunId s))
    as [regex|err]; [|exact Hd].
  pose proof (findDevicePath_scan_clock regex entries (mkRun w1 (issued r))) as Hs.
  destruct (findDevicePath_scan ops regex entries (mkRun w1 (issued r))) as [[p|] r2];
    simpl in *; lia.
Qed.

(** with [n] whole seconds left on the clock, [n + 1] evaluations of the
    loop condition are enough *)
Lemma waitForDevice_loop_total n s deadline r :
  deadline - Now ops (world r) ≤ Z.of_nat n * Second →
  ∃ res r', waitForDevice_loop ops (S n) s deadline r = (Some res, r').
Proof using clock.
  pose proof clock as (Hsleep & _).
  revert r. induction n as [|n IH]; intros r Hleft.
  - simpl. unfold bind, time_now, ret.
    destruct (Now ops (world r) <? deadline) eqn:En; [lia | eauto].
  - cbn [waitForDevice_loop]. unfold bind at 1. unfold time_now at 1.
    destruct (Now ops (world r) <? deadline) eqn:En; [|unfold ret; eauto].
    unfold bind at 1.
    pose proof (findDevicePath_clock s r) as Hf.
    destruct (findDevicePath ops s r) as [res r1]. simpl in Hf.
    assert (Hnext : deadline - Now ops (world (snd (time_sleep ops (1 * Second) r1)))
                    ≤ Z.of_nat n * Second).
    { unfold time_sleep. simpl.
      pose proof (Hsleep (world r1) (1 * Second)) as Hs. unfold Second in *. lia. }
    assert (Hrec : ∃ res' r',
              (_ <~ time_sleep ops (1 * Second) ;; waitForDevice_loop ops (S n) s deadline) r1
              = (Some res', r')).
    { unfold bind. destruct (time_sleep ops (1 * Second) r1) as [[] r2] eqn:Es.
      simpl in Hnext. apply IH. exact Hnext. }
    destruct res as [p|e]; [|exact Hrec].
    destruct (String.eqb p ""); simpl; [exact Hrec | unfold ret; eauto].
Qed.

Lemma waitForDevice_total fuel s r :
  (31 ≤ fuel)%nat → ∃ res r', waitForDevice ops fuel s r = (Some res, r').
Proof using clock.
  intros Hfuel. unfold waitForDevice, bind, time_now.
  destruct fuel as [|n]; [lia|].
  apply waitForDevice_loop_total. unfold Second. lia.
Qed.

Lemma MountStorage_total fuel s r :
  (31 ≤ fuel)%nat → ∃ s' e r', MountStorage ops fuel s r = (Some (s', e), r').
Proof using clock.
  intros Hfuel. rewrite MountStorage_unfold.
  destruct (isConnected s); [eauto|].
  destruct (discoverTarget ops s r) as [[e1|] r1]; [eauto|].
  destruct (loginTarget ops s r1) as [[e2|] r2]; [eauto|].
  destruct (waitForDevice_total fuel s r2 Hfuel) as (res & r3 & ->).
  destruct res as [p|e]; eauto.
Qed.

End Clock.

End Termination.

Module ConnectionInvariant.

Import GoString Storageman SIscsiStorage Lifecycle LifecycleFacts Termination.

(** C6. The runtime-state invariant "connected implies a non-empty device
    path" holds of a new instance (flag false, path empty) and is preserved
    by every call of MountStorage and of UnmountStorage, whatever the
    outcome; with a sane clock MountStorage does return, 31 evaluations of
    the wait loop's condition being enough. *)
Theorem connected_has_path_invariant :
  (isConnected NewIscsiStorage = false ∧ devicePath NewIscsiStorage = ""
   ∧ connected_has_path NewIscsiStorage)
  ∧ (∀ (W : Type) (ops : HostOps W) fuel s r,
       connected_has_path s →
       (∀ s' e r', MountStorage ops fuel s r = (Some (s', e), r') → connected_has_path s')
       ∧ (sane_clock ops → (31 ≤ fuel)%nat →
          ∃ s' e r', MountStorage ops fuel s r = (Some (s', e), r')))
  ∧ (∀ (W : Type) (ops : HostOps W) s r,
       connected_has_path s → connected_has_path (fst (fst (UnmountStorage ops s r)))).
Proof.
  split; [|split].
  - repeat split. intros H. discriminate H.
  - intros W ops fuel s r Hinv. split.
    + intros s' e r' H. exact (MountStorage_preserves ops fuel s r s' e r' Hinv H).
    + intros Hclock Hfuel. exact (MountStorage_total ops Hclock fuel s r Hfuel).
  - intros W ops s r Hinv. exact (UnmountStorage_preserves ops s r Hinv).
Qed.

Lemma connected_has_path_invariant_witness :
  ∃ s' r',
    MountStorage (HostLab.host (inl [HostLab.lun "0"]) HostLab.links_lun0) 31
      (HostLab.iscsi_storage 0) HostLab.start = (Some (s', None), r')
    ∧ isConnected s' = true ∧ devicePath s' = "/dev/sdb" ∧ connected_has_path s'
    ∧ connected_has_path
        (fst (fst (UnmountStorage
                     (HostLab.host (inl [HostLab.lun "0"]) HostLab.links_lun0) s' r'))).
Proof.
  destruct connected_has_path_invariant as (_ & Hmount & Hunmount).
  assert (H0 : connected_has_path (HostLab.iscsi_storage 0))
    by (intros H; discriminate H).
  destruct (Hmount Z (HostLab.host (inl [HostLab.lun "0"]) HostLab.links_lun0) 31%nat
              (HostLab.iscsi_storage 0) HostLab.start H0) as [Hpres _].
  eexists _, _. split; [vm_compute; reflexivity|].
  split; [reflexivity|]. split; [reflexivity|].
  assert (Hs' : connected_has_path
                  (set_connection (HostLab.iscsi_storage 0) "/dev/sdb" true)).
  { eapply Hpres. vm_compute. reflexivity. }
  split; [exact Hs' | apply Hunmount; exact Hs'].
Defined.

End ConnectionInvariant.

Module MountRollback.

Import GoString Storageman SIscsiStorage Lifecycle LifecycleFacts Termination.



End MountRollback.

Module Idempotence.

Import GoString Storageman SIscsiStorage Lifecycle LifecycleFacts.

(** C8. MountStorage on a connected instance returns success, issues no
    command and changes nothing, so a second MountStorage after a
    successful one is a no-op; UnmountStorage on a disconnected instance
    likewise, so a second UnmountStorage is a no-op. *)
Theorem mount_and_unmount_are_idempotent {W : Type} (ops : HostOps W) :
  (∀ fuel s r, isConnected s = true → MountStorage ops fuel s r = (Some (s, None), r))
  ∧ (∀ fuel fuel' s r s1 r1,
       MountStorage ops fuel s r = (Some (s1, None), r1) →
       MountStorage ops fuel' s1 r1 = (Some (s1, None), r1))
  ∧ (∀ s r, isConnected s = false → UnmountStorage ops s r = ((s, None), r))
  ∧ (∀ s r s1 e r1,
       UnmountStorage ops s r = ((s1, e), r1) →
       UnmountStorage ops s1 r1 = ((s1, None), r1)).
Proof.
  assert (Hm : ∀ fuel s r, isConnected s = true →
                 MountStorage ops fuel s r = (Some (s, None), r)).
  { intros fuel s r Hc. rewrite MountStorage_unfold, Hc. reflexivity. }
  assert (Hu : ∀ s r, isConnected s = false → UnmountStorage ops s r = ((s, None), r)).
  { intros s r Hc. rewrite UnmountStorage_unfold, Hc. reflexivity. }
  split; [exact Hm|]. split; [|split; [exact Hu|]].
  - intros fuel fuel' s r s1 r1 H. apply Hm.
    rewrite MountStorage_unfold in H.
    destruct (isConnected s) eqn:Ec.
    + injection H as <- _. exact Ec.
    + destruct (discoverTarget ops s r) as [[e1|] r1']; [discriminate|].
      destruct (loginTarget ops s r1') as [[e2|] r2]; [discriminate|].
      destruct (waitForDevice ops fuel s r2) as [[[p|e3]|] r3]; try discriminate.
      injection H as <- _. reflexivity.
  - intros s r s1 e r1 H. apply Hu.
    rewrite UnmountStorage_unfold in H.
    destruct (isConnected s) eqn:Ec; injection H as <- _ _; [reflexivity | exact Ec].
Qed.

Lemma mount_and_unmount_are_idempotent_witness :
  let ops := HostLab.host (inl [HostLab.lun "0"]) HostLab.links_lun0 in
  ∃ s1 r1,
    MountStorage ops 31 (HostLab.iscsi_storage 0) HostLab.start = (Some (s1, None), r1)
    ∧ length (issued r1) = 2%nat
    ∧ MountStorage ops 31 s1 r1 = (Some (s1, None), r1)
    ∧ UnmountStorage ops (HostLab.iscsi_storage 0) HostLab.start
      = ((HostLab.iscsi_storage 0, None), HostLab.start).
Proof.
  intros ops.
  destruct (mount_and_unmount_are_idempotent ops) as (_ & Hagain & Hunmount & _).
  eexists _, _. split; [vm_compute; reflexivity|]. split; [reflexivity|].
  split.
  - eapply (Hagain 31%nat 31%nat (HostLab.iscsi_storage 0) HostLab.start).
    vm_compute. reflexivity.
  - apply Hunmount. reflexivity.
Defined.

End Idempotence.

Module StorageInfo.

Import GoString Storageman SIscsiStorage.

(** C10. SetStorageInfo assigns the storage id and name, and the raw
    dictionary when the configuration is one, before it unmarshals the
    configuration; when it returns an error the instance keeps the id and
    name just passed (and that dictionary) instead of its earlier values,
    and the error wraps the unmarshal failure. *)
Theorem SetStorageInfo_error_leaves_instance_partially_configured
    Unmarshal s storageId storageName conf s' err :
  SetStorageInfo Unmarshal s storageId storageName conf = (s', Some err) →
  StorageId s' = storageId
  ∧ StorageName s' = storageName
  ∧ (∀ d, conf = Some (JDict d) → StorageConf s' = Some d)
  ∧ ∃ c cause,
      conf = Some c
      ∧ Unmarshal c (SIscsiStorage.conf s) = (SIscsiStorage.conf s', Some cause)
      ∧ err = Errors.Wrapf cause "unmarshal iSCSI storage config".
Proof.
  unfold SetStorageInfo. destruct conf as [c|]; [|discriminate].
  destruct c as [d|v]; simpl.
  - destruct (Unmarshal (JDict d) (SIscsiStorage.conf s)) as [filled [cause|]] eqn:Eu;
      [|discriminate].
    intros H. injection H as <- <-. simpl. repeat split.
    + intros d' E. injection E as ->. reflexivity.
    + exists (JDict d), cause. auto.
  - destruct (Unmarshal (JValue v) (SIscsiStorage.conf s)) as [filled [cause|]] eqn:Eu;
      [|discriminate].
    intros H. injection H as <- <-. simpl. repeat split.
    + intros d' E. discriminate E.
    + exists (JValue v), cause. auto.
Qed.

Lemma SetStorageInfo_error_leaves_instance_partially_configured_witness :
  ∃ s' err,
    SetStorageInfo HostLab.Unmarshal (HostLab.iscsi_storage 0) "new-id" "new-name"
      (Some (JDict HostLab.bad_conf)) = (s', Some err)
    ∧ StorageId (HostLab.iscsi_storage 0) = "test-storage-id"
    ∧ StorageId s' = "new-id" ∧ StorageName s' = "new-name"
    ∧ StorageConf s' = Some HostLab.bad_conf.
Proof.
  eexists _, _. split; [vm_compute; reflexivity|].
  destruct (SetStorageInfo_error_leaves_instance_partially_configured
              HostLab.Unmarshal (HostLab.iscsi_storage 0) "new-id" "new-name"
              (Some (JDict HostLab.bad_conf)) _ _ eq_refl) as (Hid & Hname & Hconf & _).
  split; [reflexivity|]. split; [exact Hid|]. split; [exact Hname|].
  apply (Hconf HostLab.bad_conf). reflexivity.
Defined.

End StorageInfo.

(** ** PostCreate: cache reconciliation *)

Module ReconcileFacts.

Import GoString GoStringFacts Api Models SIscsiStorageDriver Reconcile.

Lemma len_positive s : (len s >? 0) = true ↔ s ≠ "".
Proof.
  destruct s as [|a s]; unfold len; simpl.
  - split; [discriminate | congruence].
  - split; [intros _; discriminate | reflexivity].
Qed.

Lemma sibling_test storage x :
  (String.eqb (Jsonutils.GetString (SStorage.StorageConf storage) "target")
              (Jsonutils.GetString (SStorage.StorageConf x) "target")
   && String.eqb (Jsonutils.GetString (SStorage.StorageConf storage) "iqn")
                 (Jsonutils.GetString (SStorage.StorageConf x) "iqn")
   && String.eqb (Jsonutils.GetString (SStorage.StorageConf storage) "portal")
                 (Jsonutils.GetString (SStorage.StorageConf x) "portal")
   && (len (SStorage.StoragecacheId x) >? 0)) = true
  ↔ cache_identity x = cache_identity storage ∧ SStorage.StoragecacheId x ≠ "".
Proof.
  unfold cache_identity. rewrite !andb_true_iff, !String.eqb_eq, len_positive. split.
  - intros [[[-> ->] ->] H]. auto.
  - intros [E H]. injection E as -> -> ->. auto.
Qed.

Lemma PostCreate_sibling_cons storage x rest :
  PostCreate_sibling storage (x :: rest) =
    if decide (candidate storage x) then Some x else PostCreate_sibling storage rest.
Proof.
  simpl. destruct (String.eqb (SStorage.Id x) (SStorage.Id storage)) eqn:Eid.
  - apply String.eqb_eq in Eid.
    destruct (decide (candidate storage x)) as [[Hne _]|_]; [contradiction | reflexivity].
  - apply String.eqb_neq in Eid.
    destruct (_ && _) eqn:Et.
    + apply sibling_test in Et as [Hi Hc].
      destruct (decide (candidate storage x)) as [_|Hn]; [reflexivity|].
      exfalso. apply Hn. repeat split; assumption.
    + destruct (decide (candidate storage x)) as [(_ & Hi & Hc)|_]; [|reflexivity].
      assert (Ht : true = false) by (rewrite <- Et; symmetry; apply sibling_test; auto).
      discriminate Ht.
Qed.

Lemma PostCreate_sibling_none storage l :
  (∀ x, x ∈ l → ¬ candidate storage x) → PostCreate_sibling storage l = None.
Proof.
  induction l as [|x l IH]; intros H; [reflexivity|].
  rewrite PostCreate_sibling_cons.
  destruct (decide (candidate storage x)) as [Hc|_].
  - exfalso. apply (H x); [apply elem_of_cons; auto | exact Hc].
  - apply IH. intros y Hy. apply H, elem_of_cons. auto.
Qed.

Lemma PostCreate_sibling_first storage l1 x l2 :
  (∀ y, y ∈ l1 → ¬ candidate storage y) → candidate storage x →
  PostCreate_sibling storage (l1 ++ x :: l2) = Some x.
Proof.
  induction l1 as [|y l1 IH]; intros H Hx.
  - simpl app. rewrite PostCreate_sibling_cons.
    destruct (decide (candidate storage x)); [reflexivity | contradiction].
  - change ((y :: l1) ++ x :: l2) with (y :: (l1 ++ x :: l2)).
    rewrite PostCreate_sibling_cons.
    destruct (decide (candidate storage y)) as [Hc|_].
    + exfalso. apply (H y); [apply elem_of_cons; auto | exact Hc].
    + apply IH; [|exact Hx]. intros z Hz. apply H, elem_of_cons. auto.
Qed.

Lemma write_row_absent s l :
  (∀ x, x ∈ l → SStorage.Id x ≠ SStorage.Id s) → write_row s l = l.
Proof.
  induction l as [|x l IH]; intros H; [reflexivity|]. unfold write_row in *. simpl.
  rewrite IH by (intros y Hy; apply H, elem_of_cons; auto).
  assert (Hx : SStorage.Id x ≠ SStorage.Id s) by (apply H, elem_of_cons; auto).
  apply String.eqb_neq in Hx. rewrite Hx. reflexivity.
Qed.

Lemma write_row_last s s' l :
  SStorage.Id s = SStorage.Id s' →
  (∀ x, x ∈ l → SStorage.Id x ≠ SStorage.Id s) →
  write_row s' (l ++ [s]) = l ++ [s'].
Proof.
  intros Hid H. unfold write_row. rewrite map_app. simpl.
  fold (write_row s' l). rewrite write_row_absent by (rewrite <- Hid; exact H).
  rewrite Hid, String.eqb_refl. reflexivity.
Qed.

(** the two branches taken by a record without a cache *)
Lemma PostCreate_provisions p dir db storage :
  no_faults p →
  SStorage.StoragecacheId storage = "" →
  PostCreate_sibling storage (filter (fun s => is_iscsi s = true) (storages db)) = None →
  PostCreate p dir db storage =
    let id := new_id p (storagecaches db) in
    let storage' :=
      SStorage.set_Status (SStorage.set_StoragecacheId storage id) STORAGE_ONLINE in
    ({| storages := write_row storage' (storages db);
        storagecaches := storagecaches db ++
          [ {| SStoragecache.Id := id;
               SStoragecache.Name := ("iscsi-cache-" +:+ SStorage.Id storage);
               SStoragecache.Path := dir;
               SStoragecache.ExternalId := SStorage.Id storage |} ] |},
     storage').
Proof.
  intros (Hf & Hi & Hu) Hc Hs. unfold PostCreate.
  rewrite Hc. simpl. unfold FetchModelObjects. rewrite Hf, Hs.
  unfold Insert. rewrite Hi. unfold Update. rewrite Hu. reflexivity.
Qed.

Lemma PostCreate_adopts p dir db storage sibling :
  no_faults p →
  SStorage.StoragecacheId storage = "" →
  PostCreate_sibling storage (filter (fun s => is_iscsi s = true) (storages db))
    = Some sibling →
  PostCreate p dir db storage =
    let storage' :=
      SStorage.set_Status
        (SStorage.set_StoragecacheId storage (SStorage.StoragecacheId sibling))
        STORAGE_ONLINE in
    ({| storages := write_row storage' (storages db);
        storagecaches := storagecaches db |},
     storage').
Proof.
  intros (Hf & Hi & Hu) Hc Hs. unfold PostCreate.
  rewrite Hc. simpl. unfold FetchModelObjects. rewrite Hf, Hs.
  unfold Update. rewrite Hu. reflexivity.
Qed.

(** without persistence failures every branch leaves the record online *)
Lemma PostCreate_online p dir db storage :
  no_faults p → SStorage.Status (snd (PostCreate p dir db storage)) = STORAGE_ONLINE.
Proof.
  intros (Hf & Hi & Hu). unfold PostCreate, FetchModelObjects, Insert, Update.
  rewrite Hf, Hi, Hu.
  destruct (len (SStorage.StoragecacheId storage) >? 0); [reflexivity|].
  destruct (PostCreate_sibling storage _); reflexivity.
Qed.

End ReconcileFacts.

Module ReconcileSteps.

Import GoString GoStringFacts Api Models SIscsiStorageDriver Reconcile ReconcileFacts.

(** a new record with no cached sibling gets a cache record of its own *)
Lemma create_and_reconcile_provisions p dir db s :
  no_faults p → just_created db s →
  (∀ x, x ∈ storages db → is_iscsi x = true → ¬ candidate s x) →
  create_and_reconcile p dir db s =
    let id := new_id p (storagecaches db) in
    ({| storages := storages db ++ [reconciled s id];
        storagecaches := storagecaches db ++ [cache_for s id dir] |},
     reconciled s id).
Proof.
  intros Hp (Hi & Hc & Hid) Hnone. unfold create_and_reconcile.
  rewrite (PostCreate_provisions p dir (create_storage db s) s Hp Hc).
  - simpl. rewrite (write_row_last s); [reflexivity | reflexivity | exact Hid].
  - apply PostCreate_sibling_none. intros x Hx.
    apply list_elem_of_filter in Hx as [Hxi Hx]. simpl in Hx.
    apply elem_of_app in Hx as [Hx|Hx]; [exact (Hnone x Hx Hxi)|].
    apply list_elem_of_singleton in Hx as ->. intros [Hne _]. congruence.
Qed.

(** a new record adopts the cache of the first stored candidate *)
Lemma create_and_reconcile_adopts p dir db s l1 x l2 :
  no_faults p → just_created db s →
  storages db = l1 ++ x :: l2 →
  (∀ y, y ∈ l1 → is_iscsi y = true → ¬ candidate s y) →
  is_iscsi x = true → candidate s x →
  create_and_reconcile p dir db s =
    ({| storages := storages db ++ [reconciled s (SStorage.StoragecacheId x)];
        storagecaches := storagecaches db |},
     reconciled s (SStorage.StoragecacheId x)).
Proof.
  intros Hp (Hi & Hc & Hid) Hrows Hnone Hxi Hx. unfold create_and_reconcile.
  rewrite (PostCreate_adopts p dir (create_storage db s) s x Hp Hc).
  - simpl. rewrite (write_row_last s); [reflexivity | reflexivity | exact Hid].
  - simpl. rewrite Hrows, <- app_assoc. simpl. rewrite filter_app, filter_cons_True by exact Hxi.
    apply PostCreate_sibling_first; [|exact Hx].
    intros y Hy. apply list_elem_of_filter in Hy as [Hyi Hy]. exact (Hnone y Hy Hyi).
Qed.

End ReconcileSteps.

Module CacheSharing.

Import GoString GoStringFacts Api Models SIscsiStorageDriver Reconcile ReconcileFacts
  ReconcileSteps.

(** C4. Two storage records with the same (target, iqn, portal), whatever
    their lunId, created and reconciled one after the other, reference the
    same cache record; a third record with a different portal is given a
    newly inserted cache record of its own; and without persistence
    failures PostCreate leaves the record online in every branch. *)
Theorem PostCreate_shares_cache_by_target_iqn_portal p dir db A B C :
  no_faults p → fresh_ids p →
  just_created db A → just_created db B → just_created db C →
  SStorage.Id A ≠ SStorage.Id B → SStorage.Id A ≠ SStorage.Id C →
  SStorage.Id B ≠ SStorage.Id C →
  cache_identity A = cache_identity B →
  Jsonutils.GetString (SStorage.StorageConf C) "portal"
    ≠ Jsonutils.GetString (SStorage.StorageConf A) "portal" →
  no_cached_sibling db A → no_cached_sibling db C →
  let '(db1, A') := create_and_reconcile p dir db A in
  let '(db2, B') := create_and_reconcile p dir db1 B in
  let '(db3, C') := create_and_reconcile p dir db2 C in
  (SStorage.StoragecacheId A' = SStorage.StoragecacheId B'
   ∧ SStorage.StoragecacheId A' ≠ "")
  ∧ (SStorage.StoragecacheId C' ≠ SStorage.StoragecacheId A'
     ∧ ∃ sc, (sc ∈ storagecaches db3) ∧ (sc ∉ storagecaches db2)
             ∧ SStoragecache.Id sc = SStorage.StoragecacheId C'
             ∧ SStoragecache.ExternalId sc = SStorage.Id C)
  ∧ (SStorage.Status A' = STORAGE_ONLINE ∧ SStorage.Status B' = STORAGE_ONLINE
     ∧ SStorage.Status C' = STORAGE_ONLINE)
  ∧ storages db3 = storages db ++ [A'; B'; C']
  ∧ ∀ db' s, SStorage.Status (snd (PostCreate p dir db' s)) = STORAGE_ONLINE.
Proof.
  intros Hp Hfresh HA HB HC HAB HAC HBC Hsame Hportal HnoA HnoC.
  pose proof HA as (HAi & HAc & HAid). pose proof HB as (HBi & HBc & HBid).
  pose proof HC as (HCi & HCc & HCid).
  set (c1 := new_id p (storagecaches db)).
  destruct (Hfresh (storagecaches db)) as [Hc1 _]. fold c1 in Hc1.
  (* A: no candidate, a cache record is provisioned *)
  rewrite (create_and_reconcile_provisions p dir db A Hp HA).
  2:{ intros x Hx Hxi (_ & Hi & Hc). exact (Hc (HnoA x Hx Hxi Hi)). }
  cbv beta iota zeta. fold c1.
  set (A' := reconciled A c1).
  set (db1 := {| storages := storages db ++ [A'];
                 storagecaches := storagecaches db ++ [cache_for A c1 dir] |}).
  (* B: the first candidate is A *)
  assert (HB1 : just_created db1 B).
  { repeat split; [exact HBi | exact HBc|]. intros x Hx. simpl in Hx.
    apply elem_of_app in Hx as [Hx|Hx]; [exact (HBid x Hx)|].
    apply list_elem_of_singleton in Hx as ->. exact HAB. }
  rewrite (create_and_reconcile_adopts p dir db1 B (storages db) A' [] Hp HB1).
  2:{ reflexivity. }
  2:{ intros y Hy Hyi (_ & Hi & Hc). rewrite <- Hsame in Hi. exact (Hc (HnoA y Hy Hyi Hi)). }
  2:{ exact HAi. }
  2:{ repeat split; [exact HAB | exact Hsame | exact Hc1]. }
  cbv beta iota zeta.
  change (SStorage.StoragecacheId A') with c1.
  set (B' := reconciled B c1).
  set (db2 := {| storages := storages db1 ++ [B']; storagecaches := storagecaches db1 |}).
  (* C: the portal differs from A's and B's, a second cache record *)
  assert (HC2 : just_created db2 C).
  { repeat split; [exact HCi | exact HCc|]. intros x Hx. simpl in Hx.
    rewrite !elem_of_app, !list_elem_of_singleton in Hx.
    destruct Hx as [[Hx| ->]| ->]; [exact (HCid x Hx) | exact HAC | exact HBC]. }
  rewrite (create_and_reconcile_provisions p dir db2 C Hp HC2).
  2:{ intros x Hx Hxi (_ & Hi & Hc). simpl in Hx.
      rewrite !elem_of_app, !list_elem_of_singleton in Hx.
      destruct Hx as [[Hx| ->]| ->].
      - exact (Hc (HnoC x Hx Hxi Hi)).
      - unfold cache_identity in Hi. simpl in Hi. injection Hi as _ _ Hi. congruence.
      - unfold cache_identity in Hi, Hsame. simpl in Hi.
        injection Hi as _ _ Hi. injection Hsame as _ _ Hs. congruence. }
  cbv beta iota zeta.
  set (c2 := new_id p (storagecaches db2)).
  destruct (Hfresh (storagecaches db2)) as [Hc2 Hnew]. fold c2 in Hc2, Hnew.
  assert (Hc12 : c2 ≠ c1).
  { intros E. apply (Hnew (cache_for A c1 dir)); [|symmetry; exact E].
    simpl. apply elem_of_app. right. apply list_elem_of_singleton. reflexivity. }
  repeat split; try reflexivity; try assumption.
  - exists (cache_for C c2 dir). simpl. repeat split.
    + apply elem_of_app. right. apply list_elem_of_singleton. reflexivity.
    + intros Hin. exact (Hnew _ Hin eq_refl).
  - simpl. rewrite <- !app_assoc. reflexivity.
  - intros db' s. apply PostCreate_online. exact Hp.
Qed.

End CacheSharing.

Module CacheSharingExample.

Import GoString Api Models SIscsiStorageDriver Reconcile.

Lemma length_zeros n : String.length (Lab.zeros n) = n.
Proof. induction n as [|n IH]; simpl; congruence. Qed.

Lemma longest_bound c l :
  c ∈ l → (String.length (SStoragecache.Id c) ≤ Lab.longest l)%nat.
Proof.
  induction l as [|x l IH]; intros H; [by apply elem_of_nil in H|].
  apply elem_of_cons in H as [->|H]; simpl; [lia|]. specialize (IH H). lia.
Qed.

Lemma lab_ids_fresh : fresh_ids Lab.persistence.
Proof.
  intros l. split; [discriminate|]. intros c Hc E.
  apply longest_bound in Hc. rewrite E in Hc.
  change (new_id Lab.persistence l)
    with (String "s" (String "c" (String "-" (Lab.zeros (Lab.longest l))))) in Hc.
  cbn [String.length] in Hc. rewrite length_zeros in Hc. lia.
Qed.

Lemma PostCreate_shares_cache_by_target_iqn_portal_witness :
  let A := Lab.storage "a" "192.168.1.100:3260" 0 in
  let B := Lab.storage "b" "192.168.1.100:3260" 1 in
  let C := Lab.storage "c" "192.168.1.101:3260" 0 in
  let '(db1, A') := create_and_reconcile Lab.persistence "/image_cache" Lab.one_storage_db A in
  let '(db2, B') := create_and_reconcile Lab.persistence "/image_cache" db1 B in
  let '(db3, C') := create_and_reconcile Lab.persistence "/image_cache" db2 C in
  SStorage.StoragecacheId A' = SStorage.StoragecacheId B'
  ∧ SStorage.StoragecacheId A' ≠ ""
  ∧ SStorage.StoragecacheId C' ≠ SStorage.StoragecacheId A'
  ∧ SStorage.Status C' = STORAGE_ONLINE.
Proof.
  intros A B C.
  assert (Hnew : ∀ s, SStorage.Id s ≠ "s1" → is_iscsi s = true →
                      SStorage.StoragecacheId s = "" → just_created Lab.one_storage_db s).
  { intros s Hid Hi Hc. repeat split; [exact Hi | exact Hc|].
    intros x Hx. apply list_elem_of_singleton in Hx as ->. simpl. congruence. }
  assert (Hnone : ∀ s, no_cached_sibling Lab.one_storage_db s).
  { intros s x Hx _ _. apply list_elem_of_singleton in Hx as ->. reflexivity. }
  pose proof (CacheSharing.PostCreate_shares_cache_by_target_iqn_portal
                Lab.persistence "/image_cache" Lab.one_storage_db A B C) as H.
  destruct (create_and_reconcile Lab.persistence "/image_cache" Lab.one_storage_db A)
    as [db1 A'].
  destruct (create_and_reconcile Lab.persistence "/image_cache" db1 B) as [db2 B'].
  destruct (create_and_reconcile Lab.persistence "/image_cache" db2 C) as [db3 C'].
  destruct H as ((Hshare & Hne) & (Hown & _) & (_ & _ & Honline) & _).
  - repeat split; reflexivity.
  - exact lab_ids_fresh.
  - apply Hnew; [discriminate | reflexivity | reflexivity].
  - apply Hnew; [discriminate | reflexivity | reflexivity].
  - apply Hnew; [discriminate | reflexivity | reflexivity].
  - discriminate.
  - discriminate.
  - discriminate.
  - vm_compute. reflexivity.
  - vm_compute. discriminate.
  - apply Hnone.
  - apply Hnone.
  - auto.
Defined.

End CacheSharingExample.

(** * Further properties of the driver *)

Module AuthParams.

Import GoString GoStringFacts SIscsiStorageDriver Texts.

Lemma ContainsAny_false s chars :
  ContainsAny s chars = false ↔ ∀ c, c ∈ bytes s → mem_byte c (bytes chars) = false.
Proof.
  unfold ContainsAny. induction (bytes s) as [|a l IH]; simpl.
  - split; [intros _ c Hc; by apply elem_of_nil in Hc | reflexivity].
  - rewrite orb_false_iff, IH. split.
    + intros [Ha Hl] c Hc. apply elem_of_cons in Hc as [->|Hc]; auto.
    + intros Hall. split; [apply Hall, elem_of_cons; auto|].
      intros c Hc. apply Hall, elem_of_cons. auto.
Qed.

Lemma len_gt_zero s : (len s >? 0) = negb (len s =? 0).
Proof. unfold len. destruct s; reflexivity. Qed.

(** X1. validateAuthParams returns nil exactly when both texts are empty, or
    both are present, neither exceeds 255 bytes and the username holds no
    space, tab, line feed or carriage return. *)
Theorem validateAuthParams_accepts_iff username password :
  validateAuthParams username password = None ↔
    (username = "" ∧ password = "")
    ∨ (username ≠ "" ∧ password ≠ ""
       ∧ len username ≤ 255 ∧ len password ≤ 255
       ∧ ∀ c, c ∈ bytes username → mem_byte c (bytes whitespace) = false).
Proof.
  unfold validateAuthParams. rewrite !len_gt_zero.
  destruct (len username =? 0) eqn:Eu; destruct (len password =? 0) eqn:Ep; simpl.
  - apply len_zero in Eu, Ep. subst. split; [auto | reflexivity].
  - apply len_zero in Eu. subst. split; [discriminate|].
    intros [[_ ->]|(Hu & _)]; [discriminate Ep | congruence].
  - apply len_zero in Ep. subst. split; [discriminate|].
    intros [[-> _]|(_ & Hp & _)]; [discriminate Eu | congruence].
  - assert (Hu : username ≠ "") by (intros ->; discriminate Eu).
    assert (Hp : password ≠ "") by (intros ->; discriminate Ep).
    fold whitespace.
    destruct (len username >? 255) eqn:Lu.
    { split; [discriminate|]. intros [[? _]|(_ & _ & H & _)]; [contradiction | lia]. }
    destruct (ContainsAny username whitespace) eqn:Ec.
    { split; [discriminate|]. intros [[? _]|(_ & _ & _ & _ & H)]; [contradiction|].
      pose proof (proj2 (ContainsAny_false username whitespace) H). congruence. }
    destruct (len password >? 255) eqn:Lp.
    { split; [discriminate|]. intros [[? _]|(_ & _ & _ & H & _)]; [contradiction | lia]. }
    split; [|reflexivity]. intros _. right.
    repeat split; try assumption; try lia.
    exact (proj1 (ContainsAny_false username whitespace) Ec).
Qed.

End AuthParams.

Module PortalProbe.

Import GoString GoStringFacts SIscsiStorageDriver.

Lemma last_index_none i c s :
  Net.index_byte_from i c s = None → Net.last_index_byte_from i c s = None.
Proof.
  revert i. induction s as [|a s IH]; intros i; simpl; [reflexivity|].
  destruct (Ascii.eqb a c); [discriminate|]. intros H. rewrite (IH _ H). reflexivity.
Qed.

Lemma validatePortalAddress_accepted net portal :
  validatePortalAddress net portal = None →
  ∃ host portStr port,
    Net.SplitHostPort portal = Ok (host, portStr)
    ∧ Net.ParseIP net host = true
    ∧ Strconv.Atoi portStr = Ok port
    ∧ 1 ≤ port ≤ 65535.
Proof.
  unfold validatePortalAddress.
  destruct (len portal =? 0); [discriminate|].
  destruct (Net.SplitHostPort portal) as [[host portStr]|e]; [|discriminate].
  destruct (Net.ParseIP net host) eqn:Hip; simpl; [|discriminate].
  destruct (Strconv.Atoi portStr) as [port|e] eqn:Ha; [|discriminate].
  destruct (port <? 1) eqn:Hlo; simpl; [discriminate|].
  destruct (port >? 65535) eqn:Hhi; [discriminate|].
  intros _. exists host, portStr, port.
  repeat split; try reflexivity; try assumption; lia.
Qed.

(** X2. A portal accepted by validatePortalAddress splits into a host that
    ParseIP accepts and a port between 1 and 65535, and the reachability
    probe on it cannot fail before dialing: its outcome is that of the dial
    to host and port joined again. *)
Theorem validated_portal_probe_fails_only_by_dial net portal :
  validatePortalAddress net portal = None →
  ∃ host portStr port,
    Net.SplitHostPort portal = Ok (host, portStr)
    ∧ Net.ParseIP net host = true
    ∧ Strconv.Atoi portStr = Ok port
    ∧ 1 ≤ port ≤ 65535
    ∧ dial_portal net portal =
        match Net.DialTimeout net (Net.JoinHostPort host (Strconv.Itoa port)) with
        | Some err =>
            Some ("failed to connect to iSCSI portal " +:+ portal +:+ ": " +:+ err)
        | None => None
        end.
Proof.
  intros H. apply validatePortalAddress_accepted in H
    as (host & portStr & port & Hs & Hh & Ha & Hr).
  exists host, portStr, port. repeat split; try assumption; try lia.
  unfold dial_portal. rewrite Hs, Ha. reflexivity.
Qed.

Lemma validated_portal_probe_fails_only_by_dial_witness :
  dial_portal Lab.net "192.168.1.100:3260" = None
  ∧ dial_portal Lab.net "192.168.1.100:03261"
    = Some "failed to connect to iSCSI portal 192.168.1.100:03261: connect: connection refused".
Proof.
  split.
  - destruct (validated_portal_probe_fails_only_by_dial Lab.net "192.168.1.100:3260")
      as (host & portStr & port & Hs & _ & Ha & _ & ->); [reflexivity|].
    vm_compute in Hs. injection Hs as <- <-. vm_compute in Ha. injection Ha as <-.
    reflexivity.
  - destruct (validated_portal_probe_fails_only_by_dial Lab.net "192.168.1.100:03261")
      as (host & portStr & port & Hs & _ & Ha & _ & ->); [reflexivity|].
    vm_compute in Hs. injection Hs as <- <-. vm_compute in Ha. injection Ha as <-.
    reflexivity.
Defined.

(** X3. A portal without a colon is refused by validatePortalAddress and by
    the probe on every network: no ParseIP answer can save it and nothing
    is dialed. *)
Theorem portal_without_colon_is_refused net portal :
  Net.IndexByte portal ":" = None →
  validatePortalAddress net portal ≠ None
  ∧ dial_portal net portal
    = Some ("failed to parse portal address: "
            +:+ Net.addrErr portal "missing port in address").
Proof.
  intros Hc. apply last_index_none in Hc.
  unfold validatePortalAddress, dial_portal, Net.SplitHostPort, Net.LastIndexByte.
  rewrite Hc. split; [|reflexivity].
  destruct (len portal =? 0); discriminate.
Qed.

Lemma portal_without_colon_is_refused_witness :
  validatePortalAddress Lab.net "192.168.1.100" ≠ None.
Proof.
  apply (portal_without_colon_is_refused Lab.net "192.168.1.100"). reflexivity.
Defined.

End PortalProbe.

Module SubstringFacts.

Import GoString GoStringFacts.

Lemma substring_all s : String.substring 0 (String.length s) s = s.
Proof. induction s as [|c s IH]; simpl; congruence. Qed.

Lemma get_lt n s c : String.get n s = Some c → (n < String.length s)%nat.
Proof.
  revert n. induction s as [|a s IH]; intros n; simpl; [discriminate|].
  destruct n as [|n]; [lia|]. intros H. apply IH in H. lia.
Qed.

(** the text from position [n] on starts with the byte at [n] *)
Lemma substring_head n s c :
  String.get n s = Some c →
  Net.slice_from s n = String c (Net.slice_from s (S n)).
Proof.
  unfold Net.slice_from. revert n. induction s as [|a s IH]; intros n; [discriminate|].
  destruct n as [|n].
  - simpl. intros H. injection H as ->. rewrite substring_all.
    destruct s; simpl; [reflexivity | rewrite substring_all; reflexivity].
  - intros H. change (String.get n s = Some c) in H.
    change (String.substring n (String.length s - n) s
            = String c (String.substring (S n) (String.length s - S n) s)).
    apply IH. exact H.
Qed.

Lemma substring_split n s :
  (n ≤ String.length s)%nat → s = Net.slice s 0 n +:+ Net.slice_from s n.
Proof.
  unfold Net.slice, Net.slice_from. rewrite Nat.sub_0_r.
  revert n. induction s as [|a s IH]; intros n Hn.
  - destruct n; [reflexivity | simpl in Hn; lia].
  - destruct n as [|n].
    + simpl. rewrite substring_all. reflexivity.
    + simpl in Hn.
      change (String a s
              = String a (String.substring 0 n s
                          +:+ String.substring n (String.length s - n) s)).
      f_equal. apply IH. lia.
Qed.

Lemma split_at n s c :
  String.get n s = Some c →
  s = Net.slice s 0 n +:+ String c (Net.slice_from s (S n)).
Proof.
  intros H. rewrite <- (substring_head n s c H).
  apply substring_split. apply get_lt in H. lia.
Qed.

Lemma index_byte_from_get k c s i :
  Net.index_byte_from k c s = Some i → (k ≤ i)%nat ∧ String.get (i - k) s = Some c.
Proof.
  revert k. induction s as [|a s IH]; intros k; simpl; [discriminate|].
  destruct (Ascii.eqb a c) eqn:E.
  - intros H. injection H as <-. apply Ascii.eqb_eq in E as ->.
    rewrite Nat.sub_diag. auto.
  - intros H. apply IH in H as [Hk Hg]. split; [lia|].
    replace (i - k)%nat with (S (i - S k)) by lia. exact Hg.
Qed.

Lemma last_index_byte_from_get k c s i :
  Net.last_index_byte_from k c s = Some i → (k ≤ i)%nat ∧ String.get (i - k) s = Some c.
Proof.
  revert k. induction s as [|a s IH]; intros k; simpl; [discriminate|].
  destruct (Net.last_index_byte_from (S k) c s) as [j|] eqn:El.
  - intros H. injection H as <-. apply IH in El as [Hk Hg]. split; [lia|].
    replace (j - k)%nat with (S (j - S k)) by lia. exact Hg.
  - destruct (Ascii.eqb a c) eqn:E; [|discriminate].
    intros H. injection H as <-. apply Ascii.eqb_eq in E as ->.
    rewrite Nat.sub_diag. auto.
Qed.

Lemma has_prefix_byte c s :
  has_prefix (String c "") s = true → ∃ rest, s = String c rest.
Proof.
  destruct s as [|a rest]; [discriminate|]. unfold has_prefix.
  destruct (Ascii.eqb_spec c a) as [->|]; [eauto | discriminate].
Qed.

(** net.SplitHostPort undone: the address is host:port, or [host]:port *)
Lemma SplitHostPort_shape hostport host port :
  Net.SplitHostPort hostport = Ok (host, port) →
  hostport = host +:+ ":" +:+ port ∨ hostport = "[" +:+ host +:+ "]:" +:+ port.
Proof.
  unfold Net.SplitHostPort, Net.LastIndexByte, Net.IndexByte.
  destruct (Net.last_index_byte_from 0 ":" hostport) as [i|] eqn:Ei; [|discriminate].
  apply last_index_byte_from_get in Ei as [_ Gi]. rewrite Nat.sub_0_r in Gi.
  pose proof (split_at i hostport ":" Gi) as Hsplit.
  destruct (has_prefix "[" hostport) eqn:Hb.
  - destruct (Net.index_byte_from 0 "]" hostport) as [e|] eqn:Ee; [|discriminate].
    destruct (S e =? String.length hostport)%nat; [discriminate|].
    destruct (S e =? i)%nat eqn:Eei.
    2:{ destruct (has_prefix ":" _); discriminate. }
    apply Nat.eqb_eq in Eei. subst i.
    destruct (Net.found _); [discriminate|]. destruct (Net.found _); [discriminate|].
    intros H. injection H as <- <-. right.
    apply index_byte_from_get in Ee as [_ Ge]. rewrite Nat.sub_0_r in Ge.
    apply has_prefix_byte in Hb as [rest ->].
    destruct e as [|e]; [simpl in Ge; discriminate|].
    pose proof (split_at (S e) (String "[" rest) "]" Ge) as Hsplit2.
    rewrite (substring_head (S (S e)) (String "[" rest) ":" Gi) in Hsplit2.
    rewrite Hsplit2 at 1. unfold Net.slice.
    replace (S e - 0)%nat with (S e) by lia. replace (S e - 1)%nat with e by lia.
    reflexivity.
  - destruct (Net.found _); [discriminate|].
    destruct (Net.found _); [discriminate|]. destruct (Net.found _); [discriminate|].
    intros H. injection H as <- <-. left. exact Hsplit.
Qed.

End SubstringFacts.

Module TrimFacts.

Import GoString GoStringFacts Texts SIscsiStorageDriver.

(** ** Texts of ASCII characters other than white space *)

Lemma plain_app a b : plain_text a → plain_text b → plain_text (a +:+ b).
Proof.
  intros Ha Hb c Hc. rewrite bytes_app in Hc.
  apply elem_of_app in Hc as [Hc|Hc]; auto.
Qed.

Lemma plain_class p s :
  (∀ c, p c = true → plain c = true) → all_bytes p s = true → plain_text s.
Proof.
  intros Hp Hall c Hc. apply Hp. unfold all_bytes in Hall.
  rewrite forallb_forall in Hall. apply Hall. apply list_elem_of_In. exact Hc.
Qed.

Lemma digit_plain c : is_digit c = true → plain c = true.
Proof.
  destruct c as [[] [] [] [] [] [] [] []]; intros H; try discriminate H; reflexivity.
Qed.

Lemma authority_char_plain c : authority_char c = true → plain c = true.
Proof.
  destruct c as [[] [] [] [] [] [] [] []]; intros H; try discriminate H; reflexivity.
Qed.

Lemma name_char_plain c : name_char c = true → plain c = true.
Proof.
  destruct c as [[] [] [] [] [] [] [] []]; intros H; try discriminate H; reflexivity.
Qed.

Lemma plain_literal s : forallb plain (bytes s) = true → plain_text s.
Proof. intros H. apply (plain_class plain); [auto | exact H]. Qed.

Lemma validateIQN_plain iqn : validateIQN iqn = None → plain_text iqn.
Proof.
  intros H. apply IqnFacts.validateIQN_nil in H
    as [(y & m & a & n & -> & _ & Dy & _ & Dm & _ & Ca & _ & Cn) _].
  repeat apply plain_app;
    try (apply plain_literal; reflexivity).
  - exact (plain_class _ _ digit_plain Dy).
  - exact (plain_class _ _ digit_plain Dm).
  - exact (plain_class _ _ authority_char_plain Ca).
  - exact (plain_class _ _ name_char_plain Cn).
Qed.

Lemma digits_value_digits l : ∀ acc v,
  Strconv.digits_value acc l = Some v → ∀ c, c ∈ l → is_digit c = true.
Proof.
  induction l as [|a l IH]; intros acc v H c Hc; [by apply elem_of_nil in Hc|].
  simpl in H. destruct (is_digit a) eqn:Ea; [|discriminate].
  apply elem_of_cons in Hc as [->|Hc]; [exact Ea | exact (IH _ _ H c Hc)].
Qed.

Ltac digits_of H c Hc :=
  match type of H with
  | match ?ds with [] => _ | _ :: _ => _ end = Ok _ =>
      let Ed := fresh "Ed" in
      destruct ds; [discriminate H|];
      match type of H with
      | match Strconv.digits_value 0 ?l with Some _ => _ | None => _ end = Ok _ =>
          destruct (Strconv.digits_value 0 l) eqn:Ed; [|discriminate H];
          apply digit_plain; exact (digits_value_digits _ _ _ Ed c Hc)
      end
  end.

Lemma Atoi_plain s v : Strconv.Atoi s = Ok v → plain_text s.
Proof.
  unfold Strconv.Atoi, plain_text.
  destruct (bytes s) as [|a rest]; [discriminate|].
  destruct (Ascii.eqb_spec a "-") as [->|Hm].
  { intros H c Hc. apply elem_of_cons in Hc as [->|Hc]; [reflexivity|].
    digits_of H c Hc. }
  destruct (Ascii.eqb_spec a "+") as [->|Hpl].
  { intros H c Hc. apply elem_of_cons in Hc as [->|Hc]; [reflexivity|].
    digits_of H c Hc. }
  intros H c Hc.
  destruct (Strconv.digits_value 0 (a :: rest)) eqn:Ed; [|discriminate H].
  apply digit_plain. exact (digits_value_digits _ _ _ Ed c Hc).
Qed.

(** ** White space, in whatever encoding, is made of other bytes *)

Lemma high_not_plain c : in_range "128" "255" c = true → plain c = false.
Proof.
  destruct c as [[] [] [] [] [] [] [] []]; intros H; try discriminate H; reflexivity.
Qed.

Lemma space_not_plain c : is_space c = true → plain c = false.
Proof. intros H. unfold plain. rewrite H. apply andb_false_r. Qed.

Lemma space_encoding_bytes e :
  space_encoding e = true → e ≠ [] ∧ ∀ c, c ∈ e → plain c = false.
Proof.
  destruct e as [|a [|b [|c [|d e]]]]; simpl; try discriminate.
  - intros H. split; [discriminate|]. intros x Hx.
    apply list_elem_of_singleton in Hx as ->. apply space_not_plain, H.
  - unfold space2. intros H. split; [discriminate|].
    apply andb_true_iff in H as [Ha Hb]. apply Ascii.eqb_eq in Ha as ->.
    intros x Hx. apply elem_of_cons in Hx as [->|Hx]; [reflexivity|].
    apply list_elem_of_singleton in Hx as ->.
    apply orb_true_iff in Hb as [Hb|Hb]; apply Ascii.eqb_eq in Hb as ->; reflexivity.
  - unfold space3. intros H. split; [discriminate|].
    assert (Hhi : in_range "128" "255" a = true ∧ in_range "128" "255" b = true
                  ∧ in_range "128" "255" c = true).
    { repeat (apply orb_true_iff in H as [H|H]);
        repeat (apply andb_true_iff in H as [H ?]);
        repeat match goal with
               | E : Ascii.eqb _ _ = true |- _ => apply Ascii.eqb_eq in E; subst
               end;
        repeat split; try reflexivity.
      all: match goal with
           | E : in_range "128" "138" ?c = true |- in_range "128" "255" ?c = true =>
               revert E; destruct c as [[] [] [] [] [] [] [] []];
               intros E; try discriminate E; reflexivity
           | E : (_ || _)%bool = true |- _ =>
               repeat (apply orb_true_iff in E as [E|E]);
               try (apply Ascii.eqb_eq in E; subst; reflexivity);
               revert E; match goal with |- _ → in_range _ _ ?c = true =>
                 destruct c as [[] [] [] [] [] [] [] []] end;
               intros E; try discriminate E; reflexivity
           end. }
    destruct Hhi as (Ha & Hb & Hc).
    intros x Hx. apply high_not_plain.
    repeat (apply elem_of_cons in Hx as [->|Hx]; [assumption|]).
    by apply elem_of_nil in Hx.
Qed.

(** a sequence of other bytes that stands in [A ++ B], [B] being plain,
    stands in [A] *)
Lemma occurs_left (e post B : list ascii) :
  (∀ c, c ∈ e → plain c = false) → (∀ c, c ∈ B → plain c = true) → e ≠ [] →
  ∀ pre A, pre ++ e ++ post = A ++ B → ∃ post', A = pre ++ e ++ post'.
Proof.
  intros He HB Hne.
  assert (Hclash : ∀ x, x ∈ e → x ∈ B → False).
  { intros x Hx Hb. apply He in Hx. apply HB in Hb. congruence. }
  assert (Hhead : ∀ e' post A, (∀ c, c ∈ e' → c ∈ e) →
            e' ++ post = A ++ B → ∃ post', A = e' ++ post').
  { induction e' as [|x e' IH]; intros post0 A Hsub E; [eauto|].
    destruct A as [|y A].
    - exfalso. apply (Hclash x).
      + apply Hsub, elem_of_cons. auto.
      + simpl in E. rewrite <- E. apply elem_of_cons. auto.
    - injection E as -> E. destruct (IH post0 A) as [post' ->]; [|exact E|eauto].
      intros c Hc. apply Hsub, elem_of_cons. auto. }
  induction pre as [|p pre IH]; intros A E.
  - apply (Hhead e post A); auto.
  - destruct A as [|y A].
    + exfalso. destruct e as [|x e]; [congruence|].
      apply (Hclash x); [apply elem_of_cons; auto|].
      simpl in E. rewrite <- E. apply elem_of_cons. right.
      apply elem_of_app. right. apply elem_of_cons. auto.
    + injection E as -> E. destruct (IH A E) as [post' ->]. eauto.
Qed.

(** and one that stands in [A ++ B], [A] being plain, stands in [B] *)
Lemma occurs_right (e post B : list ascii) :
  (∀ c, c ∈ e → plain c = false) → e ≠ [] →
  ∀ A pre, (∀ c, c ∈ A → plain c = true) →
    pre ++ e ++ post = A ++ B → ∃ pre', B = pre' ++ e ++ post.
Proof.
  intros He Hne. induction A as [|y A IH]; intros pre HA E; [eauto|].
  destruct pre as [|p pre].
  - exfalso. destruct e as [|x e]; [congruence|].
    injection E as -> _.
    pose proof (He y ltac:(apply elem_of_cons; auto)) as H1.
    pose proof (HA y ltac:(apply elem_of_cons; auto)) as H2. congruence.
  - injection E as -> E. apply (IH pre); [|exact E].
    intros c Hc. apply HA, elem_of_cons. auto.
Qed.

Lemma plain_no_space s : plain_text s → no_space s.
Proof.
  intros Hs pre e post E.
  destruct (space_encoding e) eqn:He; [exfalso | reflexivity].
  apply space_encoding_bytes in He as [Hne He].
  destruct e as [|x e]; [congruence|].
  pose proof (He x ltac:(apply elem_of_cons; auto)) as H1.
  assert (H2 : plain x = true).
  { apply Hs. rewrite E. apply elem_of_app. right. apply elem_of_cons. auto. }
  congruence.
Qed.

Lemma no_space_plain_r a b : no_space a → plain_text b → no_space (a +:+ b).
Proof.
  intros Ha Hb pre e post E. rewrite bytes_app in E.
  destruct (space_encoding e) eqn:He; [exfalso | reflexivity].
  pose proof (space_encoding_bytes e He) as [Hne Hbytes].
  destruct (occurs_left e post (bytes b) Hbytes Hb Hne pre (bytes a) (eq_sym E))
    as [post' H].
  rewrite (Ha pre e post' H) in He. discriminate He.
Qed.

Lemma no_space_plain_l a b : plain_text a → no_space b → no_space (a +:+ b).
Proof.
  intros Ha Hb pre e post E. rewrite bytes_app in E.
  destruct (space_encoding e) eqn:He; [exfalso | reflexivity].
  pose proof (space_encoding_bytes e He) as [Hne Hbytes].
  destruct (occurs_right e post (bytes b) Hbytes Hne (bytes a) pre Ha (eq_sym E))
    as [pre' H].
  rewrite (Hb pre' e post H) in He. discriminate He.
Qed.

(** ** strings.TrimSpace leaves a text without white space as it is *)

Lemma trim_with_id two three l :
  match l with a :: _ => is_space a = false | [] => True end →
  match l with a :: b :: _ => two a b = false | _ => True end →
  match l with a :: b :: c :: _ => three a b c = false | _ => True end →
  trim_with two three l = l.
Proof.
  destruct l as [|a [|b [|c l]]]; simpl; intros H1 H2 H3; try reflexivity.
  - rewrite H1. reflexivity.
  - rewrite H1, H2. reflexivity.
  - rewrite H1, H2, H3. reflexivity.
Qed.

Lemma TrimSpace_no_space s : no_space s → TrimSpace s = s.
Proof.
  intros H. unfold TrimSpace, trim_left, trim_right_rev.
  rewrite (trim_with_id space2 space3 (bytes s)).
  - rewrite trim_with_id.
    + rewrite rev_involutive. apply of_list_bytes.
    + destruct (rev (bytes s)) as [|a l] eqn:E; [exact I|].
      apply (H (rev l) [a] []).
      rewrite <- (rev_involutive (bytes s)), E. reflexivity.
    + destruct (rev (bytes s)) as [|a [|b l]] eqn:E; try exact I.
      apply (H (rev l) [b; a] []).
      rewrite <- (rev_involutive (bytes s)), E. simpl.
      rewrite <- !app_assoc. reflexivity.
    + destruct (rev (bytes s)) as [|a [|b [|c l]]] eqn:E; try exact I.
      apply (H (rev l) [c; b; a] []).
      rewrite <- (rev_involutive (bytes s)), E. simpl.
      rewrite <- !app_assoc. reflexivity.
  - destruct (bytes s) as [|a l] eqn:E; [exact I|]. exact (H [] [a] l E).
  - destruct (bytes s) as [|a [|b l]] eqn:E; try exact I. exact (H [] [a; b] l E).
  - destruct (bytes s) as [|a [|b [|c l]]] eqn:E; try exact I.
    exact (H [] [a; b; c] l E).
Qed.

Lemma validateIQN_no_space iqn : validateIQN iqn = None → no_space iqn.
Proof. intros H. apply plain_no_space, validateIQN_plain, H. Qed.

(** an accepted portal holds no white space, provided ParseIP accepts none *)
Lemma validatePortalAddress_no_space net portal :
  (∀ s, Net.ParseIP net s = true → no_space s) →
  validatePortalAddress net portal = None → no_space portal.
Proof.
  intros Hip H.
  apply PortalProbe.validatePortalAddress_accepted in H
    as (host & portStr & port & Hs & Hh & Ha & _).
  apply Hip in Hh. apply Atoi_plain in Ha.
  apply SubstringFacts.SplitHostPort_shape in Hs as [-> | ->].
  - apply no_space_plain_r; [exact Hh|].
    apply plain_app; [apply plain_literal; reflexivity | exact Ha].
  - apply no_space_plain_l; [apply plain_literal; reflexivity|].
    apply no_space_plain_r; [exact Hh|].
    apply plain_app; [apply plain_literal; reflexivity | exact Ha].
Qed.

End TrimFacts.

Module LabFacts.

Import GoString GoStringFacts Texts TrimFacts.

Lemma append_snoc cur c s : (cur +:+ String c "") +:+ s = cur +:+ String c s.
Proof.
  induction cur as [|a cur IH]; [reflexivity|].
  change (String a ((cur +:+ String c "") +:+ s) = String a (cur +:+ String c s)).
  f_equal. exact IH.
Qed.

Lemma append_empty s : s +:+ "" = s.
Proof.
  induction s as [|a s IH]; [reflexivity|].
  change (String a (s +:+ "") = String a s). f_equal. exact IH.
Qed.

(** a text whose fields are plain is plain, the separator being so *)
Lemma fields_plain sep s : plain sep = true → ∀ cur,
  (∀ f, f ∈ Lab.fields sep cur s → plain_text f) → plain_text (cur +:+ s).
Proof.
  intros Hsep. induction s as [|c s IH]; intros cur H.
  - rewrite append_empty. apply H. simpl. apply list_elem_of_singleton. reflexivity.
  - simpl in H. destruct (Ascii.eqb_spec c sep) as [->|Hne].
    + apply plain_app; [apply H, elem_of_cons; auto|].
      change (String sep s) with (String sep "" +:+ ("" +:+ s)).
      apply plain_app.
      * intros x Hx. apply list_elem_of_singleton in Hx as ->. exact Hsep.
      * apply IH. intros f Hf. apply H, elem_of_cons. auto.
    + rewrite <- append_snoc. apply IH. exact H.
Qed.

Lemma octet_plain f : Lab.octet f = true → plain_text f.
Proof.
  unfold Lab.octet. destruct (Strconv.digits_value 0 (bytes f)) eqn:E; [|discriminate].
  intros _ c Hc. apply digit_plain. exact (digits_value_digits _ _ _ E c Hc).
Qed.

(** the IP literals of the installation's network hold no white space *)
Lemma ParseIP_no_space s : Net.ParseIP Lab.net s = true → no_space s.
Proof.
  simpl. intros H. apply plain_no_space.
  change s with ("" +:+ s). apply (fields_plain "."); [reflexivity|].
  destruct (Lab.fields "." "" s) as [|a [|b [|c [|d [|e l]]]]]; try discriminate H.
  apply andb_true_iff in H as [H Hd]. apply andb_true_iff in H as [H Hc].
  apply andb_true_iff in H as [Ha Hb].
  intros f Hf. repeat (apply elem_of_cons in Hf as [->|Hf]; [by apply octet_plain|]).
  by apply elem_of_nil in Hf.
Qed.

End LabFacts.

Module CreateOutcome.

Import GoString GoStringFacts Texts Api Models SIscsiStorageDriver CreateChecks CreateFacts
  TrimFacts.

Lemma Update_NewDict d : Jsonutils.Update Jsonutils.NewDict d = d.
Proof. unfold Jsonutils.Update, Jsonutils.NewDict. apply (right_id_L ∅ (∪)). Qed.

Lemma scan_none input l :
  checkDuplicateStorage_scan input l = None
  ↔ ∀ s, s ∈ l → stored_identity s ≠ input_identity input.
Proof.
  split.
  - intros Hn s Hs E.
    assert (Hd : Httperrors.is_duplicate (checkDuplicateStorage_scan input l) = true)
      by (apply DuplicateDetection.scan_duplicate; eauto).
    rewrite Hn in Hd. discriminate Hd.
  - intros Hall.
    destruct (DuplicateDetection.scan_nil_or_duplicate input l) as [H|H]; [exact H|].
    apply DuplicateDetection.scan_duplicate in H as (s & Hs & E).
    exfalso. exact (Hall s Hs E).
Qed.

(** the configuration of an accepted input *)
Lemma ValidateCreateData_accepted_conf net p db input input' :
  ValidateCreateData net p db input = (input', None) →
  StorageCreateInput.StorageConf input' = stored input.
Proof.
  intros H. pose proof (ValidateCreateData_accepted_fields _ _ _ _ _ H) as Hf.
  rewrite (ValidateCreateData_after_fields _ _ _ _ Hf) in H.
  destruct (checkDuplicateStorage p db (defaulted input)); [discriminate|].
  destruct (testIscsiConnection net (defaulted input)); [discriminate|].
  injection H as <-. simpl. apply Update_NewDict.
Qed.

(** the stored configuration of an input that passes the field checks
    reads back as the identity the duplicate check compares *)
Lemma stored_reads_back net input :
  (∀ s, Net.ParseIP net s = true → no_space s) →
  passes_field_validation net input →
  Jsonutils.GetString (stored input) "target" = StorageCreateInput.IscsiTarget input
  ∧ Jsonutils.GetString (stored input) "iqn" = StorageCreateInput.IscsiIqn input
  ∧ Jsonutils.GetString (stored input) "portal" = StorageCreateInput.IscsiPortal input
  ∧ Jsonutils.Int (stored input) "lun_id" = Z.max 0 (StorageCreateInput.IscsiLunId input).
Proof.
  intros Hip (_ & Hvt & _ & Hvi & _ & Hvp & _).
  assert (Ht : TrimSpace (StorageCreateInput.IscsiTarget input)
               = StorageCreateInput.IscsiTarget input).
  { apply TrimSpace_no_space, Hip. unfold validateTargetAddress in Hvt.
    destruct (len _ =? 0); [discriminate|].
    destruct (Net.ParseIP net _); [reflexivity | discriminate]. }
  assert (Hi : TrimSpace (StorageCreateInput.IscsiIqn input)
               = StorageCreateInput.IscsiIqn input)
    by (apply TrimSpace_no_space, validateIQN_no_space, Hvi).
  assert (Hp : TrimSpace (StorageCreateInput.IscsiPortal input)
               = StorageCreateInput.IscsiPortal input)
    by (apply TrimSpace_no_space, (validatePortalAddress_no_space net); assumption).
  unfold stored, IscsiStorageConf.Marshal. simpl. rewrite Ht, Hi, Hp.
  unfold Jsonutils.GetString, Jsonutils.Int.
  repeat split; by simplify_map_eq.
Qed.

(** X4. ValidateCreateData never leaves a half-written configuration: the text
    fields of the input are never altered; when an error is returned the
    configuration blob is the empty dictionary; on success it is exactly
    the six trimmed fields, lun_id being the lunId with a negative value
    replaced by 0. *)
Theorem ValidateCreateData_writes_configuration_only_on_success net p db input :
  let '(input', err) := ValidateCreateData net p db input in
  (StorageCreateInput.IscsiTarget input' = StorageCreateInput.IscsiTarget input
   ∧ StorageCreateInput.IscsiIqn input' = StorageCreateInput.IscsiIqn input
   ∧ StorageCreateInput.IscsiPortal input' = StorageCreateInput.IscsiPortal input
   ∧ StorageCreateInput.IscsiUsername input' = StorageCreateInput.IscsiUsername input
   ∧ StorageCreateInput.IscsiPassword input' = StorageCreateInput.IscsiPassword input)
  ∧ match err with
    | Some _ => StorageCreateInput.StorageConf input' = ∅
    | None =>
        StorageCreateInput.StorageConf input' = stored input
        ∧ StorageCreateInput.IscsiLunId input' = Z.max 0 (StorageCreateInput.IscsiLunId input)
    end.
Proof.
  destruct (len (StorageCreateInput.IscsiTarget input) =? 0) eqn:Ht;
    [unfold ValidateCreateData; simpl; rewrite Ht; simpl; auto 10|].
  destruct (validateTargetAddress net (StorageCreateInput.IscsiTarget input)) eqn:Hvt;
    [unfold ValidateCreateData; simpl; rewrite Ht, Hvt; simpl; auto 10|].
  destruct (len (StorageCreateInput.IscsiIqn input) =? 0) eqn:Hi;
    [unfold ValidateCreateData; simpl; rewrite Ht, Hvt, Hi; simpl; auto 10|].
  destruct (validateIQN (StorageCreateInput.IscsiIqn input)) eqn:Hvi;
    [unfold ValidateCreateData; simpl; rewrite Ht, Hvt, Hi, Hvi; simpl; auto 10|].
  destruct (len (StorageCreateInput.IscsiPortal input) =? 0) eqn:Hp;
    [unfold ValidateCreateData; simpl; rewrite Ht, Hvt, Hi, Hvi, Hp; simpl; auto 10|].
  destruct (validatePortalAddress net (StorageCreateInput.IscsiPortal input)) eqn:Hvp;
    [unfold ValidateCreateData; simpl; rewrite Ht, Hvt, Hi, Hvi, Hp, Hvp; simpl; auto 10|].
  destruct (validateAuthParams (StorageCreateInput.IscsiUsername input)
                               (StorageCreateInput.IscsiPassword input)) eqn:Hva;
    [unfold ValidateCreateData; simpl; rewrite Ht, Hvt, Hi, Hvi, Hp, Hvp, Hva; simpl;
     auto 10|].
  apply len_nonzero in Ht, Hi, Hp.
  rewrite (ValidateCreateData_after_fields net p db input) by (repeat split; assumption).
  destruct (checkDuplicateStorage p db (defaulted input)); [simpl; auto 10|].
  destruct (testIscsiConnection net (defaulted input)); [simpl; auto 10|].
  simpl. rewrite Update_NewDict. auto 10.
Qed.

(** X5. ValidateCreateData accepts an input exactly when the field checks
    pass, the stored iSCSI records can be read and none of them has the
    input's target, iqn, portal and (defaulted) lunId, and the portal
    answers the dial. *)
Theorem ValidateCreateData_accepts_iff net p db input :
  snd (ValidateCreateData net p db input) = None ↔
    passes_field_validation net input
    ∧ fetch_error p = None
    ∧ (∀ s, s ∈ storages db → is_iscsi s = true →
            stored_identity s ≠ input_identity (defaulted input))
    ∧ dial_portal net (StorageCreateInput.IscsiPortal input) = None.
Proof.
  split.
  - intros H.
    destruct (ValidateCreateData net p db input) as [input' err] eqn:E.
    simpl in H. subst err.
    pose proof (ValidateCreateData_accepted_fields _ _ _ _ _ E) as Hf.
    split; [exact Hf|].
    rewrite (ValidateCreateData_after_fields _ _ _ _ Hf) in E.
    unfold checkDuplicateStorage, FetchModelObjects in E.
    destruct (fetch_error p) as [e|]; [discriminate|]. split; [reflexivity|].
    destruct (checkDuplicateStorage_scan _ _) eqn:Es; [discriminate|].
    unfold testIscsiConnection in E. simpl in E.
    destruct (dial_portal net _) eqn:Ed; [discriminate|].
    split; [|reflexivity]. intros s Hs Hi.
    apply (proj1 (scan_none _ _) Es). apply list_elem_of_filter. auto.
  - intros (Hf & Hfetch & Hnone & Hd).
    rewrite (ValidateCreateData_after_fields _ _ _ _ Hf).
    unfold checkDuplicateStorage, FetchModelObjects. rewrite Hfetch.
    rewrite (proj2 (scan_none (defaulted input) _)).
    + unfold testIscsiConnection. simpl. rewrite Hd. reflexivity.
    + intros s Hs. apply list_elem_of_filter in Hs as [Hi Hs]. exact (Hnone s Hs Hi).
Qed.

(** X6. What an accepted input stores reads back as what was submitted: when
    IP literals hold no white space, trimming changes nothing, and the
    stored target, iqn and portal are the submitted texts, the stored
    lun_id the defaulted lunId. *)
Theorem accepted_input_is_stored_unchanged net p db input input' :
  (∀ s, Net.ParseIP net s = true → no_space s) →
  ValidateCreateData net p db input = (input', None) →
  Jsonutils.GetString (StorageCreateInput.StorageConf input') "target"
    = StorageCreateInput.IscsiTarget input
  ∧ Jsonutils.GetString (StorageCreateInput.StorageConf input') "iqn"
    = StorageCreateInput.IscsiIqn input
  ∧ Jsonutils.GetString (StorageCreateInput.StorageConf input') "portal"
    = StorageCreateInput.IscsiPortal input
  ∧ Jsonutils.Int (StorageCreateInput.StorageConf input') "lun_id"
    = Z.max 0 (StorageCreateInput.IscsiLunId input).
Proof.
  intros Hip E.
  rewrite (ValidateCreateData_accepted_conf _ _ _ _ _ E).
  apply (stored_reads_back net); [exact Hip|].
  exact (ValidateCreateData_accepted_fields _ _ _ _ _ E).
Qed.

Lemma accepted_input_is_stored_unchanged_witness :
  ∃ input',
    ValidateCreateData Lab.net Lab.persistence Lab.empty_db
      (Lab.create_input "192.168.1.100:3260" (-1)) = (input', None)
    ∧ Jsonutils.GetString (StorageCreateInput.StorageConf input') "target" = "192.168.1.100"
    ∧ Jsonutils.GetString (StorageCreateInput.StorageConf input') "iqn"
      = "iqn.2023-01.com.example:storage.target01"
    ∧ Jsonutils.GetString (StorageCreateInput.StorageConf input') "portal"
      = "192.168.1.100:3260"
    ∧ Jsonutils.Int (StorageCreateInput.StorageConf input') "lun_id" = 0.
Proof.
  eexists. split; [vm_compute; reflexivity|].
  apply (accepted_input_is_stored_unchanged Lab.net Lab.persistence Lab.empty_db
           (Lab.create_input "192.168.1.100:3260" (-1)) _ LabFacts.ParseIP_no_space).
  vm_compute. reflexivity.
Defined.

(** X7. Once an accepted input has been stored as an iSCSI record, submitting
    the same input again is refused as a duplicate, whatever else the
    tables hold (IP literals holding no white space, the records being
    readable). *)
Theorem accepted_input_resubmitted_is_duplicate net p db db' input input' s :
  (∀ s, Net.ParseIP net s = true → no_space s) →
  ValidateCreateData net p db input = (input', None) →
  fetch_error p = None →
  s ∈ storages db' → is_iscsi s = true →
  SStorage.StorageConf s = StorageCreateInput.StorageConf input' →
  Httperrors.is_duplicate (snd (ValidateCreateData net p db' input)) = true
  ∧ Httperrors.is_duplicate (snd (ValidateCreateData net p db' input')) = true.
Proof.
  intros Hip E Hfetch Hs Hi Hconf.
  pose proof (ValidateCreateData_accepted_fields _ _ _ _ _ E) as Hf.
  pose proof (ValidateCreateData_accepted_conf _ _ _ _ _ E) as Hc.
  destruct (stored_reads_back net input Hip Hf) as (Rt & Ri & Rp & Rl).
  assert (Hdup : ∀ i, input_identity i = input_identity (defaulted input) →
            Httperrors.is_duplicate (checkDuplicateStorage p db' i) = true).
  { intros i Hid. unfold checkDuplicateStorage, FetchModelObjects. rewrite Hfetch.
    apply DuplicateDetection.scan_duplicate. exists s.
    split; [apply list_elem_of_filter; auto|].
    rewrite Hid. unfold stored_identity, input_identity. rewrite Hconf, Hc, Rt, Ri, Rp, Rl.
    reflexivity. }
  assert (Hvalidate : ∀ i, passes_field_validation net i →
            input_identity (defaulted i) = input_identity (defaulted input) →
            Httperrors.is_duplicate (snd (ValidateCreateData net p db' i)) = true).
  { intros i Hpass Hid. rewrite (ValidateCreateData_after_fields _ _ _ _ Hpass).
    specialize (Hdup (defaulted i) Hid).
    destruct (checkDuplicateStorage p db' (defaulted i)); [exact Hdup | discriminate Hdup]. }
  split; [apply Hvalidate; [exact Hf | reflexivity]|].
  pose proof (ValidateCreateData_accepted_lun_id _ _ _ _ _ E) as [Hl _].
  rewrite (ValidateCreateData_after_fields _ _ _ _ Hf) in E.
  destruct (checkDuplicateStorage p db (defaulted input)); [discriminate|].
  destruct (testIscsiConnection net (defaulted input)); [discriminate|].
  injection E as <-.
  apply Hvalidate; [exact Hf|].
  unfold input_identity, defaulted. simpl. f_equal. lia.
Qed.

Lemma accepted_input_resubmitted_is_duplicate_witness :
  ∃ input',
    ValidateCreateData Lab.net Lab.persistence Lab.empty_db
      (Lab.create_input "192.168.1.100:3260" 0) = (input', None)
    ∧ Httperrors.is_duplicate
        (snd (ValidateCreateData Lab.net Lab.persistence Lab.one_storage_db
                (Lab.create_input "192.168.1.100:3260" 0))) = true
    ∧ Httperrors.is_duplicate
        (snd (ValidateCreateData Lab.net Lab.persistence Lab.one_storage_db input')) = true.
Proof.
  eexists. split; [vm_compute; reflexivity|].
  apply (accepted_input_resubmitted_is_duplicate Lab.net Lab.persistence Lab.empty_db
           Lab.one_storage_db (Lab.create_input "192.168.1.100:3260" 0) _
           (Lab.storage "s1" "192.168.1.100:3260" 0) LabFacts.ParseIP_no_space).
  - vm_compute. reflexivity.
  - reflexivity.
  - apply list_elem_of_singleton. reflexivity.
  - reflexivity.
  - vm_compute. reflexivity.
Defined.

End CreateOutcome.

(** * Further properties of the reconciler *)

Module ReconcileFrame.

Import GoString Api Models SIscsiStorageDriver Reconcile ReconcileFacts.

Lemma PostCreate_sibling_some storage l x :
  PostCreate_sibling storage l = Some x → x ∈ l ∧ candidate storage x.
Proof.
  induction l as [|y l IH]; [discriminate|].
  rewrite PostCreate_sibling_cons.
  destruct (decide (candidate storage y)) as [Hc|_].
  - intros [= ->]. split; [apply elem_of_cons; auto | exact Hc].
  - intros H. destruct (IH H) as [Hin Hc]. split; [apply elem_of_cons; auto | exact Hc].
Qed.

Lemma PostCreate_sibling_none_iff storage l :
  PostCreate_sibling storage l = None ↔ ∀ x, x ∈ l → ¬ candidate storage x.
Proof.
  split; [|apply PostCreate_sibling_none].
  induction l as [|y l IH]; intros H x Hx; [by apply elem_of_nil in Hx|].
  rewrite PostCreate_sibling_cons in H.
  destruct (decide (candidate storage y)) as [|Hn]; [discriminate|].
  apply elem_of_cons in Hx as [->|Hx]; [exact Hn | exact (IH H x Hx)].
Qed.

Lemma write_row_length s l : length (write_row s l) = length l.
Proof. unfold write_row. apply length_map. Qed.

Lemma write_row_keeps s l r :
  r ∈ l → SStorage.Id r ≠ SStorage.Id s → r ∈ write_row s l.
Proof.
  intros Hr Hne. unfold write_row. apply list_elem_of_fmap. exists r. split; [|exact Hr].
  apply String.eqb_neq in Hne. rewrite Hne. reflexivity.
Qed.

Lemma write_row_elem s l r : r ∈ write_row s l → r ∈ l ∨ r = s.
Proof.
  unfold write_row. intros H. apply list_elem_of_fmap in H as (y & -> & Hy).
  destruct (String.eqb _ _); auto.
Qed.

Lemma write_row_twice s l : write_row s (write_row s l) = write_row s l.
Proof.
  unfold write_row. rewrite map_map. apply map_ext. intros r.
  destruct (String.eqb (SStorage.Id r) (SStorage.Id s)) eqn:E; [|rewrite E; reflexivity].
  rewrite String.eqb_refl. reflexivity.
Qed.

Lemma snoc_neq {A} (l : list A) (x : A) : l ++ [x] ≠ l.
Proof.
  intros H. apply (f_equal length) in H. rewrite length_app in H. simpl in H. lia.
Qed.

Lemma written_frame p dir db storage cache caches :
  caches = storagecaches db
  ∨ caches = storagecaches db ++ [cache_for storage (new_id p (storagecaches db)) dir] →
  let db' := {| storages := write_row (reconciled storage cache) (storages db);
                storagecaches := caches |} in
  let storage' := reconciled storage cache in
  (SStorage.Id storage' = SStorage.Id storage
   ∧ SStorage.Name storage' = SStorage.Name storage
   ∧ SStorage.StorageType storage' = SStorage.StorageType storage
   ∧ SStorage.StorageConf storage' = SStorage.StorageConf storage)
  ∧ length (storages db') = length (storages db)
  ∧ (∀ r, r ∈ storages db → SStorage.Id r ≠ SStorage.Id storage → r ∈ storages db')
  ∧ (∀ r, r ∈ storages db' → r ∈ storages db ∨ r = storage')
  ∧ (storagecaches db' = storagecaches db
     ∨ storagecaches db' = storagecaches db
         ++ [cache_for storage (new_id p (storagecaches db)) dir]).
Proof.
  intros Hc. simpl. repeat split; try reflexivity.
  - apply write_row_length.
  - intros r Hr Hne. apply write_row_keeps; assumption.
  - intros r Hr. apply write_row_elem. exact Hr.
  - exact Hc.
Qed.

(** X8. PostCreate touches nothing but the row of its own record and the end
    of the cache table: the identifier, name, type and configuration of
    the record are kept; every other row of the storage table stays and no
    row appears that is not the record itself; the cache table is kept or
    extended by one record, named after the storage, at the default image
    cache directory. *)
Theorem PostCreate_touches_only_own_row_and_cache_table p dir db storage :
  let '(db', storage') := PostCreate p dir db storage in
  (SStorage.Id storage' = SStorage.Id storage
   ∧ SStorage.Name storage' = SStorage.Name storage
   ∧ SStorage.StorageType storage' = SStorage.StorageType storage
   ∧ SStorage.StorageConf storage' = SStorage.StorageConf storage)
  ∧ length (storages db') = length (storages db)
  ∧ (∀ r, r ∈ storages db → SStorage.Id r ≠ SStorage.Id storage → r ∈ storages db')
  ∧ (∀ r, r ∈ storages db' → r ∈ storages db ∨ r = storage')
  ∧ (storagecaches db' = storagecaches db
     ∨ storagecaches db' = storagecaches db
         ++ [ {| SStoragecache.Id := new_id p (storagecaches db);
                 SStoragecache.Name := "iscsi-cache-" +:+ SStorage.Id storage;
                 SStoragecache.Path := dir;
                 SStoragecache.ExternalId := SStorage.Id storage |} ]).
Proof.
  unfold PostCreate, FetchModelObjects, Insert, Update.
  destruct (len (SStorage.StoragecacheId storage) >? 0).
  - destruct (update_error p); [simpl; auto 10|].
    apply (written_frame p dir db storage (SStorage.StoragecacheId storage)). auto.
  - destruct (fetch_error p); [simpl; auto 10|].
    destruct (PostCreate_sibling storage _) as [sibling|].
    + destruct (update_error p); [simpl; auto 10|].
      apply (written_frame p dir db storage (SStorage.StoragecacheId sibling)). auto.
    + destruct (insert_error p); [simpl; auto 10|]. simpl.
      destruct (update_error p); [simpl; auto 10|].
      apply (written_frame p dir db storage (new_id p (storagecaches db))). auto.
Qed.

(** X9. PostCreate adds a cache record exactly when the storage has no cache,
    the stored iSCSI records can be read, none of the other ones with a
    cache has its target, iqn and portal, and the insertion succeeds;
    whether the following update of the storage succeeds plays no part. *)
Theorem PostCreate_adds_cache_iff p dir db storage :
  storagecaches (fst (PostCreate p dir db storage)) ≠ storagecaches db
  ↔ SStorage.StoragecacheId storage = ""
    ∧ fetch_error p = None
    ∧ (∀ x, x ∈ storages db → is_iscsi x = true → ¬ candidate storage x)
    ∧ insert_error p = None.
Proof.
  unfold PostCreate, FetchModelObjects, Insert, Update.
  destruct (len (SStorage.StoragecacheId storage) >? 0) eqn:Hl.
  - apply len_positive in Hl.
    split; [|intros (H & _); contradiction].
    intros H. exfalso. apply H. destruct (update_error p); reflexivity.
  - assert (Hc : SStorage.StoragecacheId storage = "").
    { destruct (decide (SStorage.StoragecacheId storage = "")) as [|Hn]; [assumption|].
      apply len_positive in Hn. congruence. }
    destruct (fetch_error p) as [e|];
      [split; [intros H; exfalso; apply H; reflexivity | intros (_ & H & _); discriminate]|].
    destruct (PostCreate_sibling storage _) as [sibling|] eqn:Es.
    + split.
      * intros H. exfalso. apply H. destruct (update_error p); reflexivity.
      * intros (_ & _ & Hn & _). exfalso.
        apply PostCreate_sibling_some in Es as [Hin Hcand].
        apply list_elem_of_filter in Hin as [Hi Hin]. exact (Hn sibling Hin Hi Hcand).
    + destruct (insert_error p) as [e|];
        [split; [intros H; exfalso; apply H; reflexivity
                | intros (_ & _ & _ & H); discriminate]|].
      split.
      * intros _. repeat split; try assumption.
        intros x Hx Hi. apply (proj1 (PostCreate_sibling_none_iff _ _) Es).
        apply list_elem_of_filter. auto.
      * intros _. simpl. destruct (update_error p); simpl; apply snoc_neq.
Qed.

(** X10. A record is never set online without a cache: when updates succeed
    and identifiers are non-empty, PostCreate leaves the record online
    with a cache assigned, or (the fetch or the insertion having failed on
    a record without cache) leaves record and tables as they were. *)
Theorem PostCreate_online_only_with_cache p dir db storage :
  update_error p = None → (∀ l, new_id p l ≠ "") →
  let '(db', storage') := PostCreate p dir db storage in
  (SStorage.Status storage' = STORAGE_ONLINE ∧ SStorage.StoragecacheId storage' ≠ "")
  ∨ (storage' = storage ∧ db' = db ∧ SStorage.StoragecacheId storage = ""
     ∧ (fetch_error p ≠ None ∨ insert_error p ≠ None)).
Proof.
  intros Hu Hid. unfold PostCreate, FetchModelObjects, Insert, Update. rewrite Hu.
  destruct (len (SStorage.StoragecacheId storage) >? 0) eqn:Hl.
  - apply len_positive in Hl. left. simpl. auto.
  - assert (Hc : SStorage.StoragecacheId storage = "").
    { destruct (decide (SStorage.StoragecacheId storage = "")) as [|Hn]; [assumption|].
      apply len_positive in Hn. congruence. }
    destruct (fetch_error p) as [e|] eqn:Hf; [right; auto 6|].
    destruct (PostCreate_sibling storage _) as [sibling|] eqn:Es.
    + left. apply PostCreate_sibling_some in Es as [_ (_ & _ & Hne)]. simpl. auto.
    + destruct (insert_error p) as [e|] eqn:Hi; [right; auto 6|].
      left. simpl. auto.
Qed.

Lemma PostCreate_online_only_with_cache_witness :
  let '(db', storage') :=
    PostCreate Lab.persistence "/image_cache" Lab.one_storage_db
      (Lab.storage "s1" "192.168.1.100:3260" 0) in
  (SStorage.Status storage' = STORAGE_ONLINE ∧ SStorage.StoragecacheId storage' ≠ "")
  ∨ (storage' = Lab.storage "s1" "192.168.1.100:3260" 0 ∧ db' = Lab.one_storage_db
     ∧ SStorage.StoragecacheId (Lab.storage "s1" "192.168.1.100:3260" 0) = ""
     ∧ (fetch_error Lab.persistence ≠ None ∨ insert_error Lab.persistence ≠ None)).
Proof.
  apply (PostCreate_online_only_with_cache Lab.persistence "/image_cache"
           Lab.one_storage_db (Lab.storage "s1" "192.168.1.100:3260" 0)).
  - reflexivity.
  - intros l. discriminate.
Defined.

(** X11. PostCreate is idempotent when updates succeed and identifiers are
    non-empty: run again on its own result it changes neither the tables
    nor the record, so no second cache is ever provisioned. *)
Theorem PostCreate_is_idempotent p dir db storage :
  update_error p = None → (∀ l, new_id p l ≠ "") →
  let '(db', storage') := PostCreate p dir db storage in
  PostCreate p dir db' storage' = (db', storage').
Proof.
  intros Hu Hid.
  assert (Hagain : ∀ cache caches, cache ≠ "" →
    PostCreate p dir
      {| storages := write_row (reconciled storage cache) (storages db);
         storagecaches := caches |} (reconciled storage cache)
    = ({| storages := write_row (reconciled storage cache) (storages db);
          storagecaches := caches |}, reconciled storage cache)).
  { intros cache caches Hne. unfold PostCreate, Update. rewrite Hu. simpl.
    apply len_positive in Hne. rewrite Hne. simpl.
    change (SStorage.set_Status (reconciled storage cache) STORAGE_ONLINE)
      with (reconciled storage cache).
    rewrite write_row_twice. reflexivity. }
  destruct (len (SStorage.StoragecacheId storage) >? 0) eqn:Hl.
  - unfold PostCreate at 1. unfold Update. rewrite Hl, Hu.
    apply len_positive in Hl.
    exact (Hagain (SStorage.StoragecacheId storage) (storagecaches db) Hl).
  - destruct (fetch_error p) as [e|] eqn:Hf.
    + assert (E : PostCreate p dir db storage = (db, storage))
        by (unfold PostCreate, FetchModelObjects; rewrite Hl, Hf; reflexivity).
      rewrite E. exact E.
    + destruct (PostCreate_sibling storage
                  (filter (fun s => is_iscsi s = true) (storages db)))
        as [sibling|] eqn:Es.
      * unfold PostCreate at 1. unfold FetchModelObjects, Update. rewrite Hl, Hf, Es, Hu.
        apply PostCreate_sibling_some in Es as [_ (_ & _ & Hne)].
        exact (Hagain (SStorage.StoragecacheId sibling) (storagecaches db) Hne).
      * destruct (insert_error p) as [e|] eqn:Hi.
        -- assert (E : PostCreate p dir db storage = (db, storage))
             by (unfold PostCreate, FetchModelObjects, Insert; rewrite Hl, Hf, Es, Hi;
                 reflexivity).
           rewrite E. exact E.
        -- unfold PostCreate at 1. unfold FetchModelObjects, Insert, Update.
           rewrite Hl, Hf, Es, Hi, Hu.
           exact (Hagain (new_id p (storagecaches db)) _ (Hid _)).
Qed.

Lemma PostCreate_is_idempotent_witness :
  let '(db', storage') :=
    PostCreate Lab.persistence "/image_cache" Lab.one_storage_db
      (Lab.storage "s1" "192.168.1.100:3260" 0) in
  PostCreate Lab.persistence "/image_cache" db' storage' = (db', storage').
Proof.
  apply (PostCreate_is_idempotent Lab.persistence "/image_cache"
           Lab.one_storage_db (Lab.storage "s1" "192.168.1.100:3260" 0)).
  - reflexivity.
  - intros l. discriminate.
Defined.

End ReconcileFrame.

(** * Further properties of the update path *)

Module UpdateFrame.

Import GoString Api SIscsiStorageDriver.

(** what a write of one key into the dictionary behind a pointer keeps *)
Lemma store_set_frame (h h' : Store) ptr k v :
  store_set h ptr k v = Some h' →
  (∀ q, q ≠ ptr → h' !! q = h !! q)
  ∧ (∀ key, key ≠ k → (h' !! ptr ≫= (.!! key)) = (h !! ptr ≫= (.!! key)))
  ∧ is_Some (h !! ptr).
Proof.
  unfold store_set. destruct (h !! ptr) as [conf|] eqn:E; [|discriminate].
  simpl. intros [= <-]. split; [|split].
  - intros q Hq. apply lookup_insert_ne. congruence.
  - intros key Hk. rewrite lookup_insert_eq. simpl. unfold Jsonutils.Set_.
    apply lookup_insert_ne. congruence.
  - eauto.
Qed.

(** X12. An update cannot change what a storage connects to. Whatever the
    outcome, ValidateUpdateData leaves every other dictionary of the store
    as it was, and in the dictionary the input points to every key but
    username and password (so target, iqn, portal and lun_id); the
    credentials and the pointer of the input are handed on unchanged.
    The inherited base validation is assumed to hand store and input on
    as they are. *)
Theorem ValidateUpdateData_keeps_connection_identity base net (h h' : Store) input input' err :
  (∀ h0 i0, ∃ e, base h0 i0 = (h0, i0, e)) →
  ValidateUpdateData base net h input = Some (h', input', err) →
  (∀ q, q ≠ StorageUpdateInput.StorageConf input → h' !! q = h !! q)
  ∧ (∀ key, key ≠ "username" → key ≠ "password" →
       (h' !! StorageUpdateInput.StorageConf input ≫= (.!! key))
       = (h !! StorageUpdateInput.StorageConf input ≫= (.!! key)))
  ∧ StorageUpdateInput.IscsiUsername input' = StorageUpdateInput.IscsiUsername input
  ∧ StorageUpdateInput.IscsiPassword input' = StorageUpdateInput.IscsiPassword input
  ∧ StorageUpdateInput.StorageConf input' = StorageUpdateInput.StorageConf input.
Proof.
  intros Hbase.
  assert (Hend : ∀ h1 i1,
    (∀ q, q ≠ StorageUpdateInput.StorageConf input → h1 !! q = h !! q) →
    (∀ key, key ≠ "username" → key ≠ "password" →
       (h1 !! StorageUpdateInput.StorageConf input ≫= (.!! key))
       = (h !! StorageUpdateInput.StorageConf input ≫= (.!! key))) →
    StorageUpdateInput.IscsiUsername i1 = StorageUpdateInput.IscsiUsername input →
    StorageUpdateInput.IscsiPassword i1 = StorageUpdateInput.IscsiPassword input →
    StorageUpdateInput.StorageConf i1 = StorageUpdateInput.StorageConf input →
    ∀ r, (r = Some (base h1 i1) ∨ ∃ e, r = Some (h1, i1, Some e)) →
    r = Some (h', input', err) →
    (∀ q, q ≠ StorageUpdateInput.StorageConf input → h' !! q = h !! q)
    ∧ (∀ key, key ≠ "username" → key ≠ "password" →
         (h' !! StorageUpdateInput.StorageConf input ≫= (.!! key))
         = (h !! StorageUpdateInput.StorageConf input ≫= (.!! key)))
    ∧ StorageUpdateInput.IscsiUsername input' = StorageUpdateInput.IscsiUsername input
    ∧ StorageUpdateInput.IscsiPassword input' = StorageUpdateInput.IscsiPassword input
    ∧ StorageUpdateInput.StorageConf input' = StorageUpdateInput.StorageConf input).
  { intros h1 i1 F K Hu Hp Hc r [->|[e ->]].
    - destruct (Hbase h1 i1) as [e ->]. intros [= <- <- <-]. auto.
    - intros [= <- <- <-]. auto. }
  unfold ValidateUpdateData.
  destruct (_ || _); [|apply (Hend h input); auto].
  destruct (validateAuthParams _ _); [apply (Hend h input); eauto|].
  set (ptr := StorageUpdateInput.StorageConf input) in *.
  destruct (len (StorageUpdateInput.IscsiUsername input) >? 0).
  - destruct (store_set h ptr "username" _) as [h1|] eqn:E1; [|discriminate].
    apply store_set_frame in E1 as (F1 & K1 & _). simpl.
    destruct (len (StorageUpdateInput.IscsiPassword input) >? 0).
    + fold ptr. destruct (store_set h1 ptr "password" _) as [h2|] eqn:E2; [|discriminate].
      apply store_set_frame in E2 as (F2 & K2 & _). simpl.
      destruct (testIscsiConnectionUpdate net h2 _) as [[e|]|]; simpl; [| |discriminate];
        (apply (Hend h2 (StorageUpdateInput.set_UpdateStorageConf
                           (StorageUpdateInput.set_UpdateStorageConf input true) true));
         [intros q Hq; rewrite F2, F1 by exact Hq; reflexivity
         |intros key Hu Hp; rewrite K2, K1 by assumption; reflexivity
         |reflexivity|reflexivity|reflexivity|eauto]).
    + simpl. destruct (testIscsiConnectionUpdate net h1 _) as [[e|]|]; simpl; [| |discriminate];
        (apply (Hend h1 (StorageUpdateInput.set_UpdateStorageConf input true));
         [exact F1|intros key Hu Hp; apply K1; assumption
         |reflexivity|reflexivity|reflexivity|eauto]).
  - simpl. destruct (len (StorageUpdateInput.IscsiPassword input) >? 0).
    + fold ptr. destruct (store_set h ptr "password" _) as [h2|] eqn:E2; [|discriminate].
      apply store_set_frame in E2 as (F2 & K2 & _). simpl.
      destruct (testIscsiConnectionUpdate net h2 _) as [[e|]|]; simpl; [| |discriminate];
        (apply (Hend h2 (StorageUpdateInput.set_UpdateStorageConf input true));
         [exact F2|intros key Hu Hp; apply K2; assumption
         |reflexivity|reflexivity|reflexivity|eauto]).
    + simpl. destruct (testIscsiConnectionUpdate net h _) as [[e|]|]; simpl; [| |discriminate];
        (apply (Hend h input); eauto).
Qed.

Lemma ValidateUpdateData_keeps_connection_identity_witness :
  let h' : Store :=
    <[2%nat := <["password" := Jsonutils.JSONString "newpass"]>
                (<["username" := Jsonutils.JSONString "newuser"]>
                   UpdateFixture.reachable_conf)]> UpdateFixture.store in
  ValidateUpdateData UpdateFixture.base Lab.net UpdateFixture.store
    (UpdateFixture.new_credentials 2)
    = Some (h', StorageUpdateInput.set_UpdateStorageConf
                  (UpdateFixture.new_credentials 2) true, None)
  ∧ (∀ q, q ≠ 2%nat → h' !! q = UpdateFixture.store !! q)
  ∧ (∀ key, key ≠ "username" → key ≠ "password" →
       (h' !! 2%nat ≫= (.!! key)) = (UpdateFixture.store !! 2%nat ≫= (.!! key))).
Proof.
  intros h'.
  assert (E : ValidateUpdateData UpdateFixture.base Lab.net UpdateFixture.store
                (UpdateFixture.new_credentials 2)
              = Some (h', StorageUpdateInput.set_UpdateStorageConf
                            (UpdateFixture.new_credentials 2) true, None))
    by (vm_compute; reflexivity).
  assert (Hbase : ∀ h0 i0, ∃ e, UpdateFixture.base h0 i0 = (h0, i0, e))
    by (intros h0 i0; exists None; reflexivity).
  destruct (ValidateUpdateData_keeps_connection_identity UpdateFixture.base Lab.net
              UpdateFixture.store h' (UpdateFixture.new_credentials 2) _ None Hbase E)
    as (Hq & Hk & _).
  split; [exact E|]. split; [exact Hq | exact Hk].
Defined.

End UpdateFrame.

(** * Further properties of the host-side storage *)

Module CommandTrace.

Import GoString Storageman SIscsiStorage Lifecycle LifecycleFacts.

Section Trace.

Context {W : Type} (ops : HostOps W).
















End Trace.




End CommandTrace.

Module AccessFacts.

Import GoString Storageman SIscsiStorage Lifecycle LifecycleFacts StorageAccess.

Section Access.

Context {W : Type} (ops : HostOps W).

(** X16. Accessible answers "no device path available" only when another
    goroutine gets in between its three uses of the lock. Left alone, on
    an instance whose state satisfies "connected implies a device path",
    it never gives that answer: the invariant is kept; success means the
    instance is connected with a non-empty path; an instance that was
    connected is only examined, without any command; and a failed mount
    leaves the instance as it was, its error wrapped. But when another
    goroutine unmounts the instance after Accessible has found it
    connected, or has mounted it, and before it reads the path, the
    answer is exactly that error, on an instance left disconnected. *)
Theorem Accessible_lacks_device_path_only_by_interference Stat fuel s r :
  connected_has_path s →
  (∀ s' e r',
     Accessible ops Stat fuel quiet quiet s r = (Some (s', e), r') →
     connected_has_path s'
     ∧ e ≠ Some (Errors.Errorf "no device path available")
     ∧ (e = None → isConnected s' = true ∧ devicePath s' ≠ "")
     ∧ (isConnected s = true → s' = s ∧ issued r' = issued r)
     ∧ (isConnected s' = false →
        s' = s ∧ ∃ err r1, MountStorage ops fuel s r = (Some (s, Some err), r1)
                           ∧ e = Some (Errors.Wrapf err "mount iSCSI storage")))
  ∧ (∀ s2 r2,
       (isConnected s = true ∧ s2 = s ∧ r2 = r)
       ∨ (isConnected s = false
          ∧ MountStorage ops fuel s r = (Some (s2, None), r2)) →
       Accessible ops Stat fuel quiet (unmounts ops) s r
       = (Some (set_connection s2 "" false,
                Some (Errors.Errorf "no device path available")),
          snd (UnmountStorage ops s2 r2))).
Proof.
  intros Hinv. split.
  - intros s' e r'.
    unfold Accessible, quiet, IsConnected, GetDevicePath, bind, ret.
    destruct (isConnected s) eqn:Hc; simpl.
    + pose proof (Hinv Hc) as Hp.
      destruct (String.eqb_spec (devicePath s) "") as [E|_]; [contradiction|].
      destruct (Stat (world r) (devicePath s)) as [w' [err|]]; intros [= <- <- <-];
        simpl; (split; [exact Hinv|]); (split; [discriminate|]);
        (split; [try discriminate; auto|]); (split; [auto|]); congruence.
    + destruct (MountStorage ops fuel s r) as [[[s1 [err|]]|] r1] eqn:Em;
        [| |discriminate].
      * rewrite MountStorage_unfold, Hc in Em.
        assert (s1 = s) as ->.
        { destruct (discoverTarget ops s r) as [[e1|] r1']; [congruence|].
          destruct (loginTarget ops s r1') as [[e2|] r2]; [congruence|].
          destruct (waitForDevice ops fuel s r2) as [[[p|e3]|] r3]; congruence. }
        intros [= <- <- <-]. split; [exact Hinv|]. split; [discriminate|].
        split; [discriminate|]. split; [congruence|].
        intros _. split; [reflexivity|]. exists err, r1. split; reflexivity.
      * pose proof Em as Em'. rewrite MountStorage_unfold, Hc in Em'.
        destruct (discoverTarget ops s r) as [[e1|] r1']; [discriminate|].
        destruct (loginTarget ops s r1') as [[e2|] r2]; [discriminate|].
        destruct (waitForDevice ops fuel s r2) as [[[p|e3]|] r3] eqn:Ew;
          try discriminate.
        injection Em' as <- <-. simpl.
        pose proof (waitForDevice_outcome ops fuel s r2 (inl p) r3 Ew) as Hp.
        simpl in Hp.
        destruct (String.eqb_spec p "") as [E|_]; [contradiction|].
        destruct (Stat (world r3) p) as [w' [err|]]; intros [= <- <- <-]; simpl;
          (split; [intros _; exact Hp|]); (split; [discriminate|]);
          (split; [try discriminate; auto|]); (split; [congruence|]); discriminate.
  - intros s2 r2 Hcase.
    unfold Accessible, quiet, unmounts, IsConnected, GetDevicePath, bind, ret.
    destruct Hcase as [(Hc & -> & ->)|(Hc & Hm)]; rewrite Hc; simpl.
    + rewrite UnmountStorage_unfold, Hc. reflexivity.
    + rewrite Hm. simpl.
      assert (Hc2 : isConnected s2 = true).
      { rewrite MountStorage_unfold, Hc in Hm.
        destruct (discoverTarget ops s r) as [[e1|] r1']; [discriminate|].
        destruct (loginTarget ops s r1') as [[e2|] r3]; [discriminate|].
        destruct (waitForDevice ops fuel s r3) as [[[p|e3]|] r4]; try discriminate.
        injection Hm as <- _. reflexivity. }
      rewrite UnmountStorage_unfold, Hc2. reflexivity.
Qed.

(** X17. getDeviceSize issues one blockdev command. A failure of the command
    or of the parse gives size 0 with an error; otherwise the size is the
    number of bytes printed, white space around it dropped, in whole
    megabytes rounded down. *)
Theorem getDeviceSize_whole_megabytes devicePath r :
  let '((size, e), r') := getDeviceSize ops devicePath r in
  issued r' = issued r ++ [("blockdev", ["--getsize64"; devicePath])]
  ∧ match e with
    | Some _ => size = 0
    | None =>
        ∃ output bytes,
          fst (snd (Output ops (world r) "blockdev" ["--getsize64"; devicePath])) = output
          ∧ Strconv.Atoi (TrimSpace output) = Ok bytes
          ∧ (0 ≤ bytes → size * 1048576 ≤ bytes < (size + 1) * 1048576)
          ∧ (bytes ≤ 0 → bytes ≤ size * 1048576 ∧ size * 1048576 < bytes + 1048576)
    end.
Proof.
  unfold getDeviceSize, bind, run_command, ret.
  destruct (Output ops (world r) "blockdev" ["--getsize64"; devicePath])
    as [w' [output [err|]]]; simpl; [split; reflexivity|].
  destruct (Strconv.Atoi (TrimSpace output)) as [bytes|msg] eqn:Ea; simpl;
    [|split; reflexivity].
  split; [reflexivity|]. exists output, bytes. split; [reflexivity|].
  split; [exact Ea|].
  split; intros Hb; Z.to_euclidean_division_equations; lia.
Qed.

End Access.

End AccessFacts.

Module AccessExample.

Import GoString Storageman SIscsiStorage Lifecycle StorageAccess.

Lemma Accessible_lacks_device_path_only_by_interference_witness :
  let ops := HostLab.host (inl [HostLab.lun "0"]) HostLab.links_lun0 in
  (∃ s' r',
     Accessible ops DiskLab.Stat 31 quiet quiet (HostLab.iscsi_storage 0) HostLab.start
       = (Some (s', None), r')
     ∧ connected_has_path s' ∧ isConnected s' = true ∧ devicePath s' ≠ "")
  ∧ (∃ s' r',
       Accessible ops DiskLab.Stat 31 quiet (unmounts ops)
         (HostLab.iscsi_storage 0) HostLab.start
         = (Some (s', Some (Errors.Errorf "no device path available")), r')
       ∧ isConnected s' = false).
Proof.
  intros ops.
  assert (Hinv : connected_has_path (HostLab.iscsi_storage 0))
    by (intros H; discriminate H).
  destruct (AccessFacts.Accessible_lacks_device_path_only_by_interference ops
              DiskLab.Stat 31%nat (HostLab.iscsi_storage 0) HostLab.start Hinv)
    as [Hquiet Hrace].
  split.
  - eexists _, _. split; [vm_compute; reflexivity|].
    edestruct Hquiet as (Hinv' & _ & Hok & _); [vm_compute; reflexivity|].
    split; [exact Hinv' | exact (Hok eq_refl)].
  - eexists _, _. split.
    + eapply (Hrace (set_connection (HostLab.iscsi_storage 0) "/dev/sdb" true)).
      right. split; [reflexivity | vm_compute; reflexivity].
    + reflexivity.
Defined.

End AccessExample.

Module DiskListFacts.

Import GoString DiskList.

Section Disks.

Context {D L : Type} `{IDisk D} `{Locker L}.
Variable NewLocalDisk : string → D.

Lemma remove_first_snoc id (l : list D) x :
  (∀ d, d ∈ l → GetId d ≠ id) → GetId x = id → remove_first id (l ++ [x]) = l.
Proof.
  induction l as [|d l IH]; intros Hf Hx; simpl.
  - rewrite Hx, String.eqb_refl. reflexivity.
  - destruct (String.eqb_spec (GetId d) id) as [E|_].
    + exfalso. apply (Hf d); [apply elem_of_cons; auto | exact E].
    + f_equal. apply IH; [|exact Hx]. intros y Hy. apply Hf, elem_of_cons. auto.
Qed.

Lemma find_none_fresh id (l : list D) :
  List.find (fun d => String.eqb (GetId d) id) l = None ↔ ∀ d, d ∈ l → GetId d ≠ id.
Proof.
  induction l as [|d l IH]; simpl.
  - split; [intros _ x Hx; by apply elem_of_nil in Hx | reflexivity].
  - destruct (String.eqb_spec (GetId d) id) as [E|Hne].
    + split; [discriminate|]. intros Hf. exfalso.
      apply (Hf d); [apply elem_of_cons; auto | exact E].
    + rewrite IH. split.
      * intros Hf x Hx. apply elem_of_cons in Hx as [->|Hx]; auto.
      * intros Hf x Hx. apply Hf, elem_of_cons. auto.
Qed.

Lemma find_some_first id (l : list D) d :
  List.find (fun d => String.eqb (GetId d) id) l = Some d → d ∈ l ∧ GetId d = id.
Proof.
  intros Hf. apply find_some in Hf as [Hin E].
  split; [apply list_elem_of_In; exact Hin | apply String.eqb_eq; exact E].
Qed.

(** X18. Removing the disk that CreateDisk has just made gives back the disk
    list as it was, when no disk of the list carried the identifier of the
    new disk and the lock is free again once released. With an older disk
    of the same identifier RemoveDisk would take that one instead. *)
Theorem CreateDisk_then_RemoveDisk_restores_list (s s1 : t D L) diskId disk :
  (∀ l : L, is_Some (Lock (Unlock l))) →
  (∀ d, d ∈ Disks s → GetId d ≠ GetId (NewLocalDisk diskId)) →
  CreateDisk NewLocalDisk s diskId = Some (s1, disk) →
  disk = NewLocalDisk diskId
  ∧ Disks s1 = Disks s ++ [disk]
  ∧ ∃ s2, RemoveDisk s1 disk = Some s2 ∧ Disks s2 = Disks s.
Proof.
  intros Hfree Hfresh. unfold CreateDisk.
  destruct (Lock (DiskLock s)) as [held|]; [|discriminate]. simpl.
  intros [= <- <-]. split; [reflexivity|]. split; [reflexivity|].
  unfold RemoveDisk. simpl. destruct (Hfree held) as [held' ->]. simpl.
  eexists. split; [reflexivity|]. simpl.
  apply remove_first_snoc; [exact Hfresh | reflexivity].
Qed.

(** X19. GetDiskById answers for known disks only. With a lock that cannot be
    taken twice by its holder, a call for an identifier that no disk of
    the list carries never returns: it calls CreateDisk, which waits for
    the lock the call itself holds. When the call returns, the list is
    unchanged and the answer is the first disk with that identifier, or
    the wrapped error of its probe. *)
Theorem GetDiskById_answers_for_known_disks_only (s : t D L) diskId :
  (∀ l held : L, Lock l = Some held → Lock held = None) →
  ((∀ d, d ∈ Disks s → GetId d ≠ diskId) → GetDiskById NewLocalDisk s diskId = None)
  ∧ (∀ s' res, GetDiskById NewLocalDisk s diskId = Some (s', res) →
       Disks s' = Disks s
       ∧ ∃ d, List.find (fun d => String.eqb (GetId d) diskId) (Disks s) = Some d
              ∧ d ∈ Disks s ∧ GetId d = diskId
              ∧ res = match Probe d with
                      | None => inl d
                      | Some err => inr (Errors.Wrapf err ("probe disk " +:+ diskId))
                      end).
Proof.
  intros Hlock. unfold GetDiskById. split.
  - intros Hfresh. apply find_none_fresh in Hfresh. rewrite Hfresh.
    destruct (Lock (DiskLock s)) as [held|] eqn:El; [|reflexivity]. simpl.
    unfold CreateDisk. simpl. rewrite (Hlock _ _ El). reflexivity.
  - intros s' res.
    destruct (Lock (DiskLock s)) as [held|] eqn:El; [|discriminate]. simpl.
    destruct (List.find _ (Disks s)) as [d|] eqn:Ef.
    + destruct (find_some_first _ _ _ Ef) as [Hin Hid].
      destruct (Probe d) eqn:Ep; intros [= <- <-]; (split; [reflexivity|]);
        exists d; rewrite Ep; auto.
    + unfold CreateDisk. simpl. rewrite (Hlock _ _ El). discriminate.
Qed.

End Disks.

Lemma CreateDisk_then_RemoveDisk_restores_list_witness :
  ∃ s1 s2,
    CreateDisk DiskLab.NewLocalDisk (DiskLab.storage ["d1"]) "d2" = Some (s1, "d2")
    ∧ Disks s1 = ["d1"; "d2"]
    ∧ RemoveDisk s1 "d2" = Some s2 ∧ Disks s2 = ["d1"].
Proof.
  destruct (CreateDisk_then_RemoveDisk_restores_list DiskLab.NewLocalDisk
              (DiskLab.storage ["d1"]) (DiskLab.storage ["d1"; "d2"]) "d2" "d2")
    as (_ & Hl & s2 & Hr & Hd).
  - intros l. simpl. eauto.
  - intros d Hd. apply list_elem_of_singleton in Hd as ->. discriminate.
  - reflexivity.
  - exists (DiskLab.storage ["d1"; "d2"]), s2.
    split; [reflexivity|]. split; [exact Hl|]. split; [exact Hr | exact Hd].
Defined.

Lemma GetDiskById_answers_for_known_disks_only_witness :
  GetDiskById DiskLab.NewLocalDisk (DiskLab.storage ["d1"]) "d2" = None
  ∧ GetDiskById DiskLab.NewLocalDisk (DiskLab.storage ["d1"]) "d1"
    = Some (DiskLab.storage ["d1"], inl "d1").
Proof.
  destruct (GetDiskById_answers_for_known_disks_only DiskLab.NewLocalDisk
              (DiskLab.storage ["d1"]) "d2") as [Hnone _].
  - intros [] held; simpl; [discriminate | intros [= <-]; reflexivity].
  - split; [|reflexivity]. apply Hnone.
    intros d Hd. apply list_elem_of_singleton in Hd as ->. discriminate.
Defined.

End DiskListFacts.

(** * The creation form's validators against the driver's *)

Module FormValidation.

Import GoString GoStringFacts Regexp RegexpFacts SIscsiStorageDriver IscsiValidator.

Lemma name_char_js_dot c :
  name_char c = true → negb (Ascii.eqb c "010") && negb (Ascii.eqb c "013") = true.
Proof.
  destruct c as [[] [] [] [] [] [] [] []]; intros H; try discriminate H; reflexivity.
Qed.

Lemma forallb_impl {A} (p q : A → bool) l :
  (∀ x, p x = true → q x = true) → forallb p l = true → forallb q l = true.
Proof.
  intros Hpq. induction l as [|x l IH]; [reflexivity|]. simpl.
  intros H. apply andb_true_iff in H as [Hx Hl].
  rewrite (Hpq x Hx), (IH Hl). reflexivity.
Qed.

(** X20. Every IQN the driver's validateIQN accepts passes the form's
    validateIQN as well: the form never stops a name the server takes. *)
Theorem driver_iqn_passes_form_validateIQN iqn :
  SIscsiStorageDriver.validateIQN iqn = None →
  IscsiValidator.validateIQN iqn = valid.
Proof.
  unfold SIscsiStorageDriver.validateIQN.
  destruct (len iqn =? 0) eqn:El; [discriminate|].
  destruct (MatchAnchored SIscsiStorageDriver.iqnPattern iqn) eqn:Em; [|discriminate].
  intros _. unfold IscsiValidator.validateIQN.
  destruct (String.eqb_spec iqn "") as [->|_]; [discriminate El|].
  assert (Hm : MatchAnchored IscsiValidator.iqnPattern iqn = true).
  { unfold MatchAnchored in *. apply accepts_lang. apply accepts_lang in Em.
    apply IqnFacts.lang_iqnPattern in Em
      as (y & m & a & n & -> & Hy & Hmm & Ha & Hn1 & Hn2).
    unfold IscsiValidator.iqnPattern, digit, js_dot, Text.
    apply lang_cat; [apply lang_lit; reflexivity|].
    apply lang_cat; [apply lang_repeat_class; exact Hy|].
    apply (lang_cat _ _ (bytes "-")); [apply lang_byte; reflexivity|].
    apply lang_cat; [apply lang_repeat_class; exact Hmm|].
    apply (lang_cat _ _ (bytes ".")); [apply lang_byte; reflexivity|].
    apply lang_cat; [apply lang_plus_class; exact Ha|].
    apply (lang_cat _ _ (bytes ":")); [apply lang_byte; reflexivity|].
    apply lang_plus_class. split; [exact Hn1|].
    exact (forallb_impl _ _ _ name_char_js_dot Hn2). }
  rewrite Hm. reflexivity.
Qed.

Lemma driver_iqn_passes_form_validateIQN_witness :
  SIscsiStorageDriver.validateIQN "iqn.2023-01.com.example:storage.target01" = None
  ∧ IscsiValidator.validateIQN "iqn.2023-01.com.example:storage.target01" = valid.
Proof.
  assert (H : SIscsiStorageDriver.validateIQN "iqn.2023-01.com.example:storage.target01"
              = None) by (vm_compute; reflexivity).
  split; [exact H | exact (driver_iqn_passes_form_validateIQN _ H)].
Defined.

(** X21. validateIscsiConfig passes exactly when the target, the IQN and the
    portal pass their validators and the LUN, when one is given, passes
    its own; it reports at most one message per field. *)
Theorem validateIscsiConfig_passes_iff_every_field_passes config :
  (isValid (validateIscsiConfig config) = true ↔
     isValid (validateTarget (iscsi_target config)) = true
     ∧ isValid (IscsiValidator.validateIQN (iscsi_iqn config)) = true
     ∧ isValid (validatePortal (iscsi_portal config)) = true
     ∧ ∀ lunId, iscsi_lun_id config = Some lunId → isValid (validateLunId lunId) = true)
  ∧ (length (errors (validateIscsiConfig config)) ≤ 4)%nat.
Proof.
  assert (Ht : ∀ t, validateTarget t = valid ∨ ∃ msg, validateTarget t = invalid msg).
  { intros t. unfold validateTarget.
    destruct (String.eqb t ""); [eauto|].
    destruct (negb (MatchAnchored ipPattern t)); [eauto|].
    destruct (negb (octets_in_range t)); eauto. }
  assert (Hi : ∀ t, IscsiValidator.validateIQN t = valid
                    ∨ ∃ msg, IscsiValidator.validateIQN t = invalid msg).
  { intros t. unfold IscsiValidator.validateIQN.
    destruct (String.eqb t ""); [eauto|].
    destruct (negb (MatchAnchored IscsiValidator.iqnPattern t)); eauto. }
  assert (Hp : ∀ t, validatePortal t = valid ∨ ∃ msg, validatePortal t = invalid msg).
  { intros t. unfold validatePortal.
    destruct (String.eqb t ""); [eauto|].
    destruct (negb (MatchAnchored portalPattern t)); [eauto|].
    cbv zeta. destruct (negb (octets_in_range _)); [eauto|].
    destruct (_ || _); eauto. }
  assert (Hl : ∀ n, validateLunId n = valid ∨ ∃ msg, validateLunId n = invalid msg).
  { intros n. unfold validateLunId. destruct (_ || _); eauto. }
  unfold validateIscsiConfig.
  destruct (Ht (iscsi_target config)) as [->|[m1 ->]];
  destruct (Hi (iscsi_iqn config)) as [->|[m2 ->]];
  destruct (Hp (iscsi_portal config)) as [->|[m3 ->]];
  destruct (iscsi_lun_id config) as [lunId|];
  try (destruct (Hl lunId) as [El|[m4 El]]; rewrite El);
  simpl; (split; [|lia]);
  (split; [intros H; try discriminate H; repeat split; try reflexivity;
            intros l [= <-]; rewrite El; reflexivity
          | intros (H1 & H2 & H3 & H4); try discriminate; try reflexivity;
            specialize (H4 _ eq_refl); rewrite El in H4; discriminate H4]).
Qed.

End FormValidation.
